(** * jmc_flame_graph: call-forest parser and flame-graph layout

    A shallow embedding of [jmc_flame_graph.py] (Python 2) and the
    properties of its line decoder, forest builder, layout and zoom.

    Conventions of the embedding.
    - Python objects that are mutated through several references
      ([CallTreeNode], [CallForest]) live in a store and are referred to by
      address; objects with a single owner are plain records.
    - Python [int] is [Z]; lengths, indices and depths, which the program
      never makes negative, are [nat].
    - Python [float] is idealised as an exact rational ([Qc]): the values
      are the numbers the code's doubles round.  What raises in Python
      raises here where the constructor of the renderer converts its
      arguments: division by zero ([ZeroDivisionError]), and the
      conversion of an integer beyond the range of a double
      ([OverflowError]).  Properties that hold of the exact values only say
      so, and properties of what is drawn are stated for counts in the
      range in which the code's doubles stay finite ([word_sized]).
    - Exceptions are results: [Raise e] is a Python exception, [Stuck] is
      used by the embedding alone (a dangling address, or the recursion
      budget [fuel] running out) and corresponds to no Python behaviour. *)

From Stdlib Require Import ZArith QArith Qcanon Ascii String List Lia.
From stdpp Require Import base tactics option list numbers strings sorting.

Local Open Scope string_scope.
Local Open Scope list_scope.
Local Open Scope Z_scope.
Local Open Scope nat_scope.

(** ** Exceptions and results *)

Inductive exn : Type :=
  | ZeroDivisionError
  | IndexError
  | ValueError
  | OverflowError.

(** The name of the exception's class, as Python prints it. *)
Definition exn_name (e : exn) : string :=
  match e with
  | ZeroDivisionError => "ZeroDivisionError"
  | IndexError => "IndexError"
  | ValueError => "ValueError"
  | OverflowError => "OverflowError"
  end.

Inductive result (A : Type) : Type :=
  | Ok (a : A)
  | Raise (e : exn)
  | Stuck.
Arguments Ok {A} a.
Arguments Raise {A} e.
Arguments Stuck {A}.

Definition result_bind {A B} (f : A → result B) (m : result A) : result B :=
  match m with
  | Ok a => f a
  | Raise e => Raise e
  | Stuck => Stuck
  end.

#[global] Instance result_ret : MRet result := λ A a, Ok a.
#[global] Instance result_mbind : MBind result := λ A B f m, result_bind f m.

Definition is_Ok {A} (m : result A) : Prop := ∃ a, m = Ok a.

(** ** Python built-ins used by the program *)

(** [l[i]] for [0 <= i]: raises [IndexError] out of range. *)
Definition py_index {A} (l : list A) (i : nat) : result A :=
  match l !! i with
  | Some x => Ok x
  | None => Raise IndexError
  end.

(** [l[-1]]. *)
Definition py_last {A} (l : list A) : result A :=
  match last l with
  | Some x => Ok x
  | None => Raise IndexError
  end.

(** [max(l or [0])]. *)
Definition py_max_or_0 (l : list nat) : nat := foldr Nat.max 0 l.

(** [sum(l)]. *)
Definition py_sum (l : list Z) : Z := foldr Z.add 0%Z l.

(** [s.split(sep)] for a one-character separator: every occurrence of
    [sep] ends a field, so the result has one field more than [s] has
    separators, and is never empty. *)
Fixpoint py_split (sep : ascii) (s : string) : list string :=
  match s with
  | EmptyString => [EmptyString]
  | String c s' =>
      if Ascii.eqb c sep then EmptyString :: py_split sep s'
      else match py_split sep s' with
           | [] => [String c EmptyString]
           | w :: ws => String c w :: ws
           end
  end.

(** [s.lstrip()]: drops leading whitespace, which for a Python 2 [str] is
    space, tab, line feed, vertical tab, form feed and carriage return. *)
Fixpoint py_lstrip (s : string) : string :=
  match s with
  | EmptyString => EmptyString
  | String c s' => if Ascii.is_space c then py_lstrip s' else s
  end.

(** [s.rstrip()]: drops trailing whitespace. *)
Fixpoint py_rstrip (s : string) : string :=
  match s with
  | EmptyString => EmptyString
  | String c s' =>
      match py_rstrip s' with
      | EmptyString => if Ascii.is_space c then EmptyString else String c EmptyString
      | t => String c t
      end
  end.

(** [s.replace(c, '')] for a one-character [c]. *)
Fixpoint py_remove (c : ascii) (s : string) : string :=
  match s with
  | EmptyString => EmptyString
  | String a s' =>
      if Ascii.eqb a c then py_remove c s' else String a (py_remove c s')
  end.

(** The value of a string of decimal digits, read left to right. *)
Fixpoint digits_value (acc : Z) (s : string) : option Z :=
  match s with
  | EmptyString => Some acc
  | String c s' =>
      match Ascii.is_nat c with
      | Some d => digits_value (10 * acc + Z.of_nat d)%Z s'
      | None => None
      end
  end.

(** [int(s)] on a [str]: an optionally signed, non-empty run of decimal
    digits, possibly surrounded by whitespace; anything else raises
    [ValueError]. *)
Definition py_int (s : string) : result Z :=
  let s := py_rstrip (py_lstrip s) in
  let '(neg, body) :=
    match s with
    | String "-"%char t => (true, t)
    | String "+"%char t => (false, t)
    | _ => (false, s)
    end in
  match body with
  | EmptyString => Raise ValueError
  | _ =>
      match digits_value 0 body with
      | Some n => Ok (if neg : bool then (- n)%Z else n)
      | None => Raise ValueError
      end
  end.

(** [int(q)] on a float: truncation toward zero. *)
Definition py_int_of_float (q : Qc) : Z :=
  Z.quot (Qnum (this q)) (Z.pos (Qden (this q))).

(** [a / b] on floats: raises [ZeroDivisionError] when [b] is zero. *)
Definition py_float_div (a b : Qc) : result Qc :=
  if decide (b = 0%Qc) then Raise ZeroDivisionError else Ok (a / b)%Qc.

(** [float(n)] for an [int]. *)
Definition py_float (n : Z) : Qc := Qc_of_Z n.

(** The integers a double can hold: from [2^1024 - 2^970] on, the nearest
    double would be [2^1024], and the conversion raises. *)
Definition converts_to_float (n : Z) : Prop :=
  (Z.abs n < 2 ^ 1024 - 2 ^ 970)%Z.

#[global] Instance converts_to_float_dec n : Decision (converts_to_float n).
Proof. unfold converts_to_float. apply _. Defined.

(** [float(n)], or the implicit conversion of the integer operand of a
    float operation, with its failure. *)
Definition py_float_of (n : Z) : result Qc :=
  if decide (converts_to_float n) then Ok (py_float n) else Raise OverflowError.

(** [a / n] for a float [a] and an integer [n]: [n] is converted, then
    checked for zero. *)
Definition py_float_div_int (a : Qc) (n : Z) : result Qc :=
  b ← py_float_of n; py_float_div a b.

(** The sample counts in the range of a machine word, Python 2's [int]:
    the doubles the layout computes from them stay finite. *)
Definition word_sized (n : Z) : Prop := (- 2 ^ 63 ≤ n < 2 ^ 63)%Z.

(** ** The store *)

(** Addresses in the store. *)
Abbreviation addr := nat (only parsing).

(** What the Tk canvas holds: every item is bound to the node it was drawn
    for (by [bind_events]). *)
Inductive item : Type :=
  | Rectangle (bbox : Qc * Qc * Qc * Qc) (fill : string) (node : addr)
  | Text (pos : Qc * Qc) (text : string) (node : addr).

Module Toplevel.
Record t : Type := mk {
  title : string;
  canvas_width : Z;
  canvas_height : Z;
  canvas : list item
}.
End Toplevel.

Module CallTreeNodeData.
(** The fields of a [CallTreeNode] object; [children] holds references. *)
Record t : Type := mk {
  signature : string;
  samples : Z;
  children : list addr
}.
End CallTreeNodeData.

Module CallForestData.
(** The fields of a [CallForest] object; [roots] holds references. *)
Record t : Type := mk {
  name : string;
  roots : list addr
}.
End CallForestData.

Record world : Type := World {
  nodes : list CallTreeNodeData.t;
  forests : list CallForestData.t;
  windows : list Toplevel.t
}.

Definition empty_world : world := World [] [] [].

(** Stateful computations: an exception leaves the store as it was when it
    was raised. *)
Definition M (A : Type) : Type := world → result A * world.

Definition M_bind {A B} (f : A → M B) (m : M A) : M B := λ w,
  match m w with
  | (Ok a, w') => f a w'
  | (Raise e, w') => (Raise e, w')
  | (Stuck, w') => (Stuck, w')
  end.

#[global] Instance M_ret : MRet M := λ A a w, (Ok a, w).
#[global] Instance M_mbind : MBind M := λ A B f m, M_bind f m.

(** A computation that only reads the store. *)
Definition reading {A} (f : world → result A) : M A := λ w, (f w, w).

Fixpoint result_mapM {A B} (f : A → result B) (l : list A) : result (list B) :=
  match l with
  | [] => Ok []
  | x :: l => y ← f x; ys ← result_mapM f l; Ok (y :: ys)
  end.

Definition deref_node (w : world) (a : addr) : result CallTreeNodeData.t :=
  match nodes w !! a with
  | Some n => Ok n
  | None => Stuck
  end.

Definition deref_forest (w : world) (a : addr) : result CallForestData.t :=
  match forests w !! a with
  | Some f => Ok f
  | None => Stuck
  end.

(** ** Model *)

Module CallTreeNode.
Import CallTreeNodeData.

Definition init (signature : string) (samples : Z) : M addr := λ w,
  (Ok (length (nodes w)),
   World (nodes w ++ [mk signature samples []]) (forests w) (windows w)).

Definition add_child (self call_tree_node : addr) : M unit := λ w,
  match nodes w !! self with
  | Some n =>
      let n' := mk (signature n) (samples n) (children n ++ [call_tree_node]) in
      (Ok (), World (<[self := n']> (nodes w)) (forests w) (windows w))
  | None => (Stuck, w)
  end.

Fixpoint depth (fuel : nat) (w : world) (self : addr) : result nat :=
  match fuel with
  | O => Stuck
  | S fuel =>
      n ← deref_node w self;
      ds ← result_mapM (depth fuel w) (children n);
      Ok (1 + py_max_or_0 ds)
  end.
End CallTreeNode.

Module CallForest.
Import CallForestData.

Definition init (name : string) : M addr := λ w,
  (Ok (length (forests w)),
   World (nodes w) (forests w ++ [mk name []]) (windows w)).

Definition add_root (self call_tree_node : addr) : M unit := λ w,
  match forests w !! self with
  | Some f =>
      let f' := mk (name f) (roots f ++ [call_tree_node]) in
      (Ok (), World (nodes w) (<[self := f']> (forests w)) (windows w))
  | None => (Stuck, w)
  end.

Definition samples (w : world) (self : addr) : result Z :=
  f ← deref_forest w self;
  rs ← result_mapM (deref_node w) (roots f);
  Ok (py_sum (CallTreeNodeData.samples <$> rs)).

Definition depth (fuel : nat) (w : world) (self : addr) : result nat :=
  f ← deref_forest w self;
  ds ← result_mapM (CallTreeNode.depth fuel w) (roots f);
  Ok (py_max_or_0 ds).
End CallForest.

(** ** Parser *)

Module JmcCallTreeLine.
Record t : Type := mk { chunks : list string }.

Definition INDENT_SPACES : nat := 3.

Definition init (line : string) : t := mk (py_split "009"%char line).

Definition signature (self : t) : result string :=
  c ← py_index (chunks self) 0; Ok (py_lstrip c).

Definition indentation (self : t) : result nat :=
  c ← py_index (chunks self) 0;
  s ← signature self;
  Ok (String.length c - String.length s).

(** Python 2: [/] on two [int]s is floor division. *)
Definition depth_below_root (self : t) : result nat :=
  i ← indentation self; Ok (i / INDENT_SPACES).

Definition samples (self : t) : result Z :=
  c ← py_index (chunks self) 1; py_int (py_remove ","%char c).

Definition create_call_tree_node (self : t) : M addr :=
  sig ← reading (λ _, signature self);
  n ← reading (λ _, samples self);
  CallTreeNode.init sig n.
End JmcCallTreeLine.

Module CallTreeNodeStack.
Record t : Type := mk { stack : list addr }.

Definition init : t := mk [].

Definition push (self : t) (call_tree_node : addr) : t :=
  mk (stack self ++ [call_tree_node]).

Definition top (self : t) : result addr := py_last (stack self).

(** [self.stack[:depth]]: a slice past the end is the whole list. *)
Definition drop_to (self : t) (depth : nat) : t :=
  mk (take depth (stack self)).
End CallTreeNodeStack.

Module JmcCallForestParser.
Record t : Type := mk {
  filename : string;
  stack : CallTreeNodeStack.t;
  call_forest : addr
}.

Definition init (filename : string) : M t :=
  f ← CallForest.init filename;
  mret (mk filename CallTreeNodeStack.init f).

Definition process_line (self : t) (line : string) : M t :=
  let ctl := JmcCallTreeLine.init line in
  d ← reading (λ _, JmcCallTreeLine.depth_below_root ctl);
  ctn ← JmcCallTreeLine.create_call_tree_node ctl;
  let stack := CallTreeNodeStack.drop_to (stack self) d in
  _ ← (if decide (d = 0) then CallForest.add_root (call_forest self) ctn
       else top ← reading (λ _, CallTreeNodeStack.top stack);
            CallTreeNode.add_child top ctn);
  mret (mk (filename self) (CallTreeNodeStack.push stack ctn) (call_forest self)).

(** The loop of [parse] over the lines of the file. *)
Fixpoint process_lines (self : t) (lines : list string) : M t :=
  match lines with
  | [] => mret self
  | line :: lines => self ← process_line self line; process_lines self lines
  end.

(** [parse], given the lines the file yields. *)
Definition parse (self : t) (lines : list string) : M addr :=
  self ← process_lines self lines; mret (call_forest self).
End JmcCallForestParser.

(** The report of the specification's example scenario. *)
Definition example_lines : list string :=
  [ "oracle.db.Connect" +:+ String "009" "1,000" +:+ String "010" "";
    "   oracle.db.Connect.open" +:+ String "009" "400" +:+ String "010" "";
    "   oracle.db.Connect.close" +:+ String "009" "600" +:+ String "010" "" ].

Definition example_parse : result addr * world :=
  (p ← JmcCallForestParser.init "report.txt";
   JmcCallForestParser.parse p example_lines) empty_world.

(** ** Renderer *)

(** [sorted(l, key=key)] on string keys: Python's sort is stable and
    compares [str]s byte by byte, so the result is the one of a stable
    insertion sort under [String.leb]. *)
Fixpoint py_insert {A} (key : A → string) (x : A) (l : list A) : list A :=
  match l with
  | [] => [x]
  | y :: l' =>
      if String.leb (key x) (key y) then x :: l else y :: py_insert key x l'
  end.

Definition py_sorted {A} (key : A → string) (l : list A) : list A :=
  foldr (py_insert key) [] l.

(** [s.rfind(c)]: the index of the last [c] in [s], or -1. *)
Fixpoint py_rfind_from (c : ascii) (s : string) (i : Z) (found : Z) : Z :=
  match s with
  | EmptyString => found
  | String a s' => py_rfind_from c s' (i + 1)%Z (if Ascii.eqb a c then i else found)
  end.

Definition py_rfind (c : ascii) (s : string) : Z := py_rfind_from c s 0%Z (-1)%Z.

(** A slice bound [k] of a string of length [n], as Python clips it. *)
Definition py_clip (n : nat) (k : Z) : nat :=
  if decide (k < 0)%Z then Z.to_nat (Z.of_nat n + k) else Nat.min (Z.to_nat k) n.

(** [s[k:]] and [s[:k]]. *)
Definition py_slice_from (s : string) (k : Z) : string :=
  let n := String.length s in
  String.substring (py_clip n k) (n - py_clip n k) s.

Definition py_slice_to (s : string) (k : Z) : string :=
  String.substring 0 (py_clip (String.length s) k) s.

Module Colours.
Record t : Type := mk { prefix_to_colour : list (string * string) }.

Definition init : t :=
  mk [ ("oracle", "yellow");
       ("org.springframework", "spring green");
       ("java.io", "orange");
       ("com.google", "gray");
       ("org.jboss", "red") ].

Fixpoint first_match (rules : list (string * string)) (signature : string) : string :=
  match rules with
  | [] => "white"
  | (prefix, colour) :: rules =>
      if String.prefix prefix signature then colour else first_match rules signature
  end.

Definition colour_for (self : t) (node : CallTreeNodeData.t) : string :=
  first_match (prefix_to_colour self) (CallTreeNodeData.signature node).
End Colours.

(** Canvas commands: a computation that creates canvas items, in order.
    An exception keeps the items created before it. *)
Definition Canvas (A : Type) : Type := (result A * list item)%type.

Definition Canvas_bind {A B} (f : A → Canvas B) (m : Canvas A) : Canvas B :=
  match m with
  | (Ok a, out) => let '(r, out') := f a in (r, out ++ out')
  | (Raise e, out) => (Raise e, out)
  | (Stuck, out) => (Stuck, out)
  end.

#[global] Instance Canvas_ret : MRet Canvas := λ A a, (Ok a, []).
#[global] Instance Canvas_mbind : MBind Canvas := λ A B f m, Canvas_bind f m.

Definition create (i : item) : Canvas unit := (Ok (), [i]).
Definition computing {A} (r : result A) : Canvas A := (r, []).

(** The loop shared by [render] and [render_call_tree]:
    [for n in l: body(n, x); x += width(n)]. *)
Fixpoint for_each_placed {A} (body : A → Qc → Canvas unit) (width : A → Qc)
    (l : list A) (x : Qc) : Canvas unit :=
  match l with
  | [] => mret ()
  | n :: l => _ ← body n x; for_each_placed body width l (x + width n)%Qc
  end.

(** The nodes a list of references points to, each with its reference. *)
Definition deref_nodes (w : world) (l : list addr) : result (list (addr * CallTreeNodeData.t)) :=
  result_mapM (λ a, n ← deref_node w a; Ok (a, n)) l.

Definition signature_of (n : addr * CallTreeNodeData.t) : string :=
  CallTreeNodeData.signature (snd n).

Module TkFlameGraphRenderer.
Import CallTreeNodeData.

(** The Tk root [tk] is the [windows] component of the store; [top] is the
    index of this renderer's window, whose canvas it draws on.  Where the
    source passes a node object, the methods below take its address [ref]
    and, once it is dereferenced, its fields [node]. *)
Record t : Type := mk {
  call_forest : addr;
  width : Z;
  height : Z;
  colours : Colours.t;
  character_width : Qc;
  min_width_for_text : Qc;
  min_height_for_text : Z;
  x_scale : Qc;
  y_scale : Qc;
  top : nat
}.

(** [Toplevel(tk)], [title], [Canvas(top, width, height)], [pack]. *)
Definition new_window (title : string) (width height : Z) : M nat := λ w,
  (Ok (length (windows w)),
   World (nodes w) (forests w) (windows w ++ [Toplevel.mk title width height []])).

(** [measure] is what the toolkit's [Font.measure('mmmmmmmmmm')] returns.
    The depth of a forest is bounded by the recursion that computes it, far
    within the range of a double: its conversion is not checked. *)
Definition init (fuel : nat) (call_forest : addr) (measure : Z)
    (width height : Z) (colours : Colours.t) : M t :=
  let character_width := (Q2Qc (1 # 10) * py_float measure)%Qc in
  let min_width_for_text := (Qc_of_Z 3 * character_width)%Qc in
  let min_height_for_text := 10%Z in
  float_width ← reading (λ _, py_float_of width);
  samples ← reading (λ w, CallForest.samples w call_forest);
  x_scale ← reading (λ _, py_float_div_int float_width samples);
  float_height ← reading (λ _, py_float_of height);
  depth ← reading (λ w, CallForest.depth fuel w call_forest);
  y_scale ← reading (λ _, py_float_div float_height (py_float (Z.of_nat depth)));
  f ← reading (λ w, deref_forest w call_forest);
  top ← new_window (CallForestData.name f) width height;
  mret (mk call_forest width height colours character_width
          min_width_for_text min_height_for_text x_scale y_scale top).

Definition bounding_box (self : t) (node : CallTreeNodeData.t) (x y : Qc)
    : Qc * Qc * Qc * Qc :=
  let left := x in
  let right := (left + x_scale self * py_float (samples node))%Qc in
  let top := y in
  let bottom := (y + y_scale self)%Qc in
  (left, top, right, bottom).

Definition text (self : t) (ref : addr) (node : CallTreeNodeData.t) (x y : Qc) : Canvas unit :=
  let height := y_scale self in
  let width := (x_scale self * py_float (samples node))%Qc in
  if bool_decide (py_float (min_height_for_text self) < height)%Qc
     && bool_decide (min_width_for_text self < width)%Qc
  then
    let sig := signature node in
    let i := py_rfind "."%char sig in
    let method := py_slice_from sig i in
    q ← computing (py_float_div width (character_width self));
    let char_width := py_int_of_float q in
    let chars :=
      if bool_decide (char_width ≤ Z.of_nat (String.length method))%Z
      then py_slice_to method char_width
      else py_slice_from sig (- char_width)%Z in
    create (Text ((x + width / Qc_of_Z 2)%Qc, (y + height / Qc_of_Z 2)%Qc) chars ref)
  else mret ().

Definition render_call_tree_node (self : t) (ref : addr) (node : CallTreeNodeData.t)
    (x y : Qc) : Canvas unit :=
  let bbox := bounding_box self node x y in
  let colour := Colours.colour_for (colours self) node in
  _ ← create (Rectangle bbox colour ref);
  text self ref node x y.

(** The width by which the loops advance past a node. *)
Definition advance (self : t) (n : addr * CallTreeNodeData.t) : Qc :=
  (x_scale self * py_float (samples (snd n)))%Qc.

Fixpoint render_call_tree (fuel : nat) (self : t) (w : world) (root : addr)
    (x y : Qc) : Canvas unit :=
  match fuel with
  | O => (Stuck, [])
  | S fuel =>
      node ← computing (deref_node w root);
      _ ← render_call_tree_node self root node x y;
      let child_x := x in
      let child_y := (y - y_scale self)%Qc in
      cs ← computing (deref_nodes w (children node));
      let sorted_children := py_sorted signature_of cs in
      for_each_placed
        (λ child child_x, render_call_tree fuel self w (fst child) child_x child_y)
        (advance self) sorted_children child_x
  end.

(** What [render] draws, before the text is raised. *)
Definition render_items (fuel : nat) (self : t) (w : world) : Canvas unit :=
  let x := Qc_of_Z 2 in
  let y := (py_float (height self) - y_scale self)%Qc in
  f ← computing (deref_forest w (call_forest self));
  rs ← computing (deref_nodes w (CallForestData.roots f));
  let sorted_roots := py_sorted signature_of rs in
  for_each_placed
    (λ root x, render_call_tree fuel self w (fst root) x y)
    (advance self) sorted_roots x.

Definition is_text (i : item) : bool :=
  match i with Text _ _ _ => true | Rectangle _ _ _ => false end.

(** [canvas.tag_raise('signature')]: the text items, which all carry that
    tag, move above the others; the order within each group is kept. *)
Definition tag_raise_signature (items : list item) : list item :=
  filter (λ i, is_text i = false) items ++ filter (λ i, is_text i = true) items.

(** A change [f] to the canvas of window [top]. *)
Definition draw (top : nat) (f : list item → list item) (w : world) : world :=
  match windows w !! top with
  | Some t =>
      let t' := Toplevel.mk (Toplevel.title t) (Toplevel.canvas_width t)
                  (Toplevel.canvas_height t) (f (Toplevel.canvas t)) in
      World (nodes w) (forests w) (<[top := t']> (windows w))
  | None => w
  end.

Definition render (fuel : nat) (self : t) : M unit := λ w,
  let '(r, items) := render_items fuel self w in
  let w := draw (top self) (λ c, c ++ items) w in
  match r with
  | Ok _ => (Ok (), draw (top self) tag_raise_signature w)
  | Raise e => (Raise e, w)
  | Stuck => (Stuck, w)
  end.

Definition zoom_in (fuel : nat) (self : t) (measure : Z) (new_root : addr) : M unit :=
  sig ← reading (λ w, n ← deref_node w new_root; Ok (signature n));
  new_call_forest ← CallForest.init sig;
  _ ← CallForest.add_root new_call_forest new_root;
  new_renderer ← init fuel new_call_forest measure (width self) (height self) (colours self);
  render fuel new_renderer.
End TkFlameGraphRenderer.

(** [main], given the lines of the file named on the command line. *)
Definition main (fuel : nat) (filename : string) (lines : list string) (measure : Z) : M unit :=
  if decide (filename = "") then mret ()
  else
    parser ← JmcCallForestParser.init filename;
    call_forest ← JmcCallForestParser.parse parser lines;
    let colours := Colours.init in
    let '(width, height) := (1200%Z, 800%Z) in
    renderer ← TkFlameGraphRenderer.init fuel call_forest measure width height colours;
    TkFlameGraphRenderer.render fuel renderer.

(** * Vocabulary of the properties *)

(** ** Strings *)

Definition tab : ascii := "009"%char.

Fixpoint all_chars (P : ascii → bool) (s : string) : bool :=
  match s with
  | EmptyString => true
  | String c s' => P c && all_chars P s'
  end.

Definition tab_free (s : string) : bool :=
  all_chars (λ c, negb (Ascii.eqb c tab)) s.

Definition is_digit (c : ascii) : bool :=
  match Ascii.is_nat c with Some _ => true | None => false end.

(** The first character of [s], if any, satisfies [P]. *)
Definition starts_with (P : ascii → bool) (s : string) : bool :=
  match s with
  | EmptyString => false
  | String c _ => P c
  end.

(** The strings [int] accepts, as the Python documentation describes them:
    whitespace, an optional sign, at least one decimal digit, whitespace. *)
Definition int_literal (s : string) : Prop :=
  ∃ l sign ds r,
    s = l +:+ sign +:+ ds +:+ r ∧
    all_chars Ascii.is_space l = true ∧
    all_chars Ascii.is_space r = true ∧
    (sign = "" ∨ sign = "+" ∨ sign = "-") ∧
    ds ≠ "" ∧
    all_chars is_digit ds = true.

(** ** The line decoder as the specification words it *)

(** The specification speaks of leading _space_ characters. *)
Fixpoint spec_leading_spaces (s : string) : nat :=
  match s with
  | String " "%char s' => S (spec_leading_spaces s')
  | _ => 0
  end.

Fixpoint spec_strip_spaces (s : string) : string :=
  match s with
  | String " "%char s' => spec_strip_spaces s'
  | _ => s
  end.

Definition decoder_as_specified (line : string) : Prop :=
  let ctl := JmcCallTreeLine.init line in
  ∀ field0, py_index (JmcCallTreeLine.chunks ctl) 0 = Ok field0 →
    JmcCallTreeLine.signature ctl = Ok (spec_strip_spaces field0) ∧
    JmcCallTreeLine.depth_below_root ctl = Ok (spec_leading_spaces field0 / 3) ∧
    JmcCallTreeLine.samples ctl =
      (field1 ← py_index (JmcCallTreeLine.chunks ctl) 1;
       py_int (py_remove ","%char field1)).

(** The specification's named parse errors. *)
Definition decoder_errors_as_specified (line : string) : Prop :=
  let ctl := JmcCallTreeLine.init line in
  ∀ w e, fst (JmcCallTreeLine.create_call_tree_node ctl w) = Raise e →
    (length (JmcCallTreeLine.chunks ctl) < 2 → exn_name e = "MalformedLine") ∧
    (2 ≤ length (JmcCallTreeLine.chunks ctl) → exn_name e = "MalformedSampleCount").

(** ** Forest builder *)

(** What the line decoder yields for a line. *)
Record decoded : Type := Decoded {
  line_depth : nat;
  line_signature : string;
  line_samples : Z
}.

Definition decodes (line : string) (t : decoded) : Prop :=
  let ctl := JmcCallTreeLine.init line in
  JmcCallTreeLine.depth_below_root ctl = Ok (line_depth t) ∧
  JmcCallTreeLine.signature ctl = Ok (line_signature t) ∧
  JmcCallTreeLine.samples ctl = Ok (line_samples t).

(** Every depth is at most [limit], the depth of the line before plus one. *)
Fixpoint depths_within (limit : nat) (ds : list nat) : Prop :=
  match ds with
  | [] => True
  | d :: ds => d ≤ limit ∧ depths_within (S d) ds
  end.

(** Well-formed input: the first line is at depth 0 and no line is deeper
    than the line before it plus one. *)
Definition well_formed_depths (ds : list nat) : Prop := depths_within 0 ds.

(** The node that holds [a] among its children, found by scanning the store. *)
Definition parent_of (w : world) (a : addr) : option addr :=
  fst <$> list_find (λ n, a ∈ CallTreeNodeData.children n) (nodes w).

(** The ancestors of [a], nearest first. *)
Fixpoint ancestor_chain (fuel : nat) (w : world) (a : addr) : list addr :=
  match fuel with
  | O => []
  | S fuel =>
      match parent_of w a with
      | Some p => p :: ancestor_chain fuel w p
      | None => []
      end
  end.

(** The numbers, counted from [i], of the lines at depth 0. *)
Fixpoint depth0_lines (i : nat) (ts : list decoded) : list nat :=
  match ts with
  | [] => []
  | t :: ts =>
      (if decide (line_depth t = 0) then [i] else []) ++ depth0_lines (S i) ts
  end.

Definition depth_at (ts : list decoded) (i : nat) : nat :=
  from_option line_depth 0 (ts !! i).

(** The invariant of the forest builder after the lines [ts]. *)
Record parser_inv (ts : list decoded) (w : world) (self : JmcCallForestParser.t) : Prop := {
  inv_length : length (nodes w) = length ts;
  inv_node : ∀ i t, ts !! i = Some t →
    ∃ cs, nodes w !! i
          = Some (CallTreeNodeData.mk (line_signature t) (line_samples t) cs);
  inv_child : ∀ p pn c,
    nodes w !! p = Some pn → c ∈ CallTreeNodeData.children pn →
    p < c < length ts ∧ depth_at ts c = S (depth_at ts p);
  inv_parent : ∀ i, i < length ts → 0 < depth_at ts i →
    ∃ p pn, nodes w !! p = Some pn ∧ i ∈ CallTreeNodeData.children pn;
  inv_roots : ∃ f, forests w !! JmcCallForestParser.call_forest self = Some f ∧
    CallForestData.roots f = depth0_lines 0 ts;
  inv_stack : ∀ j a,
    CallTreeNodeStack.stack (JmcCallForestParser.stack self) !! j = Some a →
    a < length ts ∧ depth_at ts a = j
}.

Definition example_decoded : list decoded :=
  [ Decoded 0 "oracle.db.Connect" 1000;
    Decoded 1 "oracle.db.Connect.open" 400;
    Decoded 1 "oracle.db.Connect.close" 600 ].


(** ** Shape of the store *)

(** Children are allocated after their parent, and every reference points
    into the store: what the forest builder establishes and nothing later
    disturbs. *)
Definition heap_wf (w : world) : Prop :=
  ∀ a n c, nodes w !! a = Some n → c ∈ CallTreeNodeData.children n →
    a < c < length (nodes w).

Definition forest_wf (w : world) (f : CallForestData.t) : Prop :=
  ∀ r, r ∈ CallForestData.roots f → r < length (nodes w).

(** ** [CallForest.depth] as the specification words it *)

Definition forest_depth_as_specified (fuel : nat) (w : world) (cf : addr) : Prop :=
  ∀ f ds,
    deref_forest w cf = Ok f →
    result_mapM (CallTreeNode.depth fuel w) (CallForestData.roots f) = Ok ds →
    CallForest.depth fuel w cf
    = Ok (match ds with [] => 0 | _ => 1 + py_max_or_0 ds end).

(** The store after parsing the example report. *)
Definition example_world : world :=
  World [ CallTreeNodeData.mk "oracle.db.Connect" 1000 [1; 2];
          CallTreeNodeData.mk "oracle.db.Connect.open" 400 [];
          CallTreeNodeData.mk "oracle.db.Connect.close" 600 [] ]
        [ CallForestData.mk "report.txt" [0] ] [].

(** ** Layout *)

(** The rectangle [render_call_tree_node] creates for the node [r] at
    [(x, y)]. *)
Definition node_rectangle (self : TkFlameGraphRenderer.t)
    (r : addr * CallTreeNodeData.t) (x y : Qc) : item :=
  Rectangle (TkFlameGraphRenderer.bounding_box self (snd r) x y)
    (Colours.colour_for (TkFlameGraphRenderer.colours self) (snd r)) (fst r).

(** The sample counts of a row of nodes, summed. *)
Definition samples_of (l : list (addr * CallTreeNodeData.t)) : Z :=
  py_sum ((λ r, CallTreeNodeData.samples (snd r)) <$> l).

(** Where the [i]-th node of a row that starts at [x] is placed: past the
    widths of the nodes before it. *)
Definition placed_at (self : TkFlameGraphRenderer.t)
    (l : list (addr * CallTreeNodeData.t)) (x : Qc) (i : nat) : Qc :=
  (x + TkFlameGraphRenderer.x_scale self * py_float (samples_of (take i l)))%Qc.

(** What each iteration of [for_each_placed] creates. *)
Fixpoint placed_parts {A} (body : A → Qc → Canvas unit) (width : A → Qc)
    (l : list A) (x : Qc) : list (list item) :=
  match l with
  | [] => []
  | n :: l => snd (body n x) :: placed_parts body width l (x + width n)%Qc
  end.

Definition bbox_left (b : Qc * Qc * Qc * Qc) : Qc := b.1.1.1.
Definition bbox_top (b : Qc * Qc * Qc * Qc) : Qc := b.1.1.2.
Definition bbox_right (b : Qc * Qc * Qc * Qc) : Qc := b.1.2.
Definition bbox_bottom (b : Qc * Qc * Qc * Qc) : Qc := b.2.
Definition bbox_width (b : Qc * Qc * Qc * Qc) : Qc := (bbox_right b - bbox_left b)%Qc.

Definition sum_Qc (l : list Qc) : Qc := foldr Qcplus 0%Qc l.

(** Ascending order of signature. *)
Definition signature_le (a b : addr * CallTreeNodeData.t) : Prop :=
  String.le (signature_of a) (signature_of b).

(** The rectangles of a row of nodes that starts at [x], on the line [y]. *)
Definition row_boxes (self : TkFlameGraphRenderer.t)
    (l : list (addr * CallTreeNodeData.t)) (x y : Qc) : list (Qc * Qc * Qc * Qc) :=
  imap (λ i r, TkFlameGraphRenderer.bounding_box self (snd r) (placed_at self l x i) y) l.

(** A renderer for the example report on a 1200 by 800 canvas, with 10
    pixel wide characters. *)
Definition example_renderer : TkFlameGraphRenderer.t :=
  TkFlameGraphRenderer.mk 0 1200 800 Colours.init
    (Qc_of_Z 10) (Qc_of_Z 30) 10 (Q2Qc (6 # 5)) (Qc_of_Z 400) 0.

(** ** The layout as the specification words it *)

(** A forest without samples is refused with an error named [EmptyForest]. *)
Definition init_as_specified (fuel : nat) (cf : addr) (measure width height : Z)
    (colours : Colours.t) (w : world) : Prop :=
  CallForest.samples w cf = Ok 0%Z →
  ∃ e w',
    TkFlameGraphRenderer.init fuel cf measure width height colours w = (Raise e, w') ∧
    exn_name e = "EmptyForest".

(** The first root's rectangle begins at x = 0. *)
Definition roots_layout_as_specified (fuel : nat) (self : TkFlameGraphRenderer.t)
    (w : world) : Prop :=
  ∀ f rs r,
    forests w !! TkFlameGraphRenderer.call_forest self = Some f →
    deref_nodes w (CallForestData.roots f) = Ok rs →
    py_sorted signature_of rs !! 0 = Some r →
    head (snd (TkFlameGraphRenderer.render_items fuel self w))
    = Some (node_rectangle self r 0%Qc
              (py_float (TkFlameGraphRenderer.height self)
               - TkFlameGraphRenderer.y_scale self)%Qc).

(** The children of a node whose samples sum to at most its own are drawn
    between the left and right edges of the node's rectangle. *)
Definition children_contained_as_specified (fuel : nat) (self : TkFlameGraphRenderer.t)
    (w : world) (a : addr) (x y : Qc) : Prop :=
  ∀ n cs,
    nodes w !! a = Some n →
    deref_nodes w (CallTreeNodeData.children n) = Ok cs →
    (samples_of cs ≤ CallTreeNodeData.samples n)%Z →
    let parent_box := TkFlameGraphRenderer.bounding_box self n x y in
    let parts :=
      placed_parts
        (λ child child_x,
           TkFlameGraphRenderer.render_call_tree fuel self w (fst child) child_x
             (y - TkFlameGraphRenderer.y_scale self)%Qc)
        (TkFlameGraphRenderer.advance self) (py_sorted signature_of cs) x in
    ∀ part b fill node,
      part ∈ parts → head part = Some (Rectangle b fill node) →
      (bbox_left parent_box ≤ bbox_left b)%Qc ∧
      (bbox_right b ≤ bbox_right parent_box)%Qc.

(** The scales of a renderer within the range [init] computes them in
    from a word-sized width and font measure: at most a word to the
    sample, and characters at least a tenth of a pixel wide. *)
Definition scales_word_sized (self : TkFlameGraphRenderer.t) : Prop :=
  (- Qc_of_Z (2 ^ 63) ≤ TkFlameGraphRenderer.x_scale self)%Qc ∧
  (TkFlameGraphRenderer.x_scale self ≤ Qc_of_Z (2 ^ 63))%Qc ∧
  ((TkFlameGraphRenderer.character_width self ≤ - Q2Qc (1 # 10))%Qc ∨
   (Q2Qc (1 # 10) ≤ TkFlameGraphRenderer.character_width self)%Qc).

(** A node of 10 samples whose children have 15 and -5: [int] reads a
    count with a sign. *)
Definition negative_count_world : world :=
  World [ CallTreeNodeData.mk "p" 10 [1; 2];
          CallTreeNodeData.mk "p.a" 15 [];
          CallTreeNodeData.mk "p.b" (-5) [] ]
        [ CallForestData.mk "report.txt" [0] ] [].

(** The renderer [init] gives for it on a 10 by 10 canvas, with one pixel
    wide characters: one pixel to the sample, five to the level. *)
Definition unit_renderer : TkFlameGraphRenderer.t :=
  TkFlameGraphRenderer.mk 0 10 10 Colours.init
    (Qc_of_Z 1) (Qc_of_Z 3) 10 (Qc_of_Z 1) (Qc_of_Z 5) 0.

(** Every forest with samples is laid out, with [x_scale * S = W]. *)
Definition scale_as_specified (fuel : nat) (cf : addr) (measure width height : Z)
    (colours : Colours.t) (w : world) : Prop :=
  ∀ S,
    CallForest.samples w cf = Ok S → (0 < S)%Z →
    ∃ self w',
      TkFlameGraphRenderer.init fuel cf measure width height colours w = (Ok self, w') ∧
      (TkFlameGraphRenderer.x_scale self * py_float S)%Qc = py_float width.

(** A forest whose one root has more samples than a double can hold. *)
Definition huge_count_world : world :=
  World [ CallTreeNodeData.mk "huge" (2 ^ 1024) [] ]
        [ CallForestData.mk "report.txt" [0] ] [].

(** Every count in the store is in the range of a machine word. *)
Definition counts_word_sized (w : world) : Prop :=
  ∀ a n, nodes w !! a = Some n → word_sized (CallTreeNodeData.samples n).

(** The store a report leaves whose one root, of 5 samples, has a child
    without samples; no forest in it is without samples. *)
Definition idle_child_world : world :=
  World [ CallTreeNodeData.mk "busy" 5 [1];
          CallTreeNodeData.mk "busy.idle" 0 [] ]
        [ CallForestData.mk "report.txt" [0] ] [].

(** A store whose one forest has no roots. *)
Definition empty_forest_world : world :=
  World [] [CallForestData.mk "empty" []] [].

(** ** The whole program *)

(** The samples of the depth-0 lines, summed. *)
Definition root_samples (ts : list decoded) : Z :=
  py_sum (line_samples <$> filter (λ t, line_depth t = 0) ts).

(** The node and the corners of a rectangle, as plain fractions. *)
Definition rectangle_corners (i : item) : option (nat * (Q * Q * Q * Q)) :=
  match i with
  | Rectangle (x0, y0, x1, y1) _ node =>
      Some (node, (this x0, this y0, this x1, this y1))
  | Text _ _ _ => None
  end.

(** The rectangles on the canvas of a window. *)
Definition window_rectangles (w : world) (top : nat) : list (nat * (Q * Q * Q * Q)) :=
  match windows w !! top with
  | Some t => omap rectangle_corners (Toplevel.canvas t)
  | None => []
  end.

(** * Vocabulary of the further properties *)

From Stdlib Require Import DecimalString DecimalNat.

(** ** Report lines *)

(** The decimal numeral of [n], as the report prints a sample count before
    it groups the digits with commas. *)
Definition decimal (n : nat) : string :=
  NilZero.string_of_uint (Nat.to_uint n).

(** [k] space characters. *)
Fixpoint spaces (k : nat) : string :=
  match k with
  | O => EmptyString
  | S k => String " " (spaces k)
  end.

(** [rest] begins with [p]: what [str.startswith] tests. *)
Definition begins_with (p s : string) : Prop := ∃ rest, s = p +:+ rest.

(** ** What parsing leaves alone *)

(** A node keeps its signature and its samples; its children only grow at
    the end. *)
Definition node_kept (n n' : CallTreeNodeData.t) : Prop :=
  CallTreeNodeData.signature n' = CallTreeNodeData.signature n ∧
  CallTreeNodeData.samples n' = CallTreeNodeData.samples n ∧
  CallTreeNodeData.children n `prefix_of` CallTreeNodeData.children n'.

(** From [w] to [w'] the windows and every forest but [cf] are unchanged,
    [cf] keeps its name and its roots only grow at the end, and every node
    of [w] is kept. *)
Definition store_grows (cf : addr) (w w' : world) : Prop :=
  windows w' = windows w ∧
  (∀ i, i ≠ cf → forests w' !! i = forests w !! i) ∧
  (∀ f, forests w !! cf = Some f →
     ∃ f', forests w' !! cf = Some f' ∧
           CallForestData.name f' = CallForestData.name f ∧
           CallForestData.roots f `prefix_of` CallForestData.roots f') ∧
  (∀ a n, nodes w !! a = Some n →
     ∃ n', nodes w' !! a = Some n' ∧ node_kept n n').

(** ** Where the forest builder places the lines *)

(** The depth at which a line is placed: its decoded depth, but at most
    [limit], the number of nodes on the stack, which is one more than the
    depth at which the line before it was placed. *)
Fixpoint placed (limit : nat) (ts : list decoded) : list decoded :=
  match ts with
  | [] => []
  | t :: ts =>
      let e := Nat.min (line_depth t) limit in
      Decoded e (line_signature t) (line_samples t) :: placed (S e) ts
  end.

(** The first line, if any, is not indented. *)
Definition starts_unindented (ts : list decoded) : Prop :=
  match ts with
  | [] => True
  | t :: _ => line_depth t = 0
  end.

(** What the forest builder keeps beyond [parser_inv]: children are in
    input order, and between a parent and its child, as between a stacked
    node and the end of the input, every line is deeper than the parent. *)
Record shape_inv (ts : list decoded) (w : world) (self : JmcCallForestParser.t) : Prop := {
  sh_sorted : ∀ p pn, nodes w !! p = Some pn →
    StronglySorted lt (CallTreeNodeData.children pn);
  sh_between : ∀ p pn c,
    nodes w !! p = Some pn → c ∈ CallTreeNodeData.children pn →
    ∀ i, p < i → i < c → depth_at ts p < depth_at ts i;
  sh_stack : ∀ j a,
    CallTreeNodeStack.stack (JmcCallForestParser.stack self) !! j = Some a →
    ∀ i, a < i → i < length ts → j < depth_at ts i;
  sh_name : ∃ f, forests w !! JmcCallForestParser.call_forest self = Some f ∧
    CallForestData.name f = JmcCallForestParser.filename self
}.

(** Constructing a renderer for a forest and rendering it, as [main] and
    [zoom_in] do. *)
Definition lay_out (fuel : nat) (cf : addr) (measure width height : Z)
    (colours : Colours.t) : M unit :=
  renderer ← TkFlameGraphRenderer.init fuel cf measure width height colours;
  TkFlameGraphRenderer.render fuel renderer.

(** The run of lines deeper than [d] at the head of [ts]. *)
Fixpoint deeper_run (d : nat) (ts : list decoded) : nat :=
  match ts with
  | [] => 0
  | t :: ts => if decide (d < line_depth t) then S (deeper_run d ts) else 0
  end.

(** The lines under line [a] in the report, counted with the line itself:
    the line and the run of deeper lines that follows it. *)
Definition subtree_size (ts : list decoded) (a : nat) : nat :=
  S (deeper_run (depth_at ts a) (drop (S a) ts)).

(** The nodes that the rectangles among canvas items were drawn for. *)
Definition item_node (i : item) : option addr :=
  match i with
  | Rectangle _ _ node => Some node
  | Text _ _ _ => None
  end.

Definition drawn_nodes (items : list item) : list addr := omap item_node items.

(** The label [text] cuts from a signature for a room of [k] characters:
    the method name (the signature from its last dot on) cut to [k]
    characters when it has that many, and otherwise the last [k]
    characters of the signature. *)
Definition label (sig : string) (k : Z) : string :=
  let method := py_slice_from sig (py_rfind "."%char sig) in
  if bool_decide (k ≤ Z.of_nat (String.length method))%Z
  then py_slice_to method k
  else py_slice_from sig (- k)%Z.
(** * Properties *)

(** ** Strings *)

Lemma app_cons c s t : String c s +:+ t = String c (s +:+ t).
Proof. reflexivity. Qed.

Lemma app_empty_l t : "" +:+ t = t.
Proof. reflexivity. Qed.

Lemma app_empty_r s : s +:+ "" = s.
Proof. induction s as [|c s IH]; [done|]. by rewrite app_cons, IH. Qed.

Lemma app_assoc_s s t u : (s +:+ t) +:+ u = s +:+ (t +:+ u).
Proof. induction s as [|c s IH]; [done|]. by rewrite !app_cons, IH. Qed.

Lemma length_app_s s t : String.length (s +:+ t) = String.length s + String.length t.
Proof. induction s as [|c s IH]; [done|]. rewrite app_cons. simpl. by rewrite IH. Qed.

Lemma py_split_not_nil sep s : py_split sep s ≠ [].
Proof.
  destruct s as [|c s]; simpl; [done|].
  destruct (Ascii.eqb c sep); [done|]. by destruct (py_split sep s).
Qed.

Lemma py_split_field sep a b :
  all_chars (λ c, negb (Ascii.eqb c sep)) a = true →
  py_split sep (a +:+ String sep b) = a :: py_split sep b.
Proof.
  induction a as [|c a IH]; intros Ha.
  - rewrite app_empty_l. simpl. by rewrite Ascii.eqb_refl.
  - simpl in Ha. apply andb_true_iff in Ha as [Hc Ha].
    rewrite app_cons. simpl. apply negb_true_iff in Hc. rewrite Hc.
    by rewrite (IH Ha).
Qed.

Lemma py_split_last sep a :
  all_chars (λ c, negb (Ascii.eqb c sep)) a = true →
  py_split sep a = [a].
Proof.
  induction a as [|c a IH]; intros Ha; [done|].
  simpl in Ha. apply andb_true_iff in Ha as [Hc Ha].
  simpl. apply negb_true_iff in Hc. rewrite Hc. by rewrite (IH Ha).
Qed.

(** A line has a single field exactly when it holds no separator. *)
Lemma py_split_one_field sep s :
  length (py_split sep s) < 2 ↔ all_chars (λ c, negb (Ascii.eqb c sep)) s = true.
Proof.
  induction s as [|c s IH]; simpl; [split; [done|lia]|].
  destruct (Ascii.eqb c sep) eqn:Hc; simpl.
  - pose proof (py_split_not_nil sep s). destruct (py_split sep s); [done|].
    simpl. split; [lia|done].
  - rewrite <- IH. pose proof (py_split_not_nil sep s).
    by destruct (py_split sep s).
Qed.

Lemma py_lstrip_indent ws sig :
  all_chars Ascii.is_space ws = true →
  starts_with Ascii.is_space sig = false →
  py_lstrip (ws +:+ sig) = sig.
Proof.
  induction ws as [|c ws IH]; intros Hws Hsig.
  - rewrite app_empty_l. destruct sig as [|c sig]; [done|].
    simpl in *. by rewrite Hsig.
  - simpl in Hws. apply andb_true_iff in Hws as [Hc Hws].
    rewrite app_cons. simpl. rewrite Hc. by apply IH.
Qed.

Lemma tab_free_app s t : tab_free (s +:+ t) = tab_free s && tab_free t.
Proof.
  unfold tab_free. induction s as [|c s IH]; [done|].
  rewrite app_cons. simpl. by rewrite IH, andb_assoc.
Qed.

(** ** [int] on strings *)


Lemma py_lstrip_split s :
  ∃ l, s = l +:+ py_lstrip s ∧ all_chars Ascii.is_space l = true.
Proof.
  induction s as [|c s [l [Hs Hl]]]; [by exists ""|].
  simpl. destruct (Ascii.is_space c) eqn:Hc.
  - exists (String c l). rewrite app_cons, <- Hs. simpl. by rewrite Hc, Hl.
  - by exists "".
Qed.

Lemma py_rstrip_split s :
  ∃ r, s = py_rstrip s +:+ r ∧ all_chars Ascii.is_space r = true.
Proof.
  induction s as [|c s [r [Hs Hr]]]; [by exists ""|].
  simpl. destruct (py_rstrip s) as [|c' t] eqn:Ht.
  - rewrite app_empty_l in Hs. subst r.
    destruct (Ascii.is_space c) eqn:Hc.
    + exists (String c s). simpl. by rewrite Hc, Hr.
    + by exists s.
  - exists r. by rewrite app_cons, <- Hs.
Qed.

Lemma py_rstrip_spaces r : all_chars Ascii.is_space r = true → py_rstrip r = "".
Proof.
  induction r as [|c r IH]; [done|]. simpl. intros [Hc Hr]%andb_true_iff.
  by rewrite (IH Hr), Hc.
Qed.

Lemma py_rstrip_app u t : py_rstrip t ≠ "" → py_rstrip (u +:+ t) = u +:+ py_rstrip t.
Proof.
  intros Ht. induction u as [|c u IH]; [done|].
  rewrite !app_cons. simpl. rewrite IH.
  destruct (u +:+ py_rstrip t) as [|c' v] eqn:Huv; [|done].
  destruct u; [|done]. by rewrite app_empty_l in Huv.
Qed.

Lemma digit_not_space c : is_digit c = true → Ascii.is_space c = false.
Proof.
  destruct c as [[] [] [] [] [] [] [] []]; done.
Qed.

Lemma py_rstrip_digits ds :
  ds ≠ "" → all_chars is_digit ds = true → py_rstrip ds = ds.
Proof.
  induction ds as [|c ds IH]; [done|]. intros _ [Hc Hds]%andb_true_iff.
  simpl. destruct ds as [|c' ds'].
  - simpl. by rewrite (digit_not_space c Hc).
  - rewrite IH by done. done.
Qed.

Lemma digits_value_Some ds acc :
  all_chars is_digit ds = true → is_Some (digits_value acc ds).
Proof.
  revert acc. induction ds as [|c ds IH]; intros acc; [by eexists|].
  simpl. unfold is_digit. intros [Hc Hds]%andb_true_iff.
  destruct (Ascii.is_nat c); [by apply IH|done].
Qed.

Lemma digits_value_digits ds acc n :
  digits_value acc ds = Some n → all_chars is_digit ds = true.
Proof.
  revert acc. induction ds as [|c ds IH]; intros acc; [done|].
  simpl. intros H. apply andb_true_iff. unfold is_digit at 1.
  destruct (Ascii.is_nat c); [|done]. eauto.
Qed.

(** [int] raises nothing but [ValueError]. *)
Lemma py_int_cases s : is_Ok (py_int s) ∨ py_int s = Raise ValueError.
Proof.
  unfold py_int, is_Ok.
  destruct (match py_rstrip (py_lstrip s) with
            | String "-"%char t => (true, t)
            | String "+"%char t => (false, t)
            | _ => (false, py_rstrip (py_lstrip s))
            end) as [neg body].
  destruct body; [by right|].
  destruct (digits_value _ _); [left; by eexists|by right].
Qed.

Lemma py_int_signed sign ds :
  (sign = "" ∨ sign = "+" ∨ sign = "-") → ds ≠ "" → all_chars is_digit ds = true →
  ∃ n, digits_value 0 ds = Some n ∧
       (match sign +:+ ds with
        | String "-"%char t => (true, t)
        | String "+"%char t => (false, t)
        | _ => (false, sign +:+ ds)
        end) = (bool_decide (sign = "-"), ds).
Proof.
  intros Hsign Hne Hds. destruct (digits_value_Some ds 0%Z Hds) as [n Hn].
  exists n. split; [done|].
  destruct Hsign as [->|[->| ->]]; [|done..].
  rewrite app_empty_l. destruct ds as [|c ds]; [done|].
  simpl in Hds. apply andb_true_iff in Hds as [Hc _].
  destruct c as [[] [] [] [] [] [] [] []]; done.
Qed.

(** [int] succeeds exactly on the integer literals. *)
Lemma py_int_Ok_iff s : is_Ok (py_int s) ↔ int_literal s.
Proof.
  split.
  - intros [z Hz]. unfold py_int in Hz.
    destruct (py_lstrip_split s) as [l [Hl Hlsp]].
    destruct (py_rstrip_split (py_lstrip s)) as [r [Hr Hrsp]].
    set (s1 := py_rstrip (py_lstrip s)) in *.
    assert (∀ sign body,
      s1 = sign +:+ body → (sign = "" ∨ sign = "+" ∨ sign = "-") →
      body ≠ "" → is_Some (digits_value 0 body) → int_literal s) as Hlit.
    { intros sign body Hs1 Hsign Hne [n Hn]. exists l, sign, body, r.
      repeat split; try done; [|by eapply digits_value_digits].
      rewrite Hl at 1. rewrite Hr, Hs1. by rewrite !app_assoc_s. }
    destruct s1 as [|c t] eqn:Hs1; [done|].
    destruct (decide (c = "-"%char)) as [->|Hm].
    { destruct t as [|c' t']; [done|]. destruct (digits_value 0 (String c' t')) eqn:Hd; [|done].
      apply (Hlit "-" (String c' t')); eauto. }
    destruct (decide (c = "+"%char)) as [->|Hp].
    { destruct t as [|c' t']; [done|]. destruct (digits_value 0 (String c' t')) eqn:Hd; [|done].
      apply (Hlit "+" (String c' t')); eauto. }
    assert ((match String c t with
             | String "-"%char t => (true, t)
             | String "+"%char t => (false, t)
             | _ => (false, String c t)
             end) = (false, String c t)) as Hmatch.
    { destruct c as [[] [] [] [] [] [] [] []]; done. }
    rewrite Hmatch in Hz. destruct (digits_value 0 (String c t)) eqn:Hd; [|done].
    apply (Hlit "" (String c t)); eauto.
  - intros (l & sign & ds & r & -> & Hl & Hr & Hsign & Hne & Hds).
    unfold py_int.
    assert (starts_with Ascii.is_space (sign +:+ ds +:+ r) = false) as Hstart.
    { destruct ds as [|c ds]; [done|]. simpl in Hds.
      apply andb_true_iff in Hds as [Hc _]. apply digit_not_space in Hc.
      by destruct Hsign as [->|[->| ->]]. }
    rewrite (py_lstrip_indent l _ Hl Hstart).
    rewrite <- app_assoc_s.
    replace (py_rstrip ((sign +:+ ds) +:+ r)) with (sign +:+ ds).
    2:{ pose proof (py_rstrip_digits ds Hne Hds) as Hrd.
        assert (py_rstrip (ds +:+ r) = ds) as Hdr.
        { rewrite <- (app_empty_r (ds +:+ r)), app_assoc_s.
          rewrite <- Hrd at 2. clear Hrd Hstart.
          induction ds as [|c ds IH]; [done|].
          rewrite !app_cons. simpl. simpl in Hds.
          apply andb_true_iff in Hds as [Hc Hds].
          destruct ds as [|c' ds'].
          - rewrite !app_empty_l, app_empty_r. rewrite (py_rstrip_spaces r Hr). done.
          - rewrite IH by done. done. }
        rewrite app_assoc_s, py_rstrip_app; rewrite Hdr; [done|]. by destruct ds. }
    destruct (py_int_signed sign ds Hsign Hne Hds) as [n [Hn ->]].
    destruct ds; [done|]. rewrite Hn. by eexists.
Qed.

Lemma py_int_ValueError_iff s : py_int s = Raise ValueError ↔ ¬ int_literal s.
Proof.
  rewrite <- py_int_Ok_iff. split.
  - intros H [z Hz]. congruence.
  - intros H. by destruct (py_int_cases s).
Qed.

(** ** Line decoder *)

Ltac unfold_M :=
  unfold mbind, mret, M_mbind, M_ret, M_bind, reading,
    result_mbind, result_ret, result_bind in *.

Lemma chunks_field0 line :
  ∃ field0 more, JmcCallTreeLine.chunks (JmcCallTreeLine.init line) = field0 :: more.
Proof.
  simpl. pose proof (py_split_not_nil tab line).
  destruct (py_split _ line) as [|f m] eqn:E; [done|]. by exists f, m.
Qed.

(** A line of the shape [ws sig TAB count rest], where [rest] is empty or
    holds further tab-separated fields. *)
Lemma chunks_two_fields field0 count rest :
  tab_free field0 = true → tab_free count = true →
  (rest = "" ∨ starts_with (Ascii.eqb tab) rest = true) →
  ∃ more, JmcCallTreeLine.chunks
            (JmcCallTreeLine.init (field0 +:+ String tab count +:+ rest))
          = field0 :: count :: more.
Proof.
  intros H0 H1 Hrest. unfold JmcCallTreeLine.init, JmcCallTreeLine.chunks.
  fold tab. rewrite app_cons, (py_split_field tab field0 _ H0).
  destruct Hrest as [->|Hrest].
  - rewrite app_empty_r, (py_split_last tab count H1). by exists [].
  - destruct rest as [|c rest]; [done|]. unfold starts_with in Hrest.
    apply Ascii.eqb_eq in Hrest as <-.
    rewrite (py_split_field tab count _ H1). by eexists.
Qed.

(** C6, as amended: field 0 is [ws sig] with [ws] its leading whitespace;
    the signature is [sig], the depth is the length of [ws] divided by 3
    with the remainder dropped, and the sample count is field 1 without
    its commas, read by [int]. *)
Theorem line_decoder_fields (ws sig count rest : string) :
  all_chars Ascii.is_space ws = true →
  tab_free ws = true →
  starts_with Ascii.is_space sig = false →
  tab_free sig = true →
  tab_free count = true →
  (rest = "" ∨ starts_with (Ascii.eqb tab) rest = true) →
  let ctl := JmcCallTreeLine.init ((ws +:+ sig) +:+ String tab count +:+ rest) in
  JmcCallTreeLine.signature ctl = Ok sig ∧
  JmcCallTreeLine.indentation ctl = Ok (String.length ws) ∧
  JmcCallTreeLine.depth_below_root ctl = Ok (String.length ws / 3) ∧
  JmcCallTreeLine.samples ctl = py_int (py_remove ","%char count).
Proof.
  intros Hws Hwt Hsig Hst Hct Hrest ctl.
  assert (tab_free (ws +:+ sig) = true) as H0 by (by rewrite tab_free_app, Hwt, Hst).
  destruct (chunks_two_fields _ count rest H0 Hct Hrest) as [more Hchunks].
  assert (JmcCallTreeLine.signature ctl = Ok sig) as Hsignature.
  { unfold JmcCallTreeLine.signature. subst ctl. rewrite Hchunks. simpl.
    by rewrite py_lstrip_indent. }
  assert (JmcCallTreeLine.indentation ctl = Ok (String.length ws)) as Hind.
  { unfold JmcCallTreeLine.indentation. rewrite Hsignature.
    subst ctl. rewrite Hchunks. simpl. f_equal. rewrite length_app_s. lia. }
  repeat split; [done..| |].
  - unfold JmcCallTreeLine.depth_below_root. by rewrite Hind.
  - unfold JmcCallTreeLine.samples. subst ctl. by rewrite Hchunks.
Qed.

Lemma line_decoder_fields_witness :
  let ctl := JmcCallTreeLine.init
               (("      " +:+ "a.b.C.run") +:+ String tab "12,345" +:+ String "010" "") in
  JmcCallTreeLine.signature ctl = Ok "a.b.C.run" ∧
  JmcCallTreeLine.indentation ctl = Ok 6 ∧
  JmcCallTreeLine.depth_below_root ctl = Ok 2 ∧
  JmcCallTreeLine.samples ctl = py_int (py_remove ","%char ("12,345" +:+ String "010" "")).
Proof.
  apply (line_decoder_fields "      " "a.b.C.run" ("12,345" +:+ String "010" "") "");
    solve [reflexivity | by left].
Defined.

(** C6, as stated, fails on a line indented by form feeds: [lstrip] removes
    them, so the signature loses them and they count toward the depth. *)
Lemma line_decoder_counterexample :
  ¬ decoder_as_specified
      (String "012" (String "012" (String "012" "foo")) +:+ String tab "1").
Proof.
  intros H. destruct (H _ eq_refl) as [Hsig _]. vm_compute in Hsig. done.
Qed.

Lemma create_call_tree_node_result ctl w :
  JmcCallTreeLine.create_call_tree_node ctl w =
    match JmcCallTreeLine.signature ctl, JmcCallTreeLine.samples ctl with
    | Ok sig, Ok n => CallTreeNode.init sig n w
    | Ok _, Raise e => (Raise e, w)
    | Ok _, Stuck => (Stuck, w)
    | Raise e, _ => (Raise e, w)
    | Stuck, _ => (Stuck, w)
    end.
Proof.
  unfold JmcCallTreeLine.create_call_tree_node. unfold_M.
  destruct (JmcCallTreeLine.signature ctl); [|done..].
  by destruct (JmcCallTreeLine.samples ctl).
Qed.

(** What decoding a line yields: a node, or the exception of the missing
    field 1 or of [int]. *)
Lemma decode_cases line w :
  let ctl := JmcCallTreeLine.init line in
  ∃ field0 more, JmcCallTreeLine.chunks ctl = field0 :: more ∧
    JmcCallTreeLine.create_call_tree_node ctl w =
      match more with
      | [] => (Raise IndexError, w)
      | field1 :: _ =>
          match py_int (py_remove ","%char field1) with
          | Ok n => CallTreeNode.init (py_lstrip field0) n w
          | Raise e => (Raise e, w)
          | Stuck => (Stuck, w)
          end
      end.
Proof.
  intros ctl. destruct (chunks_field0 line) as (field0 & more & Hc).
  exists field0, more. split; [done|].
  rewrite create_call_tree_node_result.
  unfold JmcCallTreeLine.signature, JmcCallTreeLine.samples. fold ctl in Hc.
  rewrite Hc. simpl. destruct more as [|field1 more]; [done|]. simpl.
  by destruct (py_int _).
Qed.

Lemma depth_below_root_Ok line :
  ∃ field0 more,
    JmcCallTreeLine.chunks (JmcCallTreeLine.init line) = field0 :: more ∧
    JmcCallTreeLine.depth_below_root (JmcCallTreeLine.init line)
    = Ok ((String.length field0 - String.length (py_lstrip field0)) / 3).
Proof.
  destruct (chunks_field0 line) as (field0 & more & Hc).
  exists field0, more. split; [done|].
  unfold JmcCallTreeLine.depth_below_root, JmcCallTreeLine.indentation,
    JmcCallTreeLine.signature.
  by rewrite Hc.
Qed.

(** An exception of the decoder is the exception of [process_line]. *)
Lemma process_line_decoder_raises self line w e :
  fst (JmcCallTreeLine.create_call_tree_node (JmcCallTreeLine.init line) w) = Raise e →
  JmcCallForestParser.process_line self line w = (Raise e, w).
Proof.
  intros He. unfold JmcCallForestParser.process_line.
  destruct (depth_below_root_Ok line) as (field0 & more & Hc & Hd).
  destruct (decode_cases line w) as (f0 & m & Hc' & Hr).
  rewrite Hc in Hc'. injection Hc' as <- <-.
  unfold_M. rewrite Hd. rewrite Hr in He |- *.
  destruct more as [|field1 more'].
  - simpl in He. by injection He as <-.
  - destruct (py_int _); simpl in He; try done. by injection He as <-.
Qed.

Lemma process_lines_app self before after w :
  JmcCallForestParser.process_lines self (before ++ after) w =
    match JmcCallForestParser.process_lines self before w with
    | (Ok self', w') => JmcCallForestParser.process_lines self' after w'
    | (Raise e, w') => (Raise e, w')
    | (Stuck, w') => (Stuck, w')
    end.
Proof.
  revert self w. induction before as [|line before IH]; intros self w; [done|].
  simpl. unfold_M.
  destruct (JmcCallForestParser.process_line self line w) as [[self'| |] w']; [|done..].
  apply IH.
Qed.

(** C5, as amended: decoding raises Python's [IndexError] exactly on a line
    with fewer than two tab-separated fields, and [ValueError] exactly when
    field 1 without its commas is no integer literal; either leaves the
    store untouched and is the outcome of [process_line]; and an exception
    of [process_line] at any line is the outcome of [parse], which then
    returns no forest. *)
Theorem parse_errors (line : string) (w : world) :
  let ctl := JmcCallTreeLine.init line in
  let r := JmcCallTreeLine.create_call_tree_node ctl w in
  (fst r = Raise IndexError ↔ length (JmcCallTreeLine.chunks ctl) < 2) ∧
  (fst r = Raise ValueError ↔
     ∃ field1, JmcCallTreeLine.chunks ctl !! 1 = Some field1 ∧
               ¬ int_literal (py_remove ","%char field1)) ∧
  (∀ e, fst r = Raise e →
     snd r = w ∧
     ∀ self, JmcCallForestParser.process_line self line w = (Raise e, w)) ∧
  (∀ self0 w0 before after self e w',
     JmcCallForestParser.process_lines self0 before w0 = (Ok self, w) →
     JmcCallForestParser.process_line self line w = (Raise e, w') →
     JmcCallForestParser.parse self0 (before ++ line :: after) w0 = (Raise e, w')).
Proof.
  intros ctl r.
  destruct (decode_cases line w) as (field0 & more & Hc & Hr).
  fold ctl in Hc, Hr. fold r in Hr.
  split_and!.
  - rewrite Hr, Hc. destruct more as [|field1 more]; simpl; [split; [lia|done]|].
    split; [|lia].
    by destruct (py_int_cases (py_remove ","%char field1)) as [[z ->]| ->].
  - rewrite Hr, Hc. destruct more as [|field1 more]; simpl.
    + split; [done|]. by intros (? & ? & _).
    + split.
      * intros He. exists field1. split; [done|].
        apply py_int_ValueError_iff.
        destruct (py_int _) as [n|e|]; simpl in He; congruence.
      * intros (f & [= <-] & Hf). apply py_int_ValueError_iff in Hf.
        by rewrite Hf.
  - intros e He. split; [|intros self; by apply process_line_decoder_raises].
    rewrite Hr in He |- *. destruct more as [|field1 more]; [done|].
    by destruct (py_int _).
  - intros self0 w0 before after self e w' Hbefore Hline.
    unfold JmcCallForestParser.parse. unfold_M.
    rewrite process_lines_app, Hbefore. simpl. unfold_M. by rewrite Hline.
Qed.

Lemma parse_errors_witness :
  JmcCallForestParser.parse
    (JmcCallForestParser.mk "f" CallTreeNodeStack.init 0)
    (["a" +:+ String tab "1"] ++ "   b" :: ["c" +:+ String tab "2"])
    (World [] [CallForestData.mk "f" []] [])
  = (Raise IndexError,
     World [CallTreeNodeData.mk "a" 1 []] [CallForestData.mk "f" [0]] []).
Proof.
  destruct (parse_errors "   b"
              (World [CallTreeNodeData.mk "a" 1 []] [CallForestData.mk "f" [0]] []))
    as (_ & _ & _ & Habort).
  eapply Habort; reflexivity.
Defined.

(** C5, as stated, fails on a line without a tab: the exception is Python's
    [IndexError], not an error named [MalformedLine]. *)
Lemma parse_errors_counterexample : ¬ decoder_errors_as_specified "foo".
Proof.
  intros H. destruct (H empty_world IndexError eq_refl) as [Hname _].
  assert (exn_name IndexError = "MalformedLine") as Hn; [|done].
  apply Hname. vm_compute. lia.
Qed.

Example decode_example :
  let ctl := JmcCallTreeLine.init
               ("   oracle.db.Connect.open" +:+ String tab "1,400" +:+ String "010" "") in
  JmcCallTreeLine.signature ctl = Ok "oracle.db.Connect.open" ∧
  JmcCallTreeLine.depth_below_root ctl = Ok 1 ∧
  JmcCallTreeLine.samples ctl = Ok 1400%Z.
Proof. by vm_compute. Qed.

(** Four spaces are depth 1: the remainder is dropped. *)
Example decode_remainder_example :
  JmcCallTreeLine.depth_below_root (JmcCallTreeLine.init ("    f" +:+ String tab "1"))
  = Ok 1.
Proof. reflexivity. Qed.

Example py_int_examples :
  py_int (" -12" +:+ String "010" "") = Ok (-12)%Z ∧
  py_int "12a" = Raise ValueError ∧
  py_int "" = Raise ValueError ∧
  py_int "- 1" = Raise ValueError.
Proof. by vm_compute. Qed.

(** ** Forest builder *)

(** [process_line] on a line that decodes, written out. *)
Lemma process_line_decoded self line t w :
  decodes line t →
  JmcCallForestParser.process_line self line w =
    let ctn := length (nodes w) in
    let new := CallTreeNodeData.mk (line_signature t) (line_samples t) [] in
    let w1 := World (nodes w ++ [new]) (forests w) (windows w) in
    let stack := CallTreeNodeStack.drop_to (JmcCallForestParser.stack self) (line_depth t) in
    let self' := JmcCallForestParser.mk (JmcCallForestParser.filename self)
                   (CallTreeNodeStack.push stack ctn)
                   (JmcCallForestParser.call_forest self) in
    if decide (line_depth t = 0) then
      match CallForest.add_root (JmcCallForestParser.call_forest self) ctn w1 with
      | (Ok _, w2) => (Ok self', w2)
      | (Raise e, w2) => (Raise e, w2)
      | (Stuck, w2) => (Stuck, w2)
      end
    else
      match CallTreeNodeStack.top stack with
      | Ok top =>
          match CallTreeNode.add_child top ctn w1 with
          | (Ok _, w2) => (Ok self', w2)
          | (Raise e, w2) => (Raise e, w2)
          | (Stuck, w2) => (Stuck, w2)
          end
      | Raise e => (Raise e, w1)
      | Stuck => (Stuck, w1)
      end.
Proof.
  intros (Hd & Hsig & Hn). unfold JmcCallForestParser.process_line.
  unfold_M. rewrite Hd. rewrite create_call_tree_node_result, Hsig, Hn.
  unfold CallTreeNode.init. cbv zeta.
  destruct (decide (line_depth t = 0)); [done|].
  unfold_M. by destruct (CallTreeNodeStack.top _).
Qed.

Lemma depth0_lines_snoc i ts t :
  depth0_lines i (ts ++ [t]) =
    depth0_lines i ts ++ (if decide (line_depth t = 0) then [i + length ts] else []).
Proof.
  revert i. induction ts as [|t' ts IH]; intros i; simpl.
  - rewrite Nat.add_0_r. by rewrite app_nil_r.
  - rewrite IH, <- app_assoc. replace (S i + length ts) with (i + S (length ts)) by lia.
    done.
Qed.

Lemma depth_at_snoc_old ts t i : i < length ts → depth_at (ts ++ [t]) i = depth_at ts i.
Proof. intros Hi. unfold depth_at. by rewrite lookup_app_l. Qed.

Lemma depth_at_snoc_new ts t : depth_at (ts ++ [t]) (length ts) = line_depth t.
Proof.
  unfold depth_at. rewrite lookup_app_r by lia. by rewrite Nat.sub_diag.
Qed.

Lemma parser_inv_init filename w :
  nodes w = [] →
  ∃ self w', JmcCallForestParser.init filename w = (Ok self, w') ∧
    nodes w' = [] ∧ windows w' = windows w ∧
    JmcCallForestParser.stack self = CallTreeNodeStack.init ∧
    parser_inv [] w' self.
Proof.
  intros Hnodes. eexists _, _. split; [reflexivity|]. simpl.
  split_and!; [done..|]. split; simpl.
  - by rewrite Hnodes.
  - intros i t Hi. by rewrite lookup_nil in Hi.
  - intros p pn c Hp. by rewrite Hnodes, lookup_nil in Hp.
  - intros i Hi. lia.
  - exists (CallForestData.mk filename []). split; [|done].
    rewrite lookup_app_r by lia. by rewrite Nat.sub_diag.
  - intros j a Hj. by rewrite lookup_nil in Hj.
Qed.

(** Facts about the nodes that were there before a line is processed. *)
Section parser_step.
Context (ts : list decoded) (w : world) (self : JmcCallForestParser.t).
Context (t : decoded).
Hypothesis Hinv : parser_inv ts w self.

Let new : CallTreeNodeData.t :=
  CallTreeNodeData.mk (line_signature t) (line_samples t) [].

Lemma step_length_snoc : length (nodes w ++ [new]) = length (ts ++ [t]).
Proof. rewrite !length_app. simpl. by rewrite (inv_length _ _ _ Hinv). Qed.

Lemma step_old_child p pn c :
  nodes w !! p = Some pn → c ∈ CallTreeNodeData.children pn →
  p < c < length (ts ++ [t]) ∧ depth_at (ts ++ [t]) c = S (depth_at (ts ++ [t]) p).
Proof.
  intros Hp Hc. destruct (inv_child _ _ _ Hinv p pn c Hp Hc) as [[? ?] Hd].
  rewrite length_app. simpl. split; [lia|].
  by rewrite !depth_at_snoc_old by lia.
Qed.

Lemma step_stack_top d p :
  0 < d → d ≤ length (CallTreeNodeStack.stack (JmcCallForestParser.stack self)) →
  CallTreeNodeStack.top (CallTreeNodeStack.drop_to (JmcCallForestParser.stack self) d) = Ok p →
  p < length ts ∧ S (depth_at ts p) = d.
Proof.
  intros Hd Hle. unfold CallTreeNodeStack.top, CallTreeNodeStack.drop_to, py_last.
  simpl. rewrite last_lookup, length_take_le by done.
  rewrite lookup_take_lt by lia.
  destruct (_ !! pred d) as [a|] eqn:Ha; [|done]. intros [= ->].
  destruct (inv_stack _ _ _ Hinv _ _ Ha) as [? ->]. lia.
Qed.

Lemma step_stack_top_Ok d :
  0 < d → d ≤ length (CallTreeNodeStack.stack (JmcCallForestParser.stack self)) →
  is_Ok (CallTreeNodeStack.top (CallTreeNodeStack.drop_to (JmcCallForestParser.stack self) d)).
Proof.
  intros Hd Hle. unfold CallTreeNodeStack.top, CallTreeNodeStack.drop_to, py_last.
  simpl. rewrite last_lookup, length_take_le by done.
  rewrite lookup_take_lt by lia.
  destruct (lookup_lt_is_Some_2 (CallTreeNodeStack.stack (JmcCallForestParser.stack self))
              (pred d)) as [a ->]; [lia|].
  by exists a.
Qed.

Lemma step_stack_push d j a :
  d ≤ length (CallTreeNodeStack.stack (JmcCallForestParser.stack self)) →
  line_depth t = d →
  CallTreeNodeStack.stack
    (CallTreeNodeStack.push
       (CallTreeNodeStack.drop_to (JmcCallForestParser.stack self) d)
       (length (nodes w))) !! j = Some a →
  a < length (ts ++ [t]) ∧ depth_at (ts ++ [t]) a = j.
Proof.
  intros Hle Hd. simpl. rewrite lookup_snoc_Some, length_take_le by done.
  rewrite length_app. simpl.
  intros [[Hj [Ha _]%lookup_take_Some]|[-> <-]].
  - destruct (inv_stack _ _ _ Hinv _ _ Ha) as [? <-].
    split; [lia|]. by apply depth_at_snoc_old.
  - rewrite (inv_length _ _ _ Hinv). split; [lia|].
    by rewrite depth_at_snoc_new.
Qed.
End parser_step.

(** One line keeps the invariant, provided its depth does not jump past
    the stack. *)
Lemma parser_inv_step ts w self line t :
  parser_inv ts w self →
  decodes line t →
  line_depth t ≤ length (CallTreeNodeStack.stack (JmcCallForestParser.stack self)) →
  ∃ self' w',
    JmcCallForestParser.process_line self line w = (Ok self', w') ∧
    parser_inv (ts ++ [t]) w' self' ∧
    length (CallTreeNodeStack.stack (JmcCallForestParser.stack self')) = S (line_depth t) ∧
    JmcCallForestParser.call_forest self' = JmcCallForestParser.call_forest self ∧
    windows w' = windows w.
Proof.
  intros Hinv Hdec Hle. rewrite (process_line_decoded self line t w Hdec). cbv zeta.
  pose proof (inv_length _ _ _ Hinv) as Hlen.
  destruct (decide (line_depth t = 0)) as [Hd|Hd].
  - destruct (inv_roots _ _ _ Hinv) as (f & Hf & Hroots).
    unfold CallForest.add_root. simpl. rewrite Hf.
    eexists _, _. split; [reflexivity|]. simpl. rewrite Hd. simpl.
    split_and!; [|done..]. split; simpl.
    + by apply (step_length_snoc ts w self t Hinv).
    + intros i t' [[Hi Ht']|[-> <-]]%lookup_snoc_Some.
      * destruct (inv_node _ _ _ Hinv i t' Ht') as [cs Hcs]. exists cs.
        by apply lookup_app_l_Some.
      * exists []. rewrite <- Hlen. by rewrite lookup_app_r, Nat.sub_diag by lia.
    + intros p pn c [[Hp Hpn]|[-> <-]]%lookup_snoc_Some Hc.
      * by eapply (step_old_child ts w self t Hinv).
      * by apply elem_of_nil in Hc.
    + intros i Hi Hpos. rewrite length_app in Hi. simpl in Hi.
      destruct (decide (i = length ts)) as [->|Hne].
      { rewrite depth_at_snoc_new in Hpos. lia. }
      rewrite depth_at_snoc_old in Hpos by lia.
      destruct (inv_parent _ _ _ Hinv i) as (p & pn & Hp & Hc); [lia|done|].
      exists p, pn. split; [by apply lookup_app_l_Some|done].
    + eexists. split.
      * apply list_lookup_insert_eq. by eapply lookup_lt_Some.
      * simpl. rewrite depth0_lines_snoc, Hroots, Hlen.
        by rewrite decide_True by done.
    + intros j a Hj. apply (step_stack_push ts w self t Hinv 0 j a); [lia|done|].
      exact Hj.
  - destruct (step_stack_top_Ok self (line_depth t)) as [p Hp]; [lia|done|].
    rewrite Hp.
    destruct (step_stack_top ts w self Hinv (line_depth t) p) as [Hpk Hpd]; [lia|done..|].
    destruct (lookup_lt_is_Some_2 (nodes w) p) as [pn Hpn]; [lia|].
    unfold CallTreeNode.add_child. simpl.
    rewrite (lookup_app_l_Some _ _ _ _ Hpn).
    eexists _, _. split; [reflexivity|]. simpl.
    split_and!; [|rewrite length_app, length_take_le by done; simpl; lia|done..].
    split; simpl.
    + rewrite length_insert. by apply (step_length_snoc ts w self t Hinv).
    + intros i t' Hi. destruct (decide (p = i)) as [->|Hne].
      * rewrite list_lookup_insert_eq by (rewrite length_app; simpl; lia).
        apply lookup_snoc_Some in Hi as [[_ Hi]|[-> _]]; [|lia].
        destruct (inv_node _ _ _ Hinv i t' Hi) as [cs Hcs].
        rewrite Hcs in Hpn. injection Hpn as <-. by eexists.
      * rewrite list_lookup_insert_ne by done.
        apply lookup_snoc_Some in Hi as [[Hi Ht']|[-> <-]].
        -- destruct (inv_node _ _ _ Hinv i t' Ht') as [cs Hcs]. exists cs.
           by apply lookup_app_l_Some.
        -- exists []. rewrite <- Hlen. by rewrite lookup_app_r, Nat.sub_diag by lia.
    + intros p' pn' c [(<- & <- & _)|(Hne & Hp')]%list_lookup_insert_Some Hc.
      * simpl in Hc. apply elem_of_app in Hc as [Hc|Hc].
        { by eapply (step_old_child ts w self t Hinv). }
        apply list_elem_of_singleton in Hc as ->. rewrite Hlen, length_app. simpl.
        split; [lia|]. rewrite depth_at_snoc_new, depth_at_snoc_old by lia. lia.
      * apply lookup_snoc_Some in Hp' as [[_ Hp']|[-> <-]].
        -- by eapply (step_old_child ts w self t Hinv).
        -- by apply elem_of_nil in Hc.
    + intros i Hi Hpos. rewrite length_app in Hi. simpl in Hi.
      destruct (decide (i = length ts)) as [->|Hne].
      { eexists p, _. split.
        - apply list_lookup_insert_eq. rewrite length_app. simpl. lia.
        - simpl. rewrite Hlen. apply elem_of_app. right. by apply list_elem_of_singleton. }
      rewrite depth_at_snoc_old in Hpos by lia.
      destruct (inv_parent _ _ _ Hinv i) as (p0 & pn0 & Hp0 & Hc); [lia|done|].
      destruct (decide (p = p0)) as [<-|Hne0].
      * eexists p, _. split.
        -- apply list_lookup_insert_eq. rewrite length_app. simpl. lia.
        -- simpl. apply elem_of_app. left.
           rewrite Hpn in Hp0. by injection Hp0 as <-.
      * exists p0, pn0. split; [|done].
        rewrite list_lookup_insert_ne by done. by apply lookup_app_l_Some.
    + destruct (inv_roots _ _ _ Hinv) as (f & Hf & Hroots).
      exists f. split; [done|].
      by rewrite depth0_lines_snoc, Hroots, decide_False, app_nil_r by done.
    + intros j a Hj. by apply (step_stack_push ts w self t Hinv (line_depth t) j a).
Qed.

Lemma parser_inv_lines lines :
  ∀ ts0 w self ts,
    parser_inv ts0 w self →
    Forall2 decodes lines ts →
    depths_within (length (CallTreeNodeStack.stack (JmcCallForestParser.stack self)))
      (line_depth <$> ts) →
    ∃ self' w',
      JmcCallForestParser.process_lines self lines w = (Ok self', w') ∧
      parser_inv (ts0 ++ ts) w' self' ∧
      JmcCallForestParser.call_forest self' = JmcCallForestParser.call_forest self ∧
      windows w' = windows w.
Proof.
  induction lines as [|line lines IH]; intros ts0 w self ts Hinv Hdec Hwf.
  - apply Forall2_nil_inv_l in Hdec as ->. exists self, w.
    by rewrite app_nil_r.
  - apply Forall2_cons_inv_l in Hdec as (t & ts' & Ht & Hts & ->).
    simpl in Hwf. destruct Hwf as [Hle Hwf].
    destruct (parser_inv_step ts0 w self line t Hinv Ht Hle)
      as (self1 & w1 & Hstep & Hinv1 & Hlen1 & Hcf1 & Hwin1).
    rewrite <- Hlen1 in Hwf.
    destruct (IH (ts0 ++ [t]) w1 self1 ts' Hinv1 Hts Hwf)
      as (self2 & w2 & Hrest & Hinv2 & Hcf2 & Hwin2).
    exists self2, w2. simpl. unfold_M. rewrite Hstep.
    rewrite <- app_assoc in Hinv2. split_and!; [done..|congruence|congruence].
Qed.

(** Under the invariant the ancestors of a node number as its depth. *)
Lemma ancestor_chain_length ts w self :
  parser_inv ts w self →
  ∀ fuel i, i < fuel → i < length ts →
    length (ancestor_chain fuel w i) = depth_at ts i.
Proof.
  intros Hinv. induction fuel as [|fuel IH]; intros i Hfuel Hi; [lia|].
  simpl. unfold parent_of.
  destruct (list_find _ (nodes w)) as [[p pn]|] eqn:Hfind; simpl.
  - apply list_find_Some in Hfind as (Hp & Hc & _).
    destruct (inv_child _ _ _ Hinv p pn i Hp Hc) as [[? ?] ->].
    f_equal. apply IH; lia.
  - destruct (decide (depth_at ts i = 0)) as [->|Hpos]; [done|].
    destruct (inv_parent _ _ _ Hinv i) as (p & pn & Hp & Hc); [lia..|].
    eapply list_find_None, Forall_lookup_1 in Hfind; [|exact Hp]. done.
Qed.

(** C2: on well-formed input the forest builder succeeds; line [i] becomes
    the node at address [i], with the line's signature and sample count and
    with as many ancestors as the line's depth; and the forest's roots are
    the depth-0 lines, in input order. *)
Theorem forest_builder_depths (filename : string) (lines : list string)
    (ts : list decoded) (w0 : world) :
  nodes w0 = [] →
  Forall2 decodes lines ts →
  well_formed_depths (line_depth <$> ts) →
  ∃ cf f w,
    (self ← JmcCallForestParser.init filename;
     JmcCallForestParser.parse self lines) w0 = (Ok cf, w) ∧
    forests w !! cf = Some f ∧
    CallForestData.roots f = depth0_lines 0 ts ∧
    length (nodes w) = length ts ∧
    ∀ i t, ts !! i = Some t →
      (∃ cs, nodes w !! i
             = Some (CallTreeNodeData.mk (line_signature t) (line_samples t) cs)) ∧
      length (ancestor_chain (length (nodes w)) w i) = line_depth t.
Proof.
  intros Hnodes Hdec Hwf.
  destruct (parser_inv_init filename w0 Hnodes)
    as (self & w1 & Hinit & Hnodes1 & Hwin1 & Hstack & Hinv).
  destruct (parser_inv_lines lines [] w1 self ts Hinv Hdec)
    as (self' & w & Hlines & Hinv' & Hcf & Hwin).
  { by rewrite Hstack. }
  simpl in Hinv'.
  destruct (inv_roots _ _ _ Hinv') as (f & Hf & Hroots).
  exists (JmcCallForestParser.call_forest self'), f, w.
  split_and!; [|done|done|by apply (inv_length _ _ _ Hinv')|].
  - unfold JmcCallForestParser.parse. unfold_M. by rewrite Hinit, Hlines.
  - intros i t Ht. split; [by apply (inv_node _ _ _ Hinv')|].
    pose proof (lookup_lt_Some _ _ _ Ht) as Hi.
    rewrite (ancestor_chain_length ts w self' Hinv');
      [|by rewrite (inv_length _ _ _ Hinv')|done].
    unfold depth_at. by rewrite Ht.
Qed.

Lemma forest_builder_depths_witness :
  ∃ cf f w,
    (self ← JmcCallForestParser.init "report.txt";
     JmcCallForestParser.parse self example_lines) empty_world = (Ok cf, w) ∧
    forests w !! cf = Some f ∧
    CallForestData.roots f = depth0_lines 0 example_decoded ∧
    length (nodes w) = length example_decoded ∧
    ∀ i t, example_decoded !! i = Some t →
      (∃ cs, nodes w !! i
             = Some (CallTreeNodeData.mk (line_signature t) (line_samples t) cs)) ∧
      length (ancestor_chain (length (nodes w)) w i) = line_depth t.
Proof.
  apply (forest_builder_depths "report.txt" example_lines example_decoded empty_world).
  - reflexivity.
  - repeat (constructor; [by vm_compute|]). constructor.
  - unfold well_formed_depths, example_decoded. simpl. lia.
Defined.

Example parse_example : example_parse = (Ok 0, example_world).
Proof. reflexivity. Qed.

(** ** Depth jumps *)

Lemma take_nonempty {A} (l : list A) d : 0 < d → l ≠ [] → take d l ≠ [].
Proof. destruct l, d; simpl; intros; done || lia. Qed.

(** C10: a slice bound at or past the end leaves the stack as it is, so a
    line whose depth is at least the stack size is attached, without error,
    below the last node on the stack; a line that decodes makes
    [process_line] raise only when the stack is empty and the depth is
    positive, and what is raised is Python's [IndexError] from [top]. *)
Theorem depth_jump_behaviour (self : JmcCallForestParser.t) (line : string)
    (t : decoded) (w : world) :
  decodes line t →
  let st := JmcCallForestParser.stack self in
  let d := line_depth t in
  let ctn := length (nodes w) in
  let new := CallTreeNodeData.mk (line_signature t) (line_samples t) [] in
  (length (CallTreeNodeStack.stack st) ≤ d → CallTreeNodeStack.drop_to st d = st) ∧
  (∀ top pn,
     length (CallTreeNodeStack.stack st) ≤ d →
     last (CallTreeNodeStack.stack st) = Some top →
     nodes w !! top = Some pn →
     JmcCallForestParser.process_line self line w =
       (Ok (JmcCallForestParser.mk (JmcCallForestParser.filename self)
              (CallTreeNodeStack.push st ctn)
              (JmcCallForestParser.call_forest self)),
        World (<[top := CallTreeNodeData.mk (CallTreeNodeData.signature pn)
                          (CallTreeNodeData.samples pn)
                          (CallTreeNodeData.children pn ++ [ctn])]>
                 (nodes w ++ [new]))
          (forests w) (windows w))) ∧
  (∀ e, fst (JmcCallForestParser.process_line self line w) = Raise e ↔
        CallTreeNodeStack.stack st = [] ∧ 0 < d ∧ e = IndexError) ∧
  exn_name IndexError ≠ "StackUnderflow".
Proof.
  intros Hdec st d ctn new.
  assert (length (CallTreeNodeStack.stack st) ≤ d → CallTreeNodeStack.drop_to st d = st)
    as Hdrop.
  { intros Hle. unfold CallTreeNodeStack.drop_to. rewrite take_ge by done.
    by destruct st. }
  split_and!; [done| | |done].
  - intros top pn Hle Htop Hpn.
    rewrite (process_line_decoded self line t w Hdec). cbv zeta.
    fold st d. rewrite (Hdrop Hle).
    assert (d ≠ 0) as Hd.
    { destruct (CallTreeNodeStack.stack st); [done|]. simpl in Hle. lia. }
    rewrite decide_False by done.
    unfold CallTreeNodeStack.top, py_last. rewrite Htop.
    unfold CallTreeNode.add_child. simpl.
    by rewrite (lookup_app_l_Some _ _ _ _ Hpn).
  - intros e. rewrite (process_line_decoded self line t w Hdec). cbv zeta.
    fold st d. destruct (decide (d = 0)) as [Hd|Hd].
    + unfold CallForest.add_root. simpl.
      destruct (forests w !! _); simpl; (split; [done|lia]).
    + unfold CallTreeNodeStack.top, CallTreeNodeStack.drop_to, py_last. simpl.
      destruct (CallTreeNodeStack.stack st) as [|a l] eqn:Hst.
      * rewrite take_nil. simpl. split; [|by intros (_ & _ & ->)].
        intros [= <-]. split_and!; [done|lia|done].
      * destruct (last (take d (a :: l))) as [p|] eqn:Hlast.
        -- unfold CallTreeNode.add_child. simpl.
           destruct (_ !! p); simpl; (split; [done|by intros (? & _)]).
        -- apply last_None in Hlast. by apply take_nonempty in Hlast; [|lia|].
Qed.

Lemma depth_jump_behaviour_witness :
  JmcCallForestParser.process_line
    (JmcCallForestParser.mk "f" (CallTreeNodeStack.mk [0]) 0)
    ("      deep" +:+ String tab "7")
    (World [CallTreeNodeData.mk "a" 9 []] [CallForestData.mk "f" [0]] [])
  = (Ok (JmcCallForestParser.mk "f" (CallTreeNodeStack.mk [0; 1]) 0),
     World [CallTreeNodeData.mk "a" 9 [1]; CallTreeNodeData.mk "deep" 7 []]
       [CallForestData.mk "f" [0]] []).
Proof.
  destruct (depth_jump_behaviour
              (JmcCallForestParser.mk "f" (CallTreeNodeStack.mk [0]) 0)
              ("      deep" +:+ String tab "7") (Decoded 2 "deep" 7)
              (World [CallTreeNodeData.mk "a" 9 []] [CallForestData.mk "f" [0]] []))
    as (_ & Hattach & _); [by vm_compute|].
  apply (Hattach 0 (CallTreeNodeData.mk "a" 9 [])); [simpl; lia|reflexivity..].
Defined.

(** ** Results *)

Lemma result_mapM_Ok {A B} (f : A → result B) l ys :
  result_mapM f l = Ok ys ↔ Forall2 (λ x y, f x = Ok y) l ys.
Proof.
  revert ys. induction l as [|x l IH]; intros ys; simpl.
  - split; [intros [= <-]; constructor|by intros ->%Forall2_nil_inv_l].
  - unfold_M. split.
    + destruct (f x) as [y| |] eqn:Hx; [|done..].
      destruct (result_mapM f l) as [ys'| |]; [|done..].
      intros [= <-]. constructor; [done|]. by apply IH.
    + intros (y & ys' & Hy & Hys & ->)%Forall2_cons_inv_l.
      rewrite Hy. apply IH in Hys. by rewrite Hys.
Qed.

Lemma result_mapM_is_Ok {A B} (f : A → result B) l :
  (∀ x, x ∈ l → is_Ok (f x)) → is_Ok (result_mapM f l).
Proof.
  induction l as [|x l IH]; intros Hl; simpl; [by eexists|].
  destruct (Hl x) as [y Hy]; [by left|].
  destruct IH as [ys Hys]; [intros x' Hx'; apply Hl; by right|].
  unfold_M. rewrite Hy, Hys. by eexists.
Qed.

Lemma result_mapM_ext {A B} (f g : A → result B) l :
  (∀ x, x ∈ l → f x = g x) → result_mapM f l = result_mapM g l.
Proof.
  induction l as [|x l IH]; intros Hl; simpl; [done|].
  rewrite (Hl x) by (by left). rewrite IH; [done|].
  intros x' Hx'. apply Hl. by right.
Qed.

Lemma deref_node_Ok w a n : deref_node w a = Ok n ↔ nodes w !! a = Some n.
Proof. unfold deref_node. destruct (nodes w !! a); naive_solver. Qed.

Lemma deref_forest_Ok w a f : deref_forest w a = Ok f ↔ forests w !! a = Some f.
Proof. unfold deref_forest. destruct (forests w !! a); naive_solver. Qed.

Lemma deref_node_lt w a : a < length (nodes w) → is_Ok (deref_node w a).
Proof.
  intros [n Hn]%lookup_lt_is_Some_2. exists n. by apply deref_node_Ok.
Qed.

(** ** Depth *)

Lemma py_max_or_0_ub ds d : d ∈ ds → d ≤ py_max_or_0 ds.
Proof.
  induction ds as [|x ds IH]; [by intros ?%elem_of_nil|].
  simpl. intros [->|Hd]%elem_of_cons; [lia|]. specialize (IH Hd). lia.
Qed.

Lemma py_max_or_0_attained ds : ds ≠ [] → py_max_or_0 ds ∈ ds.
Proof.
  induction ds as [|x ds IH]; [done|]. intros _. simpl.
  destruct ds as [|y ds'].
  - simpl. rewrite Nat.max_0_r. by left.
  - destruct (Nat.max_spec x (py_max_or_0 (y :: ds'))) as [[_ ->]|[_ ->]].
    + right. by apply IH.
    + by left.
Qed.

(** With a fuel that covers the store, [depth] returns. *)
Lemma node_depth_total w :
  heap_wf w →
  ∀ fuel a, a < length (nodes w) → length (nodes w) - a ≤ fuel →
    is_Ok (CallTreeNode.depth fuel w a).
Proof.
  intros Hwf. induction fuel as [|fuel IH]; intros a Ha Hfuel; [lia|].
  simpl. destruct (deref_node_lt w a Ha) as [n Hn]. unfold_M. rewrite Hn.
  apply deref_node_Ok in Hn.
  destruct (result_mapM_is_Ok (CallTreeNode.depth fuel w) (CallTreeNodeData.children n))
    as [ds Hds].
  { intros c Hc. destruct (Hwf a n c Hn Hc). apply IH; lia. }
  rewrite Hds. by eexists.
Qed.

(** With a fuel that covers the store, [depth] of a forest returns: it is
    [max(ds or [0])] for the depths [ds] of its roots. *)
Lemma forest_depth_roots (fuel : nat) (w : world) (cf : addr) (f : CallForestData.t) :
  heap_wf w →
  forests w !! cf = Some f →
  forest_wf w f →
  length (nodes w) ≤ fuel →
  ∃ ds,
    Forall2 (λ r d, CallTreeNode.depth fuel w r = Ok d) (CallForestData.roots f) ds ∧
    CallForest.depth fuel w cf = Ok (py_max_or_0 ds).
Proof.
  intros Hwf Hf Hroots Hfuel.
  destruct (result_mapM_is_Ok (CallTreeNode.depth fuel w) (CallForestData.roots f))
    as [ds Hds].
  { intros r Hr. apply node_depth_total; [done|by apply Hroots|lia]. }
  exists ds. unfold CallForest.depth. unfold_M.
  apply deref_forest_Ok in Hf. rewrite Hf, Hds.
  by apply result_mapM_Ok in Hds.
Qed.

(** C3, as amended: with a fuel that covers the store, [depth] of a forest
    returns the greatest depth among its roots' subtrees, with no 1 added:
    0 without roots, otherwise a bound of every root's depth that one root
    attains; a node's depth is 1 more than the greatest depth among its
    children, so a leaf has depth 1. *)
Theorem forest_depth_is_max (fuel : nat) (w : world) (cf : addr) (f : CallForestData.t) :
  heap_wf w →
  forests w !! cf = Some f →
  forest_wf w f →
  length (nodes w) ≤ fuel →
  ∃ d,
    CallForest.depth fuel w cf = Ok d ∧
    (CallForestData.roots f = [] → d = 0) ∧
    (∀ r, r ∈ CallForestData.roots f →
       ∃ dr, CallTreeNode.depth fuel w r = Ok dr ∧ dr ≤ d) ∧
    (CallForestData.roots f ≠ [] →
       ∃ r, r ∈ CallForestData.roots f ∧ CallTreeNode.depth fuel w r = Ok d) ∧
    (∀ a n, nodes w !! a = Some n →
       ∃ ds,
         Forall2 (λ c d, CallTreeNode.depth fuel w c = Ok d)
           (CallTreeNodeData.children n) ds ∧
         CallTreeNode.depth (S fuel) w a = Ok (1 + py_max_or_0 ds)) ∧
    (∀ a n, nodes w !! a = Some n → CallTreeNodeData.children n = [] →
       CallTreeNode.depth fuel w a = Ok 1).
Proof.
  intros Hwf Hf Hroots Hfuel.
  destruct (forest_depth_roots fuel w cf f Hwf Hf Hroots Hfuel) as (ds & Hds & Hdepth).
  exists (py_max_or_0 ds). split_and!; [done| | | | |].
  - intros Hnil. rewrite Hnil in Hds. by apply Forall2_nil_inv_l in Hds as ->.
  - intros r [i Hi]%list_elem_of_lookup.
    destruct (Forall2_lookup_l _ _ _ _ _ Hds Hi) as (dr & Hdr & Hr).
    exists dr. split; [done|]. apply py_max_or_0_ub.
    apply list_elem_of_lookup. by exists i.
  - intros Hne.
    assert (ds ≠ []) as Hds_ne.
    { intros ->. by apply Forall2_nil_inv_r in Hds. }
    apply py_max_or_0_attained, list_elem_of_lookup in Hds_ne as [i Hi].
    destruct (Forall2_lookup_r _ _ _ _ _ Hds Hi) as (r & Hr & Hdr).
    exists r. split; [|done]. apply list_elem_of_lookup. by exists i.
  - intros a n Hn.
    destruct (result_mapM_is_Ok (CallTreeNode.depth fuel w) (CallTreeNodeData.children n))
      as [cds Hcds].
    { intros c Hc. destruct (Hwf a n c Hn Hc).
      apply node_depth_total; [done|lia|lia]. }
    exists cds. split; [by apply result_mapM_Ok|].
    simpl. unfold_M. apply deref_node_Ok in Hn. by rewrite Hn, Hcds.
  - intros a n Hn Hleaf.
    assert (a < length (nodes w)) as Ha by (by eapply lookup_lt_Some).
    destruct fuel as [|fuel']; [lia|]. simpl. unfold_M.
    apply deref_node_Ok in Hn. by rewrite Hn, Hleaf.
Qed.

Lemma example_world_wf : heap_wf example_world.
Proof.
  intros a n c Hn Hc. simpl.
  destruct a as [|[|[|a]]]; simpl in Hn; simplify_eq; simpl in Hc.
  - apply elem_of_cons in Hc as [->|Hc]; [lia|].
    apply list_elem_of_singleton in Hc as ->. lia.
  - by apply elem_of_nil in Hc.
  - by apply elem_of_nil in Hc.
Qed.

Lemma forest_depth_is_max_witness :
  ∃ d, CallForest.depth 3 example_world 0 = Ok d ∧
       ∃ r, r ∈ [0] ∧ CallTreeNode.depth 3 example_world r = Ok d.
Proof.
  destruct (forest_depth_is_max 3 example_world 0 (CallForestData.mk "report.txt" [0]))
    as (d & Hd & _ & _ & Hattained & _).
  - exact example_world_wf.
  - reflexivity.
  - intros r Hr. apply list_elem_of_singleton in Hr as ->. simpl. lia.
  - simpl. lia.
  - exists d. split; [done|]. by apply Hattained.
Defined.

(** C3, as stated, fails on the example report: its forest has depth 2,
    the depth of its one root, not 1 more. *)
Lemma forest_depth_counterexample : ¬ forest_depth_as_specified 3 example_world 0.
Proof.
  intros H. specialize (H (CallForestData.mk "report.txt" [0]) [2] eq_refl eq_refl).
  vm_compute in H. done.
Qed.

Example depth_example :
  CallForest.depth 3 example_world 0 = Ok 2 ∧
  CallForest.samples example_world 0 = Ok 1000%Z.
Proof. by vm_compute. Qed.

(** ** Sorting *)

Lemma py_insert_Permutation {A} (key : A → string) x l :
  py_insert key x l ≡ₚ x :: l.
Proof.
  induction l as [|y l IH]; simpl; [done|].
  destruct (String.leb (key x) (key y)); [done|].
  rewrite IH. apply Permutation_swap.
Qed.

Lemma py_sorted_Permutation {A} (key : A → string) l : py_sorted key l ≡ₚ l.
Proof.
  induction l as [|x l IH]; simpl; [done|].
  by rewrite py_insert_Permutation, IH.
Qed.

Lemma py_insert_Sorted {A} (key : A → string) x l :
  Sorted (λ a b, String.le (key a) (key b)) l →
  Sorted (λ a b, String.le (key a) (key b)) (py_insert key x l).
Proof.
  induction 1 as [|y l Hl IH Hhd]; simpl; [by repeat constructor|].
  destruct (String.leb (key x) (key y)) eqn:Hxy.
  - constructor; [by constructor|]. constructor. unfold String.le. by rewrite Hxy.
  - constructor; [done|].
    assert (String.le (key y) (key x)) as Hyx.
    { destruct (String.le_total (key x) (key y)) as [H|H]; [|done].
      unfold String.le in H. by rewrite Hxy in H. }
    destruct Hhd as [|z l' Hz]; simpl; [by constructor|].
    destruct (String.leb (key x) (key z)); by constructor.
Qed.

Lemma py_sorted_Sorted {A} (key : A → string) l :
  Sorted (λ a b, String.le (key a) (key b)) (py_sorted key l).
Proof.
  induction l as [|x l IH]; simpl; [constructor|]. by apply py_insert_Sorted.
Qed.

(** In the sorted list every node's signature is at most the signature of
    every node after it. *)
Lemma py_sorted_StronglySorted l : StronglySorted signature_le (py_sorted signature_of l).
Proof.
  apply Sorted_StronglySorted.
  - intros a b c. unfold signature_le. apply transitivity.
  - apply py_sorted_Sorted.
Qed.

(** Nodes with the same signature keep their order: the sort is stable. *)
Lemma py_insert_filter {A} (key : A → string) (k : string) x l :
  Sorted (λ a b, String.le (key a) (key b)) l →
  filter (λ a, key a = k) (py_insert key x l) = filter (λ a, key a = k) (x :: l).
Proof.
  induction 1 as [|y l Hl IH Hhd]; simpl; [done|].
  destruct (String.leb (key x) (key y)) eqn:Hxy; [done|].
  rewrite filter_cons, IH, !filter_cons.
  destruct (decide (key y = k)) as [Hy|Hy]; [|done].
  destruct (decide (key x = k)) as [Hx|Hx]; [|done].
  exfalso. rewrite Hx, Hy in Hxy.
  pose proof (reflexivity (R := String.le) k) as Hk.
  unfold String.le in Hk. by rewrite Hxy in Hk.
Qed.

Lemma py_sorted_stable {A} (key : A → string) (k : string) l :
  filter (λ a, key a = k) (py_sorted key l) = filter (λ a, key a = k) l.
Proof.
  induction l as [|x l IH]; simpl; [done|].
  rewrite py_insert_filter by apply py_sorted_Sorted.
  by rewrite !filter_cons, IH.
Qed.

(** ** Arithmetic of the layout *)

Local Open Scope Qc_scope.

Lemma py_float_add a b : py_float (a + b) = py_float a + py_float b.
Proof. apply Z2Qc_inj_add. Qed.

Lemma py_float_0 : py_float 0 = 0.
Proof. apply Z2Qc_inj_0. Qed.

Lemma samples_of_cons r l :
  samples_of (r :: l) = (CallTreeNodeData.samples (snd r) + samples_of l)%Z.
Proof. reflexivity. Qed.

Lemma samples_of_app l1 l2 : samples_of (l1 ++ l2) = (samples_of l1 + samples_of l2)%Z.
Proof.
  induction l1 as [|r l1 IH]; [done|].
  rewrite <- app_comm_cons, !samples_of_cons, IH. lia.
Qed.

Lemma samples_of_Permutation l1 l2 : l1 ≡ₚ l2 → samples_of l1 = samples_of l2.
Proof.
  induction 1 as [|r l1 l2 _ IH|r1 r2 l|l1 l2 l3 _ IH1 _ IH2];
    rewrite ?samples_of_cons; [done|by rewrite IH|lia|congruence].
Qed.

Lemma bounding_box_width self n x y :
  bbox_width (TkFlameGraphRenderer.bounding_box self n x y)
  = TkFlameGraphRenderer.x_scale self * py_float (CallTreeNodeData.samples n).
Proof.
  unfold bbox_width, bbox_right, bbox_left, TkFlameGraphRenderer.bounding_box.
  cbn [fst snd]. ring.
Qed.

Lemma placed_at_0 self l x : placed_at self l x 0 = x.
Proof. unfold placed_at. simpl. unfold samples_of. simpl. rewrite py_float_0. ring. Qed.

Lemma placed_at_S self r l x i :
  placed_at self (r :: l) x (S i)
  = placed_at self l (x + TkFlameGraphRenderer.advance self r) i.
Proof.
  unfold placed_at, TkFlameGraphRenderer.advance. simpl.
  rewrite samples_of_cons, py_float_add. ring.
Qed.

Local Close Scope Qc_scope.

(** ** Canvas commands *)

Ltac unfold_Canvas :=
  unfold mbind, mret, Canvas_mbind, Canvas_ret, Canvas_bind, create, computing in *.

Lemma for_each_placed_parts {A} (body : A → Qc → Canvas unit) width l x :
  (∀ n x, n ∈ l → fst (body n x) = Ok ()) →
  for_each_placed body width l x = (Ok (), concat (placed_parts body width l x)).
Proof.
  revert x. induction l as [|n l IH]; intros x Hbody; simpl; [done|].
  unfold_Canvas. pose proof (Hbody n x ltac:(by left)) as Hn.
  destruct (body n x) as [r out]. simpl in Hn. subst r.
  rewrite IH; [done|]. intros n' x' Hn'. apply Hbody. by right.
Qed.

Lemma placed_parts_length {A} (body : A → Qc → Canvas unit) width l x :
  length (placed_parts body width l x) = length l.
Proof. revert x. induction l as [|n l IH]; intros x; simpl; [done|]. by rewrite IH. Qed.

Lemma placed_parts_lookup self (body : nat * CallTreeNodeData.t → Qc → Canvas unit) l x i r :
  l !! i = Some r →
  placed_parts body (TkFlameGraphRenderer.advance self) l x !! i
  = Some (snd (body r (placed_at self l x i))).
Proof.
  revert x i. induction l as [|r' l IH]; intros x i Hi; [done|].
  destruct i as [|i]; simpl in *.
  - injection Hi as ->. by rewrite placed_at_0.
  - rewrite placed_at_S. by apply IH.
Qed.

Lemma deref_nodes_Ok w l rs :
  deref_nodes w l = Ok rs ↔
  Forall2 (λ a r, fst r = a ∧ nodes w !! a = Some (snd r)) l rs.
Proof.
  unfold deref_nodes. rewrite result_mapM_Ok.
  split; intros H; eapply Forall2_impl; try exact H; simpl;
    intros a r; unfold_M; unfold deref_node;
    destruct (nodes w !! a) as [n|]; try done.
  - by intros [= <-].
  - destruct r as [a' n']. simpl. by intros [-> [= ->]].
  - by intros [_ ?].
Qed.

Lemma deref_nodes_total w l :
  (∀ a, a ∈ l → a < length (nodes w)) → is_Ok (deref_nodes w l).
Proof.
  intros Hl. apply result_mapM_is_Ok. intros a Ha.
  destruct (deref_node_lt w a (Hl a Ha)) as [n Hn]. unfold_M. rewrite Hn.
  by eexists.
Qed.

Lemma deref_nodes_elem w l rs r :
  deref_nodes w l = Ok rs → r ∈ rs → fst r ∈ l ∧ nodes w !! fst r = Some (snd r).
Proof.
  intros Hrs%deref_nodes_Ok [i Hi]%list_elem_of_lookup.
  destruct (Forall2_lookup_r _ _ _ _ _ Hrs Hi) as (a & Ha & <- & Hn).
  split; [|done]. apply list_elem_of_lookup. by exists i.
Qed.

Lemma text_Ok self a n x y :
  (TkFlameGraphRenderer.character_width self ≠ 0)%Qc →
  fst (TkFlameGraphRenderer.text self a n x y) = Ok ().
Proof.
  intros Hcw. unfold TkFlameGraphRenderer.text.
  destruct (_ && _); [|done]. unfold_Canvas. unfold py_float_div.
  by rewrite decide_False by done.
Qed.

Lemma render_call_tree_node_Ok self a n x y :
  (TkFlameGraphRenderer.character_width self ≠ 0)%Qc →
  TkFlameGraphRenderer.render_call_tree_node self a n x y
  = (Ok (), node_rectangle self (a, n) x y
            :: snd (TkFlameGraphRenderer.text self a n x y)).
Proof.
  intros Hcw. unfold TkFlameGraphRenderer.render_call_tree_node. unfold_Canvas.
  pose proof (text_Ok self a n x y Hcw) as Ht.
  destruct (TkFlameGraphRenderer.text self a n x y) as [r out].
  simpl in Ht. by subst r.
Qed.

Section render_call_tree.
Context (self : TkFlameGraphRenderer.t) (w : world).
Hypothesis Hwf : heap_wf w.
Hypothesis Hcw : (TkFlameGraphRenderer.character_width self ≠ 0)%Qc.

(** With a fuel that covers the store, [render_call_tree] returns. *)
Lemma render_call_tree_total fuel :
  ∀ a x y, a < length (nodes w) → length (nodes w) - a ≤ fuel →
    fst (TkFlameGraphRenderer.render_call_tree fuel self w a x y) = Ok ().
Proof using Hwf Hcw.
  induction fuel as [|fuel IH]; intros a x y Ha Hfuel; [lia|].
  simpl. destruct (lookup_lt_is_Some_2 _ _ Ha) as [n Hn].
  unfold_Canvas. unfold deref_node. rewrite Hn.
  rewrite (render_call_tree_node_Ok self a n x y Hcw). cbv iota beta.
  destruct (deref_nodes_total w (CallTreeNodeData.children n)) as [cs Hcs].
  { intros c Hc. destruct (Hwf a n c Hn Hc). lia. }
  rewrite Hcs. cbv iota beta.
  rewrite for_each_placed_parts; [done|].
  intros c cx Hc. rewrite py_sorted_Permutation in Hc.
  destruct (deref_nodes_elem w _ cs c Hcs Hc) as [Hc' _].
  destruct (Hwf a n (fst c) Hn Hc'). apply IH; lia.
Qed.

(** What [render_call_tree] creates: the node's rectangle, its text if
    any, then what each child creates, in ascending order of signature. *)
Lemma render_call_tree_parts fuel a n x y :
  nodes w !! a = Some n → length (nodes w) - a ≤ S fuel →
  ∃ cs,
    deref_nodes w (CallTreeNodeData.children n) = Ok cs ∧
    TkFlameGraphRenderer.render_call_tree (S fuel) self w a x y
    = (Ok (),
       node_rectangle self (a, n) x y
       :: snd (TkFlameGraphRenderer.text self a n x y)
       ++ concat (placed_parts
                    (λ child child_x,
                       TkFlameGraphRenderer.render_call_tree fuel self w (fst child)
                         child_x (y - TkFlameGraphRenderer.y_scale self)%Qc)
                    (TkFlameGraphRenderer.advance self)
                    (py_sorted signature_of cs) x)).
Proof using Hwf Hcw.
  intros Hn Hfuel.
  destruct (deref_nodes_total w (CallTreeNodeData.children n)) as [cs Hcs].
  { intros c Hc. destruct (Hwf a n c Hn Hc). lia. }
  exists cs. split; [done|]. simpl.
  unfold_Canvas. unfold deref_node. rewrite Hn.
  rewrite (render_call_tree_node_Ok self a n x y Hcw). cbv iota beta.
  rewrite Hcs. cbv iota beta.
  rewrite for_each_placed_parts; [done|].
  intros c cx Hc. rewrite py_sorted_Permutation in Hc.
  destruct (deref_nodes_elem w _ cs c Hcs Hc) as [Hc' _].
  destruct (Hwf a n (fst c) Hn Hc').
  apply render_call_tree_total; lia.
Qed.

(** The first thing [render_call_tree] creates is the node's rectangle. *)
Lemma render_call_tree_head fuel a n x y :
  nodes w !! a = Some n → length (nodes w) - a ≤ fuel →
  head (snd (TkFlameGraphRenderer.render_call_tree fuel self w a x y))
  = Some (node_rectangle self (a, n) x y).
Proof using Hwf Hcw.
  intros Hn Hfuel. pose proof (lookup_lt_Some _ _ _ Hn).
  destruct fuel as [|fuel]; [lia|].
  destruct (render_call_tree_parts fuel a n x y Hn Hfuel) as (cs & _ & ->).
  done.
Qed.
End render_call_tree.

(** ** Rows of rectangles *)

Lemma row_boxes_lookup self l x y i r :
  l !! i = Some r →
  row_boxes self l x y !! i
  = Some (TkFlameGraphRenderer.bounding_box self (snd r) (placed_at self l x i) y).
Proof. intros Hi. unfold row_boxes. by rewrite list_lookup_imap, Hi. Qed.

(** The widths of a row sum to the scaled sum of its sample counts. *)
Lemma row_boxes_width self l x y :
  sum_Qc (bbox_width <$> row_boxes self l x y)
  = (TkFlameGraphRenderer.x_scale self * py_float (samples_of l))%Qc.
Proof.
  assert (bbox_width <$> row_boxes self l x y
          = TkFlameGraphRenderer.advance self <$> l) as ->.
  { apply list_eq. intros i. unfold row_boxes.
    rewrite !list_lookup_fmap, list_lookup_imap.
    destruct (l !! i); [|done]. simpl. by rewrite bounding_box_width. }
  clear x y. induction l as [|r l IH].
  - change (samples_of []) with 0%Z. rewrite py_float_0.
    change (sum_Qc (TkFlameGraphRenderer.advance self <$> [])) with 0%Qc. ring.
  - change (sum_Qc (TkFlameGraphRenderer.advance self <$> r :: l))
      with (TkFlameGraphRenderer.advance self r
            + sum_Qc (TkFlameGraphRenderer.advance self <$> l))%Qc.
    rewrite IH, samples_of_cons, py_float_add.
    unfold TkFlameGraphRenderer.advance. ring.
Qed.

Lemma placed_at_next self l x i c :
  l !! i = Some c →
  (placed_at self l x i
   + TkFlameGraphRenderer.x_scale self * py_float (CallTreeNodeData.samples (snd c)))%Qc
  = placed_at self l x (S i).
Proof.
  intros Hi. unfold placed_at. rewrite (take_S_r _ _ _ Hi), samples_of_app.
  rewrite py_float_add. unfold samples_of at 3. simpl.
  rewrite Z.add_0_r. ring.
Qed.

(** ** Layout of the children of a node *)

Lemma placed_at_foldl self l x i :
  foldl (λ child_x r, (child_x + TkFlameGraphRenderer.advance self r)%Qc) x (take i l)
  = placed_at self l x i.
Proof.
  revert x i. induction l as [|r l IH]; intros x i.
  - rewrite take_nil. simpl. unfold placed_at. rewrite take_nil.
    unfold samples_of. simpl. rewrite py_float_0. ring.
  - destruct i as [|i]; simpl.
    + by rewrite placed_at_0.
    + by rewrite placed_at_S, IH.
Qed.

Lemma scales_character_width self :
  scales_word_sized self → TkFlameGraphRenderer.character_width self ≠ 0%Qc.
Proof. intros (_ & _ & [H|H]) Heq; rewrite Heq in H; by vm_compute in H. Qed.

(** C7, as amended: for a renderer with scales in range, in a store of
    word-sized counts, [render_call_tree] creates, for a node at [(x, y)],
    the node's rectangle and then its children's subtrees in ascending
    order of signature; child [i] is placed at the parent's [x] with the
    widths of the children before it added one after the other, one
    [y_scale] above the parent on the canvas (the direction of increasing
    depth), with width [x_scale * samples] and height [y_scale].  The first
    child's rectangle starts at the left edge of its parent's and each
    further child's starts where the rectangle of the child before it
    ends, in the same row.  That no child ends right of its parent is not
    part of it: see [children_layout_counterexample]. *)
Theorem children_layout (fuel : nat) (self : TkFlameGraphRenderer.t) (w : world)
    (a : addr) (n : CallTreeNodeData.t) (x y : Qc) :
  heap_wf w →
  counts_word_sized w →
  scales_word_sized self →
  nodes w !! a = Some n →
  length (nodes w) - a ≤ S fuel →
  ∃ cs,
    deref_nodes w (CallTreeNodeData.children n) = Ok cs ∧
    let x_scale := TkFlameGraphRenderer.x_scale self in
    let y_scale := TkFlameGraphRenderer.y_scale self in
    let sorted := py_sorted signature_of cs in
    let child_y := (y - y_scale)%Qc in
    let parent_box := TkFlameGraphRenderer.bounding_box self n x y in
    let parts :=
      placed_parts
        (λ child child_x,
           TkFlameGraphRenderer.render_call_tree fuel self w (fst child) child_x child_y)
        (TkFlameGraphRenderer.advance self) sorted x in
    sorted ≡ₚ cs ∧
    StronglySorted signature_le sorted ∧
    parent_box
    = (x, y, (x + x_scale * py_float (CallTreeNodeData.samples n))%Qc, (y + y_scale)%Qc) ∧
    TkFlameGraphRenderer.render_call_tree (S fuel) self w a x y
    = (Ok (),
       node_rectangle self (a, n) x y
       :: snd (TkFlameGraphRenderer.text self a n x y) ++ concat parts) ∧
    (∀ i c, sorted !! i = Some c →
       let child_x :=
         foldl (λ child_x r,
                  (child_x + x_scale * py_float (CallTreeNodeData.samples (snd r)))%Qc)
           x (take i sorted) in
       let drawn :=
         snd (TkFlameGraphRenderer.render_call_tree fuel self w (fst c) child_x child_y) in
       parts !! i = Some drawn ∧
       head drawn = Some (node_rectangle self c child_x child_y) ∧
       TkFlameGraphRenderer.bounding_box self (snd c) child_x child_y
       = (child_x, child_y,
          (child_x + x_scale * py_float (CallTreeNodeData.samples (snd c)))%Qc,
          (child_y + y_scale)%Qc)) ∧
    (∀ part b fill node,
       parts !! 0 = Some part → head part = Some (Rectangle b fill node) →
       bbox_left b = bbox_left parent_box) ∧
    (∀ i part part' b b' fill fill' node node',
       parts !! i = Some part → parts !! S i = Some part' →
       head part = Some (Rectangle b fill node) →
       head part' = Some (Rectangle b' fill' node') →
       bbox_left b' = bbox_right b ∧
       bbox_top b' = bbox_top b ∧
       bbox_bottom b' = bbox_bottom b).
Proof.
  intros Hwf _ Hcw%scales_character_width Hn Hfuel.
  destruct (render_call_tree_parts self w Hwf Hcw fuel a n x y Hn Hfuel)
    as (cs & Hcs & Hrender).
  exists cs. split; [done|]. cbv zeta.
  pose proof (py_sorted_Permutation signature_of cs) as Hperm.
  assert (∀ i part, 
    placed_parts
      (λ child child_x,
         TkFlameGraphRenderer.render_call_tree fuel self w (fst child) child_x
           (y - TkFlameGraphRenderer.y_scale self)%Qc)
      (TkFlameGraphRenderer.advance self) (py_sorted signature_of cs) x !! i = Some part →
    ∃ c, py_sorted signature_of cs !! i = Some c ∧
         head part
         = Some (node_rectangle self c (placed_at self (py_sorted signature_of cs) x i)
                   (y - TkFlameGraphRenderer.y_scale self)%Qc)) as Hpart.
  { intros i part Hi.
    destruct (lookup_lt_is_Some_2 (py_sorted signature_of cs) i) as [c Hc].
    { apply lookup_lt_Some in Hi. by rewrite placed_parts_length in Hi. }
    exists c. split; [done|].
    rewrite (placed_parts_lookup self _ _ x i c Hc) in Hi. injection Hi as <-.
    assert (c ∈ cs) as Hin.
    { rewrite <- Hperm. apply list_elem_of_lookup. by exists i. }
    destruct (deref_nodes_elem w _ cs c Hcs Hin) as [Hchild Hcn].
    destruct (Hwf a n (fst c) Hn Hchild) as [? ?].
    rewrite (render_call_tree_head self w Hwf Hcw fuel (fst c) (snd c)) by (done || lia).
    by destruct c. }
  split_and!; [done|apply py_sorted_StronglySorted|done|done| | |].
  - intros i c Hi.
    change (foldl _ x (take i (py_sorted signature_of cs)))
      with (foldl (λ child_x r, (child_x + TkFlameGraphRenderer.advance self r)%Qc) x
              (take i (py_sorted signature_of cs))).
    rewrite placed_at_foldl.
    pose proof (placed_parts_lookup self
                  (λ child child_x,
                     TkFlameGraphRenderer.render_call_tree fuel self w (fst child) child_x
                       (y - TkFlameGraphRenderer.y_scale self)%Qc)
                  _ x i c Hi) as Hlookup.
    destruct (Hpart i _ Hlookup) as (c' & Hc' & Hhead).
    rewrite Hi in Hc'. injection Hc' as <-.
    split_and!; [done|done|done].
  - intros part b fill node Hi Hhead.
    destruct (Hpart 0 part Hi) as (c & Hc & Hhead').
    rewrite Hhead in Hhead'. injection Hhead' as -> _ _.
    by rewrite placed_at_0.
  - intros i part part' b b' fill fill' node node' Hi Hi' Hhead Hhead'.
    destruct (Hpart i part Hi) as (c & Hc & Hrect).
    destruct (Hpart (S i) part' Hi') as (c' & Hc' & Hrect').
    rewrite Hhead in Hrect. injection Hrect as -> _ _.
    rewrite Hhead' in Hrect'. injection Hrect' as -> _ _.
    unfold bbox_left, bbox_right, bbox_top, bbox_bottom, TkFlameGraphRenderer.bounding_box.
    cbn [fst snd]. by rewrite (placed_at_next self _ x i c Hc).
Qed.

Lemma children_layout_witness :
  ∃ cs,
    deref_nodes example_world [1; 2] = Ok cs ∧
    py_sorted signature_of cs ≡ₚ cs ∧
    TkFlameGraphRenderer.render_call_tree 3 example_renderer example_world 0
      (Qc_of_Z 2) (Qc_of_Z 400)
    = (Ok (),
       node_rectangle example_renderer
         (0, CallTreeNodeData.mk "oracle.db.Connect" 1000 [1; 2]) (Qc_of_Z 2) (Qc_of_Z 400)
       :: snd (TkFlameGraphRenderer.text example_renderer 0
                 (CallTreeNodeData.mk "oracle.db.Connect" 1000 [1; 2])
                 (Qc_of_Z 2) (Qc_of_Z 400))
       ++ concat (placed_parts
                    (λ child child_x,
                       TkFlameGraphRenderer.render_call_tree 2 example_renderer
                         example_world (fst child) child_x
                         (Qc_of_Z 400 - Qc_of_Z 400)%Qc)
                    (TkFlameGraphRenderer.advance example_renderer)
                    (py_sorted signature_of cs) (Qc_of_Z 2))).
Proof.
  destruct (children_layout 2 example_renderer example_world 0
              (CallTreeNodeData.mk "oracle.db.Connect" 1000 [1; 2])
              (Qc_of_Z 2) (Qc_of_Z 400))
    as (cs & Hcs & Hperm & _ & _ & Hrender & _).
  - exact example_world_wf.
  - intros i m Hi. by repeat (destruct i as [|i]; [injection Hi as <-; vm_compute|]).
  - split_and!; [by vm_compute|by vm_compute|right; by vm_compute].
  - reflexivity.
  - simpl. lia.
  - exists cs. split_and!; [done|done|exact Hrender].
Defined.

(** [unit_renderer] is the renderer of the report with a negative count. *)
Lemma unit_renderer_init :
  TkFlameGraphRenderer.init 2 0 10 10 10 Colours.init negative_count_world
  = (Ok unit_renderer,
     World (nodes negative_count_world) (forests negative_count_world)
       [Toplevel.mk "report.txt" 10 10 []]).
Proof.
  vm_compute. f_equal. f_equal. unfold unit_renderer.
  f_equal; apply Qc_is_canon; reflexivity.
Qed.

(** C7, as stated, fails on a report that [int] reads: a node of 10 samples
    with children of 15 and -5 samples, which sum to 10; the child of 15
    samples ends at 17, right of its parent's 12. *)
Lemma children_layout_counterexample :
  ¬ children_contained_as_specified 1 unit_renderer negative_count_world 0
      (Qc_of_Z 2) (Qc_of_Z 5).
Proof.
  intros Hcontained.
  destruct (Hcontained (CallTreeNodeData.mk "p" 10 [1; 2])
              [(1, CallTreeNodeData.mk "p.a" 15 []);
               (2, CallTreeNodeData.mk "p.b" (-5) [])]
              eq_refl eq_refl ltac:(by vm_compute)
              (snd (TkFlameGraphRenderer.render_call_tree 1 unit_renderer
                      negative_count_world 1 (Qc_of_Z 2)
                      (Qc_of_Z 5 - TkFlameGraphRenderer.y_scale unit_renderer)%Qc))
              (TkFlameGraphRenderer.bounding_box unit_renderer
                 (CallTreeNodeData.mk "p.a" 15 []) (Qc_of_Z 2)
                 (Qc_of_Z 5 - TkFlameGraphRenderer.y_scale unit_renderer)%Qc)
              "white" 1) as [_ Hright].
  - left.
  - reflexivity.
  - by vm_compute in Hright.
Qed.

(** ** Constructing a renderer *)

Lemma py_float_eq_0 z : py_float z = 0%Qc ↔ z = 0%Z.
Proof. unfold py_float. rewrite <- Z2Qc_inj_0. apply Z2Qc_inj_iff. Qed.

Lemma node_depth_pos fuel w a d : CallTreeNode.depth fuel w a = Ok d → 1 ≤ d.
Proof.
  destruct fuel as [|fuel]; [done|]. simpl. unfold_M.
  destruct (deref_node w a); [|done..].
  destruct (result_mapM _ _); [|done..]. intros [= <-]. lia.
Qed.

Lemma forest_samples_roots w cf f S :
  forests w !! cf = Some f → CallForest.samples w cf = Ok S →
  ∃ rs, deref_nodes w (CallForestData.roots f) = Ok rs ∧ S = samples_of rs.
Proof.
  intros Hf%deref_forest_Ok. unfold CallForest.samples. unfold_M. rewrite Hf.
  destruct (result_mapM (deref_node w) (CallForestData.roots f)) as [ns| |] eqn:Hns;
    [|done..].
  intros [= <-]. apply result_mapM_Ok in Hns.
  exists (zip (CallForestData.roots f) ns). split.
  - apply deref_nodes_Ok. revert Hns. generalize (CallForestData.roots f).
    intros l Hns. induction Hns as [|a n l ns Hn _ IH]; simpl; [constructor|].
    constructor; [|done]. split; [done|]. by apply deref_node_Ok.
  - unfold samples_of. f_equal. revert Hns. generalize (CallForestData.roots f).
    intros l Hns. induction Hns as [|a n l ns Hn _ IH]; [done|].
    rewrite !fmap_cons. simpl. by f_equal.
Qed.

(** On a forest with samples, [init] returns a renderer with the scales of
    the drawing area and opens a window for it. *)
Lemma init_Ok fuel cf measure width height colours w f S :
  heap_wf w →
  forests w !! cf = Some f →
  forest_wf w f →
  length (nodes w) ≤ fuel →
  CallForest.samples w cf = Ok S →
  S ≠ 0%Z →
  converts_to_float S →
  converts_to_float width →
  converts_to_float height →
  ∃ d self,
    CallForest.depth fuel w cf = Ok d ∧ 0 < d ∧
    TkFlameGraphRenderer.init fuel cf measure width height colours w
    = (Ok self,
       World (nodes w) (forests w)
         (windows w ++ [Toplevel.mk (CallForestData.name f) width height []])) ∧
    TkFlameGraphRenderer.call_forest self = cf ∧
    TkFlameGraphRenderer.width self = width ∧
    TkFlameGraphRenderer.height self = height ∧
    TkFlameGraphRenderer.colours self = colours ∧
    TkFlameGraphRenderer.character_width self = (Q2Qc (1 # 10) * py_float measure)%Qc ∧
    TkFlameGraphRenderer.x_scale self = (py_float width / py_float S)%Qc ∧
    TkFlameGraphRenderer.y_scale self = (py_float height / py_float (Z.of_nat d))%Qc ∧
    TkFlameGraphRenderer.top self = length (windows w).
Proof.
  intros Hwf Hf Hroots Hfuel HS HS0 HSfloat Hwidth Hheight.
  destruct (forest_depth_roots fuel w cf f Hwf Hf Hroots Hfuel) as (ds & Hds & Hd).
  set (d := py_max_or_0 ds) in *.
  assert (0 < d) as Hdpos.
  { destruct (forest_samples_roots w cf f S Hf HS) as (rs & Hrs & ->).
    assert (ds ≠ []) as Hne.
    { intros ->. apply Forall2_nil_inv_r in Hds. rewrite Hds in Hrs.
      simpl in Hrs. by injection Hrs as <-. }
    apply py_max_or_0_attained, list_elem_of_lookup in Hne as [i Hi].
    destruct (Forall2_lookup_r _ _ _ _ _ Hds Hi) as (r & _ & Hr).
    apply node_depth_pos in Hr. fold d in Hr. lia. }
  exists d.
  exists (TkFlameGraphRenderer.mk cf width height colours
            (Q2Qc (1 # 10) * py_float measure)%Qc
            (Qc_of_Z 3 * (Q2Qc (1 # 10) * py_float measure))%Qc 10%Z
            (py_float width / py_float S)%Qc
            (py_float height / py_float (Z.of_nat d))%Qc
            (length (windows w))).
  split_and!; [done|done| |reflexivity..].
  unfold TkFlameGraphRenderer.init, py_float_div_int, py_float_of. unfold_M.
  rewrite !decide_True by done. rewrite HS, Hd.
  rewrite decide_True by done. unfold py_float_div.
  rewrite decide_False by (by intros ?%py_float_eq_0).
  rewrite decide_False by (intros ?%py_float_eq_0; lia).
  apply deref_forest_Ok in Hf. by rewrite Hf.
Qed.

(** On a forest without samples, [init] raises from its first division and
    changes nothing. *)
Lemma init_zero_samples fuel cf measure width height colours w :
  converts_to_float width →
  CallForest.samples w cf = Ok 0%Z →
  TkFlameGraphRenderer.init fuel cf measure width height colours w
  = (Raise ZeroDivisionError, w).
Proof.
  intros Hwidth HS.
  unfold TkFlameGraphRenderer.init, py_float_div_int, py_float_of. unfold_M.
  rewrite decide_True by done. rewrite HS.
  rewrite decide_True by (by vm_compute).
  unfold py_float_div. by rewrite decide_True by (by apply py_float_eq_0).
Qed.

(** A width or a sum of samples beyond the range of a double makes [init]
    raise from the conversion, before anything else. *)
Lemma init_overflow_width fuel cf measure width height colours w :
  ¬ converts_to_float width →
  TkFlameGraphRenderer.init fuel cf measure width height colours w
  = (Raise OverflowError, w).
Proof.
  intros Hwidth. unfold TkFlameGraphRenderer.init, py_float_of. unfold_M.
  by rewrite decide_False by done.
Qed.

Lemma init_overflow_samples fuel cf measure width height colours w S :
  converts_to_float width →
  CallForest.samples w cf = Ok S →
  ¬ converts_to_float S →
  TkFlameGraphRenderer.init fuel cf measure width height colours w
  = (Raise OverflowError, w).
Proof.
  intros Hwidth HS HSfloat.
  unfold TkFlameGraphRenderer.init, py_float_div_int, py_float_of. unfold_M.
  rewrite decide_True by done. rewrite HS. by rewrite decide_False by done.
Qed.

(** ** What drawing leaves alone *)

Lemma draw_frame t g w :
  nodes (TkFlameGraphRenderer.draw t g w) = nodes w ∧
  forests (TkFlameGraphRenderer.draw t g w) = forests w ∧
  length (windows (TkFlameGraphRenderer.draw t g w)) = length (windows w) ∧
  (∀ i, i ≠ t → windows (TkFlameGraphRenderer.draw t g w) !! i = windows w !! i) ∧
  (∀ win, windows w !! t = Some win →
     windows (TkFlameGraphRenderer.draw t g w) !! t
     = Some (Toplevel.mk (Toplevel.title win) (Toplevel.canvas_width win)
               (Toplevel.canvas_height win) (g (Toplevel.canvas win)))).
Proof.
  unfold TkFlameGraphRenderer.draw.
  destruct (windows w !! t) as [win|] eqn:Hwin; simpl.
  - split_and!; [done|done|by rewrite length_insert| |].
    + intros i Hi. by rewrite list_lookup_insert_ne.
    + intros win' [= <-]. apply list_lookup_insert_eq. by eapply lookup_lt_Some.
  - by split_and!.
Qed.

(** [render] touches nothing but the canvas of its own window. *)
Lemma render_frame fuel self w res w' :
  TkFlameGraphRenderer.render fuel self w = (res, w') →
  nodes w' = nodes w ∧
  forests w' = forests w ∧
  length (windows w') = length (windows w) ∧
  (∀ i, i ≠ TkFlameGraphRenderer.top self → windows w' !! i = windows w !! i) ∧
  (∀ win, windows w !! TkFlameGraphRenderer.top self = Some win →
     ∃ canvas,
       windows w' !! TkFlameGraphRenderer.top self
       = Some (Toplevel.mk (Toplevel.title win) (Toplevel.canvas_width win)
                 (Toplevel.canvas_height win) canvas)).
Proof.
  unfold TkFlameGraphRenderer.render.
  destruct (TkFlameGraphRenderer.render_items fuel self w) as [r items].
  set (t := TkFlameGraphRenderer.top self).
  destruct (draw_frame t (λ c, c ++ items) w) as (Hn1 & Hf1 & Hl1 & Hne1 & Hat1).
  set (w1 := TkFlameGraphRenderer.draw t (λ c, c ++ items) w) in *.
  destruct (draw_frame t TkFlameGraphRenderer.tag_raise_signature w1)
    as (Hn2 & Hf2 & Hl2 & Hne2 & Hat2).
  destruct r as [[]|e|]; intros [= <- <-].
  - split_and!; [congruence..| |].
    + intros i Hi. by rewrite Hne2, Hne1.
    + intros win Hwin. eexists. rewrite (Hat2 _ (Hat1 win Hwin)). done.
  - split_and!; [done..|]. intros win Hwin. eexists. by rewrite (Hat1 win Hwin).
  - split_and!; [done..|]. intros win Hwin. eexists. by rewrite (Hat1 win Hwin).
Qed.

(** [init] changes nothing, except that on success it opens a window of
    the given size, titled with the forest's name. *)
Lemma init_frame fuel cf measure width height colours w res w' :
  TkFlameGraphRenderer.init fuel cf measure width height colours w = (res, w') →
  nodes w' = nodes w ∧
  forests w' = forests w ∧
  match res with
  | Ok self =>
      ∃ f, forests w !! cf = Some f ∧
        windows w' = windows w ++ [Toplevel.mk (CallForestData.name f) width height []] ∧
        TkFlameGraphRenderer.top self = length (windows w) ∧
        TkFlameGraphRenderer.call_forest self = cf ∧
        TkFlameGraphRenderer.width self = width ∧
        TkFlameGraphRenderer.height self = height
  | _ => windows w' = windows w
  end.
Proof.
  unfold TkFlameGraphRenderer.init. unfold_M.
  destruct (py_float_of width); [|by intros [= <- <-]..].
  destruct (CallForest.samples w cf); [|by intros [= <- <-]..].
  destruct (py_float_div_int _ _); [|by intros [= <- <-]..].
  destruct (py_float_of height); [|by intros [= <- <-]..].
  destruct (CallForest.depth fuel w cf); [|by intros [= <- <-]..].
  destruct (py_float_div _ _); [|by intros [= <- <-]..].
  destruct (deref_forest w cf) as [f| |] eqn:Hf; [|by intros [= <- <-]..].
  unfold TkFlameGraphRenderer.new_window. intros [= <- <-]. simpl.
  split_and!; [done..|]. exists f. apply deref_forest_Ok in Hf. by split_and!.
Qed.

(** ** Zoom *)

(** [zoom_in] wraps the chosen node in a new forest and lays that out. *)
Lemma zoom_in_new_forest fuel self measure a n w :
  nodes w !! a = Some n →
  TkFlameGraphRenderer.zoom_in fuel self measure a w =
    (new_renderer ←
       TkFlameGraphRenderer.init fuel (length (forests w)) measure
         (TkFlameGraphRenderer.width self) (TkFlameGraphRenderer.height self)
         (TkFlameGraphRenderer.colours self);
     TkFlameGraphRenderer.render fuel new_renderer)
      (World (nodes w)
         (forests w ++ [CallForestData.mk (CallTreeNodeData.signature n) [a]])
         (windows w)).
Proof.
  intros Hn. unfold TkFlameGraphRenderer.zoom_in. unfold_M.
  unfold deref_node. rewrite Hn. unfold CallForest.init, CallForest.add_root.
  cbn [forests nodes windows].
  rewrite lookup_app_r, Nat.sub_diag by lia. cbn [lookup list_lookup].
  rewrite insert_app_r_alt, Nat.sub_diag by lia. done.
Qed.

Lemma zoom_forest_samples w a n :
  nodes w !! a = Some n →
  CallForest.samples
    (World (nodes w)
       (forests w ++ [CallForestData.mk (CallTreeNodeData.signature n) [a]])
       (windows w))
    (length (forests w))
  = Ok (CallTreeNodeData.samples n).
Proof.
  intros Hn. unfold CallForest.samples, deref_forest. unfold_M.
  cbn [forests]. rewrite lookup_app_r, Nat.sub_diag by lia. simpl.
  unfold_M. unfold deref_node. simpl. rewrite Hn. f_equal.
  unfold py_sum. simpl. lia.
Qed.

(** C1, as amended: laying out a forest whose samples sum to 0 fails, and
    the failure is Python's [ZeroDivisionError], raised by the division
    that computes [x_scale]; no guard and no error named [EmptyForest] is
    involved.  This is so for every width a double can hold; a larger one
    fails earlier, with [OverflowError] from [float(width)].  Either way
    the store is left as it was: no window is opened and no node, forest
    or earlier window changes.  Zooming into any node without samples, in
    any store, fails with [ZeroDivisionError] too, leaving behind only the
    new forest.  The font measure is a pixel count, within a machine
    word. *)
Theorem zero_samples_layout_fails (fuel : nat) (measure : Z) (w : world) :
  word_sized measure →
  (∀ cf width height colours,
     CallForest.samples w cf = Ok 0%Z →
     if decide (converts_to_float width)
     then TkFlameGraphRenderer.init fuel cf measure width height colours w
          = (Raise ZeroDivisionError, w) ∧
          py_float_div_int (py_float width) 0 = Raise ZeroDivisionError
     else TkFlameGraphRenderer.init fuel cf measure width height colours w
          = (Raise OverflowError, w)) ∧
  (∀ self a n,
     converts_to_float (TkFlameGraphRenderer.width self) →
     nodes w !! a = Some n → CallTreeNodeData.samples n = 0%Z →
     TkFlameGraphRenderer.zoom_in fuel self measure a w
     = (Raise ZeroDivisionError,
        World (nodes w)
          (forests w ++ [CallForestData.mk (CallTreeNodeData.signature n) [a]])
          (windows w))).
Proof.
  intros _. split.
  - intros cf width height colours HS.
    destruct (decide (converts_to_float width)) as [Hwidth|Hwidth].
    + split; [by apply init_zero_samples|].
      unfold py_float_div_int, py_float_of. unfold_M.
      rewrite decide_True by (by vm_compute).
      unfold py_float_div. by rewrite decide_True by (by apply py_float_eq_0).
    + by apply init_overflow_width.
  - intros self a n Hwidth Hn Hzero.
    rewrite (zoom_in_new_forest fuel self measure a n w Hn).
    unfold_M. rewrite init_zero_samples; [done|done|].
    rewrite <- Hzero. by apply zoom_forest_samples.
Qed.

Lemma zero_samples_layout_fails_witness :
  TkFlameGraphRenderer.init 2 0 100 1200 800 Colours.init empty_forest_world
  = (Raise ZeroDivisionError, empty_forest_world) ∧
  TkFlameGraphRenderer.zoom_in 2 example_renderer 100 1 idle_child_world
  = (Raise ZeroDivisionError,
     World (nodes idle_child_world)
       (forests idle_child_world ++ [CallForestData.mk "busy.idle" [1]])
       (windows idle_child_world)).
Proof.
  split.
  - destruct (zero_samples_layout_fails 2 100 empty_forest_world ltac:(by vm_compute))
      as [Hinit _].
    by destruct (Hinit 0 1200%Z 800%Z Colours.init eq_refl) as [? _].
  - destruct (zero_samples_layout_fails 2 100 idle_child_world ltac:(by vm_compute))
      as [_ Hzoom].
    apply (Hzoom example_renderer 1 (CallTreeNodeData.mk "busy.idle" 0 []));
      [by vm_compute|reflexivity|reflexivity].
Defined.

(** C1, as stated, fails on a forest without roots: what is raised is
    [ZeroDivisionError], not an error named [EmptyForest]. *)
Lemma zero_samples_counterexample :
  ¬ init_as_specified 1 0 100 1200 800 Colours.init empty_forest_world.
Proof.
  intros H. destruct (H eq_refl) as (e & w' & Hinit & Hname).
  rewrite init_zero_samples in Hinit by (done || by vm_compute).
  by injection Hinit as <- <-.
Qed.

(** C8: zooming into a node creates one new forest, named after the
    node's signature, whose only root is a reference to that node, and
    lays it out with this view's width and height; every node and every
    forest that existed is unchanged, as is every window that existed;
    on success there is one new window, of this view's size. *)
Theorem zoom_in_frame (fuel : nat) (self : TkFlameGraphRenderer.t) (measure : Z)
    (a : addr) (n : CallTreeNodeData.t) (w : world) :
  nodes w !! a = Some n →
  let new_forest := CallForestData.mk (CallTreeNodeData.signature n) [a] in
  let w1 := World (nodes w) (forests w ++ [new_forest]) (windows w) in
  ∃ res w',
    TkFlameGraphRenderer.zoom_in fuel self measure a w = (res, w') ∧
    (new_renderer ←
       TkFlameGraphRenderer.init fuel (length (forests w)) measure
         (TkFlameGraphRenderer.width self) (TkFlameGraphRenderer.height self)
         (TkFlameGraphRenderer.colours self);
     TkFlameGraphRenderer.render fuel new_renderer) w1 = (res, w') ∧
    nodes w' = nodes w ∧
    forests w' = forests w ++ [new_forest] ∧
    (∀ i f, forests w !! i = Some f → forests w' !! i = Some f) ∧
    (∀ i win, windows w !! i = Some win → windows w' !! i = Some win) ∧
    (res = Ok () →
       ∃ canvas,
         windows w'
         = windows w ++ [Toplevel.mk (CallTreeNodeData.signature n)
                           (TkFlameGraphRenderer.width self)
                           (TkFlameGraphRenderer.height self) canvas]).
Proof.
  intros Hn new_forest w1.
  rewrite (zoom_in_new_forest fuel self measure a n w Hn). fold new_forest w1.
  unfold_M.
  destruct (TkFlameGraphRenderer.init fuel (length (forests w)) measure
              (TkFlameGraphRenderer.width self) (TkFlameGraphRenderer.height self)
              (TkFlameGraphRenderer.colours self) w1) as [r w2] eqn:Hinit.
  destruct (init_frame _ _ _ _ _ _ _ _ _ Hinit) as (Hn2 & Hf2 & Hwin2).
  subst w1. cbn [nodes forests windows] in Hn2, Hf2, Hwin2.
  assert (∀ w', nodes w' = nodes w2 → forests w' = forests w2 →
    nodes w' = nodes w ∧ forests w' = forests w ++ [new_forest] ∧
    ∀ i f, forests w !! i = Some f → forests w' !! i = Some f) as Hframe.
  { intros w' -> ->. rewrite Hn2, Hf2. split_and!; [done..|].
    intros i f Hf. by apply lookup_app_l_Some. }
  destruct r as [new_renderer|e|].
  - destruct Hwin2 as (f & Hf & Hwin2 & Htop & _ & _ & _).
    assert (f = new_forest) as ->.
    { rewrite lookup_app_r, Nat.sub_diag in Hf by lia. by injection Hf. }
    destruct (TkFlameGraphRenderer.render fuel new_renderer w2) as [res w'] eqn:Hrender.
    destruct (render_frame _ _ _ _ _ Hrender) as (Hn3 & Hf3 & Hlen3 & Hne3 & Hat3).
    exists res, w'. destruct (Hframe w' Hn3 Hf3) as (? & ? & ?).
    split_and!; [done..| |].
    + intros i win Hwin. pose proof (lookup_lt_Some _ _ _ Hwin).
      rewrite Hne3 by (rewrite Htop; lia).
      rewrite Hwin2. by apply lookup_app_l_Some.
    + intros _. destruct (Hat3 (Toplevel.mk (CallForestData.name new_forest)
                                 (TkFlameGraphRenderer.width self)
                                 (TkFlameGraphRenderer.height self) []))
        as [canvas Hcanvas].
      { rewrite Hwin2, Htop. by rewrite lookup_app_r, Nat.sub_diag by lia. }
      exists canvas. apply list_eq. intros i.
      destruct (decide (i = TkFlameGraphRenderer.top new_renderer)) as [->|Hi].
      * rewrite Hcanvas, Htop. by rewrite lookup_app_r, Nat.sub_diag by lia.
      * rewrite (Hne3 i Hi), Hwin2. rewrite Htop in Hi.
        destruct (decide (i < length (windows w))).
        -- by rewrite !lookup_app_l by done.
        -- rewrite !lookup_app_r by lia.
           destruct (i - length (windows w)) as [|k] eqn:Hk; [lia|done].
  - exists (Raise e), w2. destruct (Hframe w2 eq_refl eq_refl) as (? & ? & ?).
    split_and!; [done..| |done]. intros i win Hwin. by rewrite Hwin2.
  - exists Stuck, w2. destruct (Hframe w2 eq_refl eq_refl) as (? & ? & ?).
    split_and!; [done..| |done]. intros i win Hwin. by rewrite Hwin2.
Qed.

Lemma zoom_in_frame_witness :
  ∃ res w',
    TkFlameGraphRenderer.zoom_in 3 example_renderer 100 1 example_world = (res, w') ∧
    nodes w' = nodes example_world ∧
    forests w'
    = forests example_world ++ [CallForestData.mk "oracle.db.Connect.open" [1]].
Proof.
  destruct (zoom_in_frame 3 example_renderer 100 1
              (CallTreeNodeData.mk "oracle.db.Connect.open" 400 []) example_world)
    as (res & w' & Hzoom & _ & Hnodes & Hforests & _); [reflexivity|].
  by exists res, w'.
Defined.

(** ** Layout of the roots *)

Lemma render_items_parts fuel self w f :
  heap_wf w →
  (TkFlameGraphRenderer.character_width self ≠ 0)%Qc →
  forests w !! TkFlameGraphRenderer.call_forest self = Some f →
  forest_wf w f →
  length (nodes w) ≤ fuel →
  ∃ rs,
    deref_nodes w (CallForestData.roots f) = Ok rs ∧
    TkFlameGraphRenderer.render_items fuel self w
    = (Ok (),
       concat (placed_parts
                 (λ root x,
                    TkFlameGraphRenderer.render_call_tree fuel self w (fst root) x
                      (py_float (TkFlameGraphRenderer.height self)
                       - TkFlameGraphRenderer.y_scale self)%Qc)
                 (TkFlameGraphRenderer.advance self)
                 (py_sorted signature_of rs) (Qc_of_Z 2))).
Proof.
  intros Hwf Hcw Hf Hroots Hfuel.
  destruct (deref_nodes_total w (CallForestData.roots f)) as [rs Hrs]; [done|].
  exists rs. split; [done|]. unfold TkFlameGraphRenderer.render_items.
  unfold_Canvas. apply deref_forest_Ok in Hf. rewrite Hf, Hrs. cbv iota beta.
  rewrite for_each_placed_parts; [done|].
  intros r x Hr. rewrite py_sorted_Permutation in Hr.
  destruct (deref_nodes_elem w _ rs r Hrs Hr) as [Hr' _].
  apply render_call_tree_total; [done..|by apply Hroots|lia].
Qed.

(** C4, as amended: [render] draws the roots in ascending order of
    signature; root [i] is placed at x = 2.0 plus the widths of the roots
    before it, so the first root's rectangle begins at x = 2.0, not 0; its
    width is [x_scale * samples]; and its row spans from one [y_scale]
    above the bottom edge of the canvas down to that edge. *)
Theorem roots_layout (fuel : nat) (self : TkFlameGraphRenderer.t) (w : world)
    (f : CallForestData.t) :
  heap_wf w →
  (TkFlameGraphRenderer.character_width self ≠ 0)%Qc →
  forests w !! TkFlameGraphRenderer.call_forest self = Some f →
  forest_wf w f →
  length (nodes w) ≤ fuel →
  ∃ rs,
    deref_nodes w (CallForestData.roots f) = Ok rs ∧
    let x_scale := TkFlameGraphRenderer.x_scale self in
    let y_scale := TkFlameGraphRenderer.y_scale self in
    let bottom := py_float (TkFlameGraphRenderer.height self) in
    let sorted := py_sorted signature_of rs in
    let y := (bottom - y_scale)%Qc in
    let parts :=
      placed_parts
        (λ root x, TkFlameGraphRenderer.render_call_tree fuel self w (fst root) x y)
        (TkFlameGraphRenderer.advance self) sorted (Qc_of_Z 2) in
    sorted ≡ₚ rs ∧
    StronglySorted signature_le sorted ∧
    TkFlameGraphRenderer.render_items fuel self w = (Ok (), concat parts) ∧
    TkFlameGraphRenderer.render fuel self w
    = (Ok (),
       TkFlameGraphRenderer.draw (TkFlameGraphRenderer.top self)
         TkFlameGraphRenderer.tag_raise_signature
         (TkFlameGraphRenderer.draw (TkFlameGraphRenderer.top self)
            (λ c, c ++ concat parts) w)) ∧
    (∀ i r, sorted !! i = Some r →
       let x := (Qc_of_Z 2 + x_scale * py_float (samples_of (take i sorted)))%Qc in
       let drawn :=
         snd (TkFlameGraphRenderer.render_call_tree fuel self w (fst r) x y) in
       parts !! i = Some drawn ∧
       head drawn = Some (node_rectangle self r x y) ∧
       TkFlameGraphRenderer.bounding_box self (snd r) x y
       = (x, (bottom - y_scale)%Qc,
          (x + x_scale * py_float (CallTreeNodeData.samples (snd r)))%Qc, bottom)) ∧
    (∀ r, sorted !! 0 = Some r →
       head (snd (TkFlameGraphRenderer.render_items fuel self w))
       = Some (node_rectangle self r (Qc_of_Z 2) y)).
Proof.
  intros Hwf Hcw Hf Hroots Hfuel.
  destruct (render_items_parts fuel self w f Hwf Hcw Hf Hroots Hfuel)
    as (rs & Hrs & Hitems).
  exists rs. split; [done|]. cbv zeta.
  pose proof (py_sorted_Permutation signature_of rs) as Hperm.
  assert (∀ i r x, py_sorted signature_of rs !! i = Some r →
    head (snd (TkFlameGraphRenderer.render_call_tree fuel self w (fst r) x
                 (py_float (TkFlameGraphRenderer.height self)
                  - TkFlameGraphRenderer.y_scale self)%Qc))
    = Some (node_rectangle self r x
              (py_float (TkFlameGraphRenderer.height self)
               - TkFlameGraphRenderer.y_scale self)%Qc)) as Hhead.
  { intros i r x Hi.
    assert (r ∈ rs) as Hr.
    { rewrite <- Hperm. apply list_elem_of_lookup. by exists i. }
    destruct (deref_nodes_elem w _ rs r Hrs Hr) as [Hr' Hrn].
    rewrite (render_call_tree_head self w Hwf Hcw fuel (fst r) (snd r)) by (done || lia).
    by destruct r. }
  split_and!; [done|apply py_sorted_StronglySorted|done| | |].
  - unfold TkFlameGraphRenderer.render. by rewrite Hitems.
  - intros i r Hi. split_and!.
    + by rewrite (placed_parts_lookup self _ _ _ i r Hi).
    + by eapply Hhead.
    + unfold TkFlameGraphRenderer.bounding_box. do 3 f_equal. ring.
  - intros r Hr. rewrite Hitems. cbn [snd].
    pose proof (Hhead 0 r (Qc_of_Z 2) Hr) as Hh.
    destruct (py_sorted signature_of rs) as [|r' l]; [done|].
    injection Hr as ->. cbn [placed_parts concat].
    destruct (snd (TkFlameGraphRenderer.render_call_tree _ _ _ _ _ _)); [done|].
    done.
Qed.

Lemma roots_layout_witness :
  head (snd (TkFlameGraphRenderer.render_items 3 example_renderer example_world))
  = Some (node_rectangle example_renderer
            (0, CallTreeNodeData.mk "oracle.db.Connect" 1000 [1; 2])
            (Qc_of_Z 2) (py_float 800 - Qc_of_Z 400)%Qc).
Proof.
  destruct (roots_layout 3 example_renderer example_world
              (CallForestData.mk "report.txt" [0]))
    as (rs & Hrs & _ & _ & _ & _ & _ & Hfirst).
  - exact example_world_wf.
  - done.
  - reflexivity.
  - intros r Hr. apply list_elem_of_singleton in Hr as ->. simpl. lia.
  - simpl. lia.
  - apply Hfirst. vm_compute in Hrs. by injection Hrs as <-.
Defined.

(** C4, as stated, fails on the example report: the first root's
    rectangle begins at x = 2.0. *)
Lemma roots_layout_counterexample :
  ¬ roots_layout_as_specified 3 example_renderer example_world.
Proof.
  intros H.
  specialize (H (CallForestData.mk "report.txt" [0])
                [(0, CallTreeNodeData.mk "oracle.db.Connect" 1000 [1; 2])]
                (0, CallTreeNodeData.mk "oracle.db.Connect" 1000 [1; 2])
                eq_refl eq_refl eq_refl).
  vm_compute in H. congruence.
Qed.

(** ** Scale *)

Lemma word_sized_converts n : word_sized n → converts_to_float n.
Proof.
  intros [Hlo Hhi]. unfold converts_to_float.
  apply Z.le_lt_trans with (2 ^ 63)%Z; [|by vm_compute].
  change (2 ^ 63)%Z with 9223372036854775808%Z in *. lia.
Qed.

(** Rendering into a window that was just opened. *)
Lemma render_new_window fuel self ns fs wins title cw ch items :
  TkFlameGraphRenderer.top self = length wins →
  TkFlameGraphRenderer.render_items fuel self
    (World ns fs (wins ++ [Toplevel.mk title cw ch []])) = (Ok (), items) →
  TkFlameGraphRenderer.render fuel self
    (World ns fs (wins ++ [Toplevel.mk title cw ch []]))
  = (Ok (),
     World ns fs
       (wins ++ [Toplevel.mk title cw ch
                   (TkFlameGraphRenderer.tag_raise_signature items)])).
Proof.
  intros Htop Hitems. unfold TkFlameGraphRenderer.render. rewrite Hitems, Htop.
  unfold TkFlameGraphRenderer.draw. cbn [windows nodes forests].
  rewrite lookup_app_r, Nat.sub_diag by lia. cbn [lookup list_lookup].
  cbn [windows nodes forests Toplevel.title Toplevel.canvas_width
       Toplevel.canvas_height Toplevel.canvas].
  rewrite insert_app_r_alt, Nat.sub_diag by lia. cbn [insert list_insert].
  rewrite lookup_app_r, Nat.sub_diag by lia. cbn [lookup list_lookup].
  cbn [windows nodes forests Toplevel.title Toplevel.canvas_width
       Toplevel.canvas_height Toplevel.canvas].
  rewrite insert_app_r_alt, Nat.sub_diag by lia. done.
Qed.

(** C9, as amended: for a forest with [S > 0] samples in all, laid out at
    width [W], where [S] is within the range of a double and width, height,
    font measure and counts are within that of a machine word: [init] and
    [render] succeed and, in exact arithmetic, [x_scale * S = W] and the
    widths of the root rectangles on the canvas, the first rectangle of
    what [render] draws for each root, sum to [W]. *)
Theorem scale_consistency (fuel : nat) (cf : addr) (measure width height : Z)
    (colours : Colours.t) (w : world) (f : CallForestData.t) (S : Z) :
  heap_wf w →
  forests w !! cf = Some f →
  forest_wf w f →
  length (nodes w) ≤ fuel →
  CallForest.samples w cf = Ok S →
  (0 < S)%Z →
  converts_to_float S →
  word_sized width →
  word_sized height →
  word_sized measure →
  measure ≠ 0%Z →
  counts_word_sized w →
  ∃ self w1 w2 rs canvas,
    TkFlameGraphRenderer.init fuel cf measure width height colours w = (Ok self, w1) ∧
    TkFlameGraphRenderer.render fuel self w1 = (Ok (), w2) ∧
    windows w2
    = windows w ++ [Toplevel.mk (CallForestData.name f) width height canvas] ∧
    deref_nodes w (CallForestData.roots f) = Ok rs ∧
    (TkFlameGraphRenderer.x_scale self * py_float S)%Qc = py_float width ∧
    let sorted := py_sorted signature_of rs in
    let y := (py_float height - TkFlameGraphRenderer.y_scale self)%Qc in
    let parts :=
      placed_parts
        (λ root x, TkFlameGraphRenderer.render_call_tree fuel self w1 (fst root) x y)
        (TkFlameGraphRenderer.advance self) sorted (Qc_of_Z 2) in
    let root_boxes := row_boxes self sorted (Qc_of_Z 2) y in
    canvas = TkFlameGraphRenderer.tag_raise_signature (concat parts) ∧
    Forall2 (λ part b, ∃ fill node, head part = Some (Rectangle b fill node))
      parts root_boxes ∧
    sum_Qc (bbox_width <$> root_boxes) = py_float width.
Proof.
  intros Hwf Hf Hroots Hfuel HS Hpos HSfloat Hwidth Hheight _ Hmeasure _.
  destruct (init_Ok fuel cf measure width height colours w f S Hwf Hf Hroots Hfuel HS)
    as (d & self & _ & _ & Hinit & Hcf & _ & Hh & _ & Hcw & Hxs & _ & Htop);
    [lia|done|by apply word_sized_converts..|].
  destruct (forest_samples_roots w cf f S Hf HS) as (rs & Hrs & HSrs).
  set (w1 := World (nodes w) (forests w)
               (windows w ++ [Toplevel.mk (CallForestData.name f) width height []])) in *.
  assert (TkFlameGraphRenderer.character_width self ≠ 0%Qc) as Hcw0.
  { rewrite Hcw. intros [H|H]%Qcmult_integral; [done|]. by apply py_float_eq_0 in H. }
  destruct (render_items_parts fuel self w1 f) as (rs' & Hrs' & Hitems);
    [done|done|by rewrite Hcf|done|done|].
  change (deref_nodes w1) with (deref_nodes w) in Hrs'.
  rewrite Hrs in Hrs'. injection Hrs' as <-. rewrite Hh in Hitems.
  eexists self, w1, _, rs, _.
  split_and!; [exact Hinit|by apply render_new_window|reflexivity|done| |].
  - rewrite Hxs. field. intros ?%py_float_eq_0. lia.
  - cbv zeta. split_and!; [done| |].
    + apply Forall2_same_length_lookup. split.
      { unfold row_boxes. by rewrite placed_parts_length, length_imap. }
      intros i part b Hpart Hb.
      destruct (lookup_lt_is_Some_2 (py_sorted signature_of rs) i) as [r Hr].
      { apply lookup_lt_Some in Hpart. by rewrite placed_parts_length in Hpart. }
      rewrite (placed_parts_lookup self _ _ _ i r Hr) in Hpart.
      rewrite (row_boxes_lookup self _ _ _ i r Hr) in Hb.
      injection Hpart as <-. injection Hb as <-.
      assert (r ∈ rs) as Hin.
      { rewrite <- (py_sorted_Permutation signature_of rs).
        by eapply list_elem_of_lookup_2. }
      destruct (deref_nodes_elem w _ rs r Hrs Hin) as [Hr' Hrn].
      eexists _, _. cbn [snd].
      rewrite (render_call_tree_head self w1 Hwf Hcw0 fuel (fst r) (snd r));
        [reflexivity|done|]. apply Hroots in Hr'. simpl. lia.
    + rewrite row_boxes_width,
        (samples_of_Permutation _ _ (py_sorted_Permutation _ rs)).
      rewrite <- HSrs, Hxs. field. intros ?%py_float_eq_0. lia.
Qed.

Lemma scale_consistency_witness :
  ∃ self w1 w2 rs canvas,
    TkFlameGraphRenderer.init 3 0 100 1200 800 Colours.init example_world = (Ok self, w1) ∧
    TkFlameGraphRenderer.render 3 self w1 = (Ok (), w2) ∧
    windows w2 = [Toplevel.mk "report.txt" 1200 800 canvas] ∧
    deref_nodes example_world [0] = Ok rs ∧
    (TkFlameGraphRenderer.x_scale self * py_float 1000)%Qc = py_float 1200 ∧
    sum_Qc (bbox_width <$>
              row_boxes self (py_sorted signature_of rs) (Qc_of_Z 2)
                (py_float 800 - TkFlameGraphRenderer.y_scale self)%Qc)
    = py_float 1200.
Proof.
  destruct (scale_consistency 3 0 100 1200 800 Colours.init example_world
              (CallForestData.mk "report.txt" [0]) 1000)
    as (self & w1 & w2 & rs & canvas & Hinit & Hrender & Hwin & Hrs & Hxs & _ & _ & Hsum).
  - exact example_world_wf.
  - reflexivity.
  - intros r Hr. apply list_elem_of_singleton in Hr as ->. simpl. lia.
  - simpl. lia.
  - reflexivity.
  - lia.
  - by vm_compute.
  - by vm_compute.
  - by vm_compute.
  - by vm_compute.
  - done.
  - intros [|[|[|a]]] n [= <-]; by vm_compute.
  - by exists self, w1, w2, rs, canvas.
Defined.

(** C9, as stated, fails on a forest whose samples a double cannot hold:
    the constructor raises [OverflowError] from the conversion of the sum,
    and nothing is laid out. *)
Lemma scale_consistency_counterexample :
  ¬ scale_as_specified 1 0 100 1200 800 Colours.init huge_count_world.
Proof.
  intros H. destruct (H (2 ^ 1024)%Z) as (self & w' & Hinit & _).
  - reflexivity.
  - by vm_compute.
  - rewrite (init_overflow_samples 1 0 100 1200 800 Colours.init huge_count_world
               (2 ^ 1024)) in Hinit; [done|by vm_compute|reflexivity|by vm_compute].
Qed.

(** ** From the parser to the layout *)

(** What the forest builder leaves behind is a store of the shape the
    layout properties ask for. *)
Lemma parser_inv_wf ts w self :
  parser_inv ts w self →
  heap_wf w ∧
  ∃ f, forests w !! JmcCallForestParser.call_forest self = Some f ∧ forest_wf w f.
Proof.
  intros Hinv. split.
  - intros a n c Hn Hc. rewrite (inv_length _ _ _ Hinv).
    by destruct (inv_child _ _ _ Hinv a n c Hn Hc).
  - destruct (inv_roots _ _ _ Hinv) as (f & Hf & Hroots).
    exists f. split; [done|]. intros r Hr. rewrite Hroots in Hr.
    rewrite (inv_length _ _ _ Hinv). clear Hroots Hf.
    assert (∀ k l, r ∈ depth0_lines k l → r < k + length l) as Hlt.
    { intros k l. revert k. induction l as [|t l IH]; intros k; simpl.
      - by intros ?%elem_of_nil.
      - intros [Hk|Hk]%elem_of_app.
        + destruct (decide (line_depth t = 0)); [|by apply elem_of_nil in Hk].
          apply list_elem_of_singleton in Hk as ->. lia.
        + apply IH in Hk. lia. }
    by apply (Hlt 0 ts).
Qed.

(** The forest the builder leaves has the samples of the depth-0 lines. *)
Lemma parser_inv_samples ts w self :
  parser_inv ts w self →
  CallForest.samples w (JmcCallForestParser.call_forest self) = Ok (root_samples ts).
Proof.
  intros Hinv. destruct (inv_roots _ _ _ Hinv) as (f & Hf & Hroots).
  unfold CallForest.samples. unfold_M. apply deref_forest_Ok in Hf.
  rewrite Hf, Hroots. unfold root_samples.
  assert (∀ l k, (∀ i t, l !! i = Some t → ts !! (k + i) = Some t) →
    ∃ ns, result_mapM (deref_node w) (depth0_lines k l) = Ok ns ∧
          CallTreeNodeData.samples <$> ns
          = line_samples <$> filter (λ t, line_depth t = 0) l) as Hsuffix.
  { induction l as [|t l IH]; intros k Hl; [by exists []|].
    destruct (IH (S k)) as (ns & Hns & Hsamples).
    { intros i t' Hi. specialize (Hl (S i) t' Hi).
      by replace (S k + i) with (k + S i) by lia. }
    simpl. rewrite filter_cons.
    destruct (decide (line_depth t = 0)) as [Hd|Hd]; simpl; [|by exists ns].
    destruct (inv_node _ _ _ Hinv k t) as [cs Hcs].
    { rewrite <- (Hl 0 t eq_refl). f_equal. lia. }
    eexists (_ :: ns). unfold_M. unfold deref_node at 1. rewrite Hcs, Hns.
    split; [done|]. rewrite !fmap_cons. simpl. by f_equal. }
  destruct (Hsuffix ts 0) as (ns & Hns & Hsamples); [done|].
  by rewrite Hns, Hsamples.
Qed.

(** The example report on the 1200 by 800 canvas of [main]: the root spans
    from x = 2 to x = 1202 in the bottom row; above it, [close] comes before
    [open] and takes 720 of the 1200 pixels. *)
Example main_example :
  let '(r, w) := main 3 "report.txt" example_lines 100 empty_world in
  r = Ok () ∧
  window_rectangles w 0
  = [ (0, (2, 400, 1202, 800)%Q);
      (2, (2, 0, 722, 400)%Q);
      (1, (722, 0, 1202, 400)%Q) ].
Proof. by vm_compute. Qed.

(** * Further properties *)

(** ** Sample counts *)

Lemma digits_value_uint d acc :
  digits_value (Z.of_nat acc) (NilEmpty.string_of_uint d) = Some (Z.of_nat (Nat.of_uint_acc d acc)).
Proof.
  revert acc. induction d; intros acc; simpl; [done|..];
    rewrite ?Nat.tail_mul_spec;
    match goal with
    | |- digits_value ?z _ = Some (Z.of_nat (Nat.of_uint_acc _ ?m)) =>
        replace z with (Z.of_nat m) by lia
    end; apply IHd.
Qed.

Lemma string_of_uint_digits d : all_chars is_digit (NilEmpty.string_of_uint d) = true.
Proof. induction d; simpl; done. Qed.

Lemma to_uint_not_Nil n : Nat.to_uint n ≠ Decimal.Nil.
Proof.
  intros H. pose proof (DecimalNat.Unsigned.of_to n) as Hn.
  rewrite H in Hn. simpl in Hn. subst n. done.
Qed.

Lemma decimal_digits n : decimal n ≠ "" ∧ all_chars is_digit (decimal n) = true.
Proof.
  unfold decimal, NilZero.string_of_uint.
  pose proof (to_uint_not_Nil n). pose proof (string_of_uint_digits (Nat.to_uint n)).
  by destruct (Nat.to_uint n).
Qed.

Lemma decimal_value n : digits_value 0 (decimal n) = Some (Z.of_nat n).
Proof.
  unfold decimal, NilZero.string_of_uint. pose proof (to_uint_not_Nil n).
  rewrite <- (DecimalNat.Unsigned.of_to n) at 2. unfold Nat.of_uint.
  destruct (Nat.to_uint n) eqn:E; [done|..]; rewrite <- E;
    apply (digits_value_uint _ 0).
Qed.

Lemma py_rstrip_digits_spaces ds r :
  ds ≠ "" → all_chars is_digit ds = true → all_chars Ascii.is_space r = true →
  py_rstrip (ds +:+ r) = ds.
Proof.
  intros Hne Hds Hr. induction ds as [|c ds IH]; [done|].
  rewrite app_cons. simpl. simpl in Hds. apply andb_true_iff in Hds as [Hc Hds].
  destruct ds as [|c' ds'].
  - rewrite app_empty_l, (py_rstrip_spaces r Hr). by rewrite (digit_not_space c Hc).
  - by rewrite IH.
Qed.

Lemma py_int_decimal n eol :
  all_chars Ascii.is_space eol = true → py_int (decimal n +:+ eol) = Ok (Z.of_nat n).
Proof.
  intros Heol. destruct (decimal_digits n) as [Hne Hds]. unfold py_int.
  assert (starts_with Ascii.is_space (decimal n +:+ eol) = false) as Hstart.
  { destruct (decimal n) as [|c ds]; [done|]. simpl in Hds.
    apply andb_true_iff in Hds as [Hc _]. by apply digit_not_space. }
  pose proof (py_lstrip_indent "" _ eq_refl Hstart) as Hl.
  rewrite app_empty_l in Hl. rewrite Hl.
  rewrite (py_rstrip_digits_spaces _ _ Hne Hds Heol).
  destruct (py_int_signed "" (decimal n) (or_introl eq_refl) Hne Hds) as (z & Hz & Hm).
  rewrite app_empty_l in Hm. rewrite Hm.
  rewrite decimal_value in Hz |- *. destruct (decimal n); [done|].
  by rewrite bool_decide_eq_false_2.
Qed.

Lemma py_remove_app c s t : py_remove c (s +:+ t) = py_remove c s +:+ py_remove c t.
Proof.
  induction s as [|a s IH]; [done|]. rewrite app_cons. simpl.
  destruct (Ascii.eqb a c); [done|]. by rewrite app_cons, IH.
Qed.

Lemma py_remove_absent c s :
  all_chars (λ a, negb (Ascii.eqb a c)) s = true → py_remove c s = s.
Proof.
  induction s as [|a s IH]; [done|]. simpl. intros [Ha Hs]%andb_true_iff.
  apply negb_true_iff in Ha. rewrite Ha. by rewrite IH.
Qed.

Lemma all_chars_impl (P Q : ascii → bool) s :
  (∀ a, P a = true → Q a = true) → all_chars P s = true → all_chars Q s = true.
Proof.
  intros HPQ. induction s as [|a s IH]; [done|]. simpl.
  intros [Ha Hs]%andb_true_iff. by rewrite (HPQ a Ha), IH.
Qed.

(** A string that is a numeral once its commas are removed holds no tab. *)
Lemma tab_free_grouped count :
  all_chars is_digit (py_remove ","%char count) = true → tab_free count = true.
Proof.
  unfold tab_free. induction count as [|a s IH]; [done|]. simpl.
  destruct (Ascii.eqb a ","%char) eqn:Ha.
  - apply Ascii.eqb_eq in Ha as ->. intros Hs. by rewrite IH.
  - simpl. intros [Hd Hs]%andb_true_iff. rewrite IH by done.
    by destruct a as [[] [] [] [] [] [] [] []].
Qed.

Lemma spaces_length k : String.length (spaces k) = k.
Proof. induction k as [|k IH]; simpl; [done|]. by rewrite IH. Qed.

Lemma spaces_is_space k :
  all_chars Ascii.is_space (spaces k) = true ∧ tab_free (spaces k) = true.
Proof. unfold tab_free. induction k as [|k [IH1 IH2]]; simpl; [done|]. by rewrite IH1, IH2. Qed.

(** X1: the decoder reads back a report line.  A line of [k] spaces, a
    signature (without tab or leading whitespace), a tab, the decimal
    numeral of [n] with commas anywhere in it, and the end of the line
    decodes to the depth [k / 3], that signature and the count [n]. *)
Theorem decode_report_line (k n : nat) (sig count eol : string) :
  tab_free sig = true →
  starts_with Ascii.is_space sig = false →
  py_remove ","%char count = decimal n →
  all_chars Ascii.is_space eol = true →
  tab_free eol = true →
  decodes ((spaces k +:+ sig) +:+ String tab (count +:+ eol))
    (Decoded (k / 3) sig (Z.of_nat n)).
Proof.
  intros Hsig Hstart Hcount Heol Heol_tab.
  destruct (spaces_is_space k) as [Hsp Hsp_tab].
  destruct (decimal_digits n) as [_ Hds].
  assert (tab_free (count +:+ eol) = true) as Hct.
  { rewrite tab_free_app, Heol_tab, tab_free_grouped; [done|]. by rewrite Hcount. }
  assert (tab_free (spaces k +:+ sig) = true) as H0
    by (by rewrite tab_free_app, Hsp_tab, Hsig).
  destruct (chunks_two_fields _ (count +:+ eol) "" H0 Hct (or_introl eq_refl))
    as [more Hchunks].
  rewrite app_empty_r in Hchunks.
  assert (JmcCallTreeLine.signature
            (JmcCallTreeLine.init ((spaces k +:+ sig) +:+ String tab (count +:+ eol)))
          = Ok sig) as Hsignature.
  { unfold JmcCallTreeLine.signature. rewrite Hchunks. simpl.
    by rewrite py_lstrip_indent. }
  unfold decodes. cbv zeta. simpl line_depth. simpl line_signature. simpl line_samples.
  split_and!; [|done|].
  - unfold JmcCallTreeLine.depth_below_root, JmcCallTreeLine.indentation.
    rewrite Hsignature, Hchunks. simpl.
    by rewrite length_app_s, spaces_length, Nat.add_sub.
  - unfold JmcCallTreeLine.samples. rewrite Hchunks. simpl.
    rewrite py_remove_app, Hcount, (py_remove_absent _ eol).
    + by apply py_int_decimal.
    + eapply all_chars_impl; [|exact Heol].
      by intros [[] [] [] [] [] [] [] []].
Qed.

Lemma decode_report_line_witness :
  decodes (("       " +:+ "a.b.C.run") +:+ String tab ("1,400" +:+ String "010" ""))
    (Decoded 2 "a.b.C.run" 1400).
Proof.
  apply (decode_report_line 7 1400 "a.b.C.run" "1,400" (String "010" ""));
    reflexivity.
Defined.

(** ** Colours *)

Lemma prefix_begins_with p s : String.prefix p s = true ↔ begins_with p s.
Proof.
  unfold begins_with. revert s. induction p as [|a p IH]; intros s.
  - split; [by exists s|]. by destruct s.
  - destruct s as [|b s]; simpl.
    + split; [done|]. by intros [rest ?].
    + destruct (ascii_dec a b) as [->|Hab].
      * rewrite IH. split; intros [rest Hrest]; exists rest.
        -- by rewrite app_cons, <- Hrest.
        -- rewrite app_cons in Hrest. by injection Hrest.
      * split; [done|]. intros [rest Hrest]. rewrite app_cons in Hrest.
        injection Hrest as ? ?. done.
Qed.

(** X2: [colour_for] gives the colour of the first rule whose prefix the
    signature begins with, and white when it begins with none. *)
Theorem colour_for_first_match (self : Colours.t) (node : CallTreeNodeData.t) :
  let rules := Colours.prefix_to_colour self in
  let sig := CallTreeNodeData.signature node in
  (∃ i prefix colour,
     rules !! i = Some (prefix, colour) ∧
     begins_with prefix sig ∧
     (∀ j prefix' colour', j < i → rules !! j = Some (prefix', colour') →
        ¬ begins_with prefix' sig) ∧
     Colours.colour_for self node = colour) ∨
  ((∀ prefix colour, (prefix, colour) ∈ rules → ¬ begins_with prefix sig) ∧
   Colours.colour_for self node = "white").
Proof.
  intros rules sig. unfold Colours.colour_for. fold rules sig.
  induction rules as [|[p c] rules IH]; simpl.
  - right. split; [|done]. by intros p c ?%elem_of_nil.
  - destruct (String.prefix p sig) eqn:Hp.
    + left. exists 0, p, c. split_and!; [done|by apply prefix_begins_with| |done].
      intros j ? ? Hj. lia.
    + assert (¬ begins_with p sig) as Hnp.
      { intros H%prefix_begins_with. congruence. }
      destruct IH as [(i & p' & c' & Hi & Hb & Hfirst & Hc)|[Hnone Hc]].
      * left. exists (S i), p', c'. split_and!; [done..| |done].
        intros [|j] p'' c'' Hj Hl; simpl in Hl.
        -- by injection Hl as <- <-.
        -- apply (Hfirst j p'' c''); [lia|done].
      * right. split; [|done]. intros p' c' [[= -> ->]|Hin]%elem_of_cons; [done|].
        by apply (Hnone p' c').
Qed.

(** ** Text *)

Lemma substring_0_prefix m s : ∃ b, s = String.substring 0 m s +:+ b.
Proof.
  revert m. induction s as [|c s IH]; intros m.
  - exists "". by destruct m.
  - destruct m as [|m]; simpl; [by exists (String c s)|].
    destruct (IH m) as [b Hb]. exists b. by rewrite app_cons, <- Hb.
Qed.

Lemma substring_infix n m s : ∃ a b, s = a +:+ String.substring n m s +:+ b.
Proof.
  revert n. induction s as [|c s IH]; intros n.
  - exists "", "". by destruct n, m.
  - destruct n as [|n].
    + destruct (substring_0_prefix m (String c s)) as [b Hb]. by exists "", b.
    + destruct (IH n) as (a & b & Hab). exists (String c a), b.
      simpl. by rewrite app_cons, <- Hab.
Qed.

Lemma substring_length_le n m s : String.length (String.substring n m s) ≤ m.
Proof.
  revert n m. induction s as [|c s IH]; intros n m.
  - destruct n, m; simpl; lia.
  - destruct n as [|n]; [|apply IH].
    destruct m as [|m]; simpl; [lia|]. specialize (IH 0 m). lia.
Qed.

Lemma py_slice_to_length s k :
  (0 ≤ k)%Z → (Z.of_nat (String.length (py_slice_to s k)) ≤ k)%Z.
Proof.
  intros Hk. unfold py_slice_to, py_clip. rewrite decide_False by lia.
  pose proof (substring_length_le 0 (Z.to_nat k `min` String.length s) s). lia.
Qed.

Lemma py_slice_from_neg_length s k :
  (0 < k)%Z → (Z.of_nat (String.length (py_slice_from s (- k))) ≤ k)%Z.
Proof.
  intros Hk. unfold py_slice_from, py_clip. rewrite decide_True by lia.
  pose proof (substring_length_le (Z.to_nat (Z.of_nat (String.length s) + - k))
                (String.length s - Z.to_nat (Z.of_nat (String.length s) + - k)) s). lia.
Qed.

Lemma py_slice_from_infix s k : ∃ a b, s = a +:+ py_slice_from s k +:+ b.
Proof. apply substring_infix. Qed.

Lemma py_slice_to_infix s k : ∃ a b, s = a +:+ py_slice_to s k +:+ b.
Proof. apply substring_infix. Qed.

Lemma label_infix sig k : ∃ before after, sig = before +:+ label sig k +:+ after.
Proof.
  unfold label. set (method := py_slice_from sig (py_rfind "."%char sig)).
  destruct (bool_decide _).
  - destruct (py_slice_to_infix method k) as (a & b & Hab).
    destruct (py_slice_from_infix sig (py_rfind "."%char sig)) as (a' & b' & Hab').
    fold method in Hab'. exists (a' +:+ a), (b +:+ b').
    rewrite Hab' at 1. rewrite Hab at 1. by rewrite !app_assoc_s.
  - apply py_slice_from_infix.
Qed.

(** X3: what [text] draws.  Whatever the scales and the font, [text] adds
    to the canvas nothing, or one text item bound to the node, and no
    rectangle; the characters of the item are the label cut for some room
    [k], and for every [k] the label is a contiguous part of the node's
    signature, of at most [k] characters when [k] is not negative. *)
Theorem text_draws_a_label (self : TkFlameGraphRenderer.t) (ref : addr)
    (node : CallTreeNodeData.t) (x y : Qc) :
  let sig := CallTreeNodeData.signature node in
  let drawn := snd (TkFlameGraphRenderer.text self ref node x y) in
  (drawn = [] ∨ ∃ pos k, drawn = [Text pos (label sig k) ref]) ∧
  ∀ k : Z,
    (∃ before after, sig = before +:+ label sig k +:+ after) ∧
    ((0 ≤ k)%Z → (Z.of_nat (String.length (label sig k)) ≤ k)%Z).
Proof.
  intros sig drawn. split.
  - subst drawn. unfold TkFlameGraphRenderer.text.
    destruct (_ && _); [|by left]. unfold_Canvas.
    destruct (py_float_div _ _) as [q| |]; [|by left..].
    right. eexists _, (py_int_of_float q). reflexivity.
  - intros k. split; [apply label_infix|].
    intros Hk. unfold label.
    destruct (bool_decide _) eqn:Hlen.
    + by apply py_slice_to_length.
    + apply bool_decide_eq_false in Hlen. apply py_slice_from_neg_length. lia.
Qed.

(** ** What a line does to the store *)

(** A line either decodes or makes [process_line] raise, whatever the
    state. *)
Lemma decode_or_raise line :
  (∃ t, decodes line t) ∨
  (∃ e, (e = IndexError ∨ e = ValueError) ∧
        ∀ self w, JmcCallForestParser.process_line self line w = (Raise e, w)).
Proof.
  destruct (depth_below_root_Ok line) as (field0 & more & Hc & Hd).
  destruct more as [|field1 more].
  - right. exists IndexError. split; [by left|].
    intros self w. apply process_line_decoder_raises.
    destruct (decode_cases line w) as (f0 & m & Hc' & ->).
    rewrite Hc in Hc'. by injection Hc' as <- <-.
  - destruct (py_int_cases (py_remove ","%char field1)) as [[n Hn]|HV].
    + left.
      exists (Decoded ((String.length field0 - String.length (py_lstrip field0)) / 3)
                (py_lstrip field0) n).
      split_and!; [exact Hd|..].
      * unfold JmcCallTreeLine.signature. by rewrite Hc.
      * unfold JmcCallTreeLine.samples. by rewrite Hc.
    + right. exists ValueError. split; [by right|].
      intros self w. apply process_line_decoder_raises.
      destruct (decode_cases line w) as (f0 & m & Hc' & ->).
      rewrite Hc in Hc'. injection Hc' as <- <-. by rewrite HV.
Qed.

Lemma node_kept_refl n : node_kept n n.
Proof. by split_and!. Qed.

Lemma store_grows_refl cf w : store_grows cf w w.
Proof.
  split_and!; [done..| |].
  - intros f Hf. by exists f.
  - intros a n Hn. exists n. split; [done|]. apply node_kept_refl.
Qed.

Lemma store_grows_trans cf w1 w2 w3 :
  store_grows cf w1 w2 → store_grows cf w2 w3 → store_grows cf w1 w3.
Proof.
  intros (Hw1 & Ho1 & Hf1 & Hn1) (Hw2 & Ho2 & Hf2 & Hn2). split_and!.
  - congruence.
  - intros i Hi. by rewrite Ho2, Ho1.
  - intros f Hf. destruct (Hf1 f Hf) as (f' & Hf' & Hname & Hroots).
    destruct (Hf2 f' Hf') as (f'' & Hf'' & Hname' & Hroots').
    exists f''. split_and!; [done|congruence|by etrans].
  - intros a n Hn. destruct (Hn1 a n Hn) as (n' & Hn' & Hs & Hm & Hc).
    destruct (Hn2 a n' Hn') as (n'' & Hn'' & Hs' & Hm' & Hc').
    exists n''. split; [done|]. split_and!; [congruence..|by etrans].
Qed.

Lemma process_line_grows self line w r w' :
  JmcCallForestParser.process_line self line w = (r, w') →
  store_grows (JmcCallForestParser.call_forest self) w w' ∧
  ∀ self', r = Ok self' →
    JmcCallForestParser.call_forest self' = JmcCallForestParser.call_forest self ∧
    JmcCallForestParser.filename self' = JmcCallForestParser.filename self.
Proof.
  destruct (decode_or_raise line) as [[t Ht]|(e & _ & He)].
  2:{ rewrite He. intros [= <- <-]. split; [apply store_grows_refl|done]. }
  rewrite (process_line_decoded self line t w Ht). cbv zeta.
  set (new := CallTreeNodeData.mk (line_signature t) (line_samples t) []).
  assert (store_grows (JmcCallForestParser.call_forest self) w
            (World (nodes w ++ [new]) (forests w) (windows w))) as Halloc.
  { split_and!; [done..| |].
    - intros f Hf. by exists f.
    - intros a n Hn. exists n. split; [by apply lookup_app_l_Some|apply node_kept_refl]. }
  destruct (decide (line_depth t = 0)) as [Hd|Hd].
  - unfold CallForest.add_root. cbn [forests nodes windows].
    destruct (forests w !! _) as [f|] eqn:Hf; intros [= <- <-]; [|done].
    split; [|by intros ? [= <-]]. split_and!; cbn [forests nodes windows]; [done|..].
    + intros i Hi. by rewrite list_lookup_insert_ne.
    + intros f0 Hf0. rewrite Hf in Hf0. injection Hf0 as <-. eexists. split.
      * apply list_lookup_insert_eq. by eapply lookup_lt_Some.
      * split; [done|]. by apply prefix_app_r.
    + by destruct Halloc as (_ & _ & _ & ?).
  - destruct (CallTreeNodeStack.top _) as [p| |]; [|by intros [= <- <-]..].
    unfold CallTreeNode.add_child. cbn [forests nodes windows].
    destruct ((nodes w ++ [new]) !! p) as [pn|] eqn:Hp; intros [= <- <-]; [|done].
    split; [|by intros ? [= <-]]. split_and!; cbn [forests nodes windows]; [done..| |].
    + intros f Hf. by exists f.
    + intros a n Hn. destruct (decide (p = a)) as [->|Hne].
      * rewrite (lookup_app_l_Some _ _ _ _ Hn) in Hp. injection Hp as <-.
        eexists. split.
        -- apply list_lookup_insert_eq. rewrite length_app.
           pose proof (lookup_lt_Some _ _ _ Hn). lia.
        -- split_and!; [done..|]. by apply prefix_app_r.
      * exists n. rewrite list_lookup_insert_ne by done.
        split; [by apply lookup_app_l_Some|apply node_kept_refl].
Qed.

(** X4: whatever the lines and however it ends, parsing changes no window
    and no forest but its own, whose name it keeps and whose roots it only
    extends; it never removes a node, never changes a node's signature or
    samples, and only appends to a node's children. *)
Theorem parse_grows_store (self : JmcCallForestParser.t) (lines : list string)
    (w : world) (r : result addr) (w' : world) :
  JmcCallForestParser.parse self lines w = (r, w') →
  store_grows (JmcCallForestParser.call_forest self) w w'.
Proof.
  unfold JmcCallForestParser.parse. unfold_M.
  assert (∀ self r w', JmcCallForestParser.process_lines self lines w = (r, w') →
    store_grows (JmcCallForestParser.call_forest self) w w') as Hlines.
  { clear. revert w. induction lines as [|line lines IH]; intros w self r w'; simpl.
    - intros [= <- <-]. apply store_grows_refl.
    - unfold_M.
      destruct (JmcCallForestParser.process_line self line w) as [r1 w1] eqn:Hline.
      destruct (process_line_grows _ _ _ _ _ Hline) as [Hgrows Hself].
      destruct r1 as [self1| |]; [|by intros [= <- <-]..].
      intros Hrest. destruct (Hself self1 eq_refl) as [Hcf _].
      apply IH in Hrest. rewrite Hcf in Hrest. by eapply store_grows_trans. }
  destruct (JmcCallForestParser.process_lines self lines w) as [r1 w1] eqn:Hl.
  specialize (Hlines self r1 w1 Hl).
  by destruct r1; intros [= <- <-].
Qed.

Lemma parse_grows_store_witness :
  store_grows 0 (World [] [CallForestData.mk "report.txt" []] []) example_world.
Proof.
  apply (parse_grows_store (JmcCallForestParser.mk "report.txt" CallTreeNodeStack.init 0)
           example_lines _ (Ok 0)).
  reflexivity.
Defined.

(** ** The shape of the forest *)

Lemma stack_top_lookup (st : CallTreeNodeStack.t) d p :
  0 < d → d ≤ length (CallTreeNodeStack.stack st) →
  CallTreeNodeStack.top (CallTreeNodeStack.drop_to st d) = Ok p →
  CallTreeNodeStack.stack st !! pred d = Some p.
Proof.
  intros Hd Hle. unfold CallTreeNodeStack.top, CallTreeNodeStack.drop_to, py_last.
  simpl. rewrite last_lookup, length_take_le by done.
  rewrite lookup_take_lt by lia.
  destruct (_ !! pred d); [|done]. by intros [= ->].
Qed.

Lemma StronglySorted_snoc_lt l k :
  StronglySorted lt l → (∀ c, c ∈ l → c < k) → StronglySorted lt (l ++ [k]).
Proof.
  induction 1 as [|x l Hl IH Hx]; intros Hk; simpl.
  - repeat constructor.
  - constructor.
    + apply IH. intros c Hc. apply Hk. by right.
    + apply Forall_app. split; [done|]. constructor; [|done]. apply Hk. by left.
Qed.

(** One line keeps both invariants, provided its depth does not jump past
    the stack. *)
Lemma tree_inv_step ts w self line t :
  parser_inv ts w self →
  shape_inv ts w self →
  decodes line t →
  line_depth t ≤ length (CallTreeNodeStack.stack (JmcCallForestParser.stack self)) →
  ∃ self' w',
    JmcCallForestParser.process_line self line w = (Ok self', w') ∧
    parser_inv (ts ++ [t]) w' self' ∧
    shape_inv (ts ++ [t]) w' self' ∧
    length (CallTreeNodeStack.stack (JmcCallForestParser.stack self')) = S (line_depth t) ∧
    JmcCallForestParser.call_forest self' = JmcCallForestParser.call_forest self ∧
    windows w' = windows w.
Proof.
  intros Hinv Hshape Hdec Hle.
  destruct (parser_inv_step ts w self line t Hinv Hdec Hle)
    as (self' & w' & Hstep & Hinv' & Hlen' & Hcf & Hwin).
  exists self', w'. split_and!; [done..| |done|done|done].
  pose proof (inv_length _ _ _ Hinv) as Hlen.
  pose proof Hstep as Hexp.
  rewrite (process_line_decoded self line t w Hdec) in Hexp. cbv zeta in Hexp.
  assert (∀ j a,
    CallTreeNodeStack.stack
      (CallTreeNodeStack.push
         (CallTreeNodeStack.drop_to (JmcCallForestParser.stack self) (line_depth t))
         (length (nodes w))) !! j = Some a →
    ∀ i, a < i → i < length (ts ++ [t]) → j < depth_at (ts ++ [t]) i) as Hstack'.
  { intros j a. simpl. rewrite lookup_snoc_Some, length_take_le by done.
    rewrite length_app. simpl.
    intros [[Hj [Ha _]%lookup_take_Some]|[-> <-]] i Hai Hi; [|lia].
    destruct (decide (i = length ts)) as [->|Hne].
    - rewrite depth_at_snoc_new. lia.
    - rewrite depth_at_snoc_old by lia.
      apply (sh_stack _ _ _ Hshape j a Ha); lia. }
  assert (∀ p pn c, nodes w !! p = Some pn → c ∈ CallTreeNodeData.children pn →
    ∀ i, p < i → i < c → depth_at (ts ++ [t]) p < depth_at (ts ++ [t]) i) as Hold.
  { intros p pn c Hp Hc i Hpi Hic.
    destruct (inv_child _ _ _ Hinv p pn c Hp Hc) as [[? ?] _].
    rewrite !depth_at_snoc_old by lia. by eapply (sh_between _ _ _ Hshape). }
  destruct (sh_name _ _ _ Hshape) as (fn & Hfn & Hname).
  destruct (decide (line_depth t = 0)) as [Hd|Hd].
  - unfold CallForest.add_root in Hexp. cbn [forests nodes windows] in Hexp.
    rewrite Hfn in Hexp. injection Hexp as <- <-. split; cbn [nodes forests].
    + intros p pn [[_ Hp]|[_ <-]]%lookup_snoc_Some;
        [by eapply (sh_sorted _ _ _ Hshape)|constructor].
    + intros p pn c [[_ Hp]|[_ <-]]%lookup_snoc_Some Hc; [by eapply Hold|].
      by apply elem_of_nil in Hc.
    + exact Hstack'.
    + eexists. split; [apply list_lookup_insert_eq; by eapply lookup_lt_Some|done].
  - destruct (step_stack_top_Ok self (line_depth t)) as [p Hp]; [lia|done|].
    rewrite Hp in Hexp.
    pose proof (stack_top_lookup (JmcCallForestParser.stack self) (line_depth t) p
                  ltac:(lia) Hle Hp) as Hsp.
    destruct (step_stack_top ts w self Hinv (line_depth t) p) as [Hpk Hpd]; [lia|done..|].
    destruct (lookup_lt_is_Some_2 (nodes w) p) as [pn Hpn]; [lia|].
    unfold CallTreeNode.add_child in Hexp. cbn [forests nodes windows] in Hexp.
    rewrite (lookup_app_l_Some _ _ _ _ Hpn) in Hexp. injection Hexp as <- <-.
    split; cbn [nodes forests].
    + intros p' pn' [(<- & <- & _)|(Hne & Hp')]%list_lookup_insert_Some.
      * simpl. apply StronglySorted_snoc_lt; [by eapply (sh_sorted _ _ _ Hshape)|].
        intros c Hc. destruct (inv_child _ _ _ Hinv p pn c Hpn Hc). lia.
      * apply lookup_snoc_Some in Hp' as [[_ Hp']|[_ <-]];
          [by eapply (sh_sorted _ _ _ Hshape)|constructor].
    + intros p' pn' c [(<- & <- & _)|(Hne & Hp')]%list_lookup_insert_Some Hc.
      * simpl in Hc. apply elem_of_app in Hc as [Hc|Hc]; [by eapply Hold|].
        apply list_elem_of_singleton in Hc as ->. intros i Hpi Hik.
        rewrite !depth_at_snoc_old by lia.
        pose proof (sh_stack _ _ _ Hshape _ _ Hsp i Hpi ltac:(lia)). lia.
      * apply lookup_snoc_Some in Hp' as [[_ Hp']|[_ <-]]; [by eapply Hold|].
        by apply elem_of_nil in Hc.
    + exact Hstack'.
    + by exists fn.
Qed.

Lemma py_split_sep_free sep s :
  Forall (λ c, all_chars (λ a, negb (Ascii.eqb a sep)) c = true) (py_split sep s).
Proof.
  induction s as [|a s IH]; simpl; [by repeat constructor|].
  destruct (Ascii.eqb a sep) eqn:Ha; [by constructor|].
  destruct (py_split sep s) as [|f fs]; [by repeat constructor; simpl; rewrite Ha|].
  apply Forall_cons in IH as [Hf Hfs]. constructor; [|done]. simpl. by rewrite Ha, Hf.
Qed.

Lemma py_lstrip_start s : starts_with Ascii.is_space (py_lstrip s) = false.
Proof.
  induction s as [|a s IH]; [done|]. simpl.
  destruct (Ascii.is_space a) eqn:Ha; [done|]. simpl. done.
Qed.

Lemma py_lstrip_tab_free s : tab_free s = true → tab_free (py_lstrip s) = true.
Proof.
  unfold tab_free. induction s as [|a s IH]; [done|]. simpl.
  intros [Ha Hs]%andb_true_iff. destruct (Ascii.is_space a); [by apply IH|].
  simpl. by rewrite Ha, Hs.
Qed.

(** The fields from which a line decodes. *)
Lemma decodes_fields line t :
  decodes line t →
  ∃ field0 field1 more,
    JmcCallTreeLine.chunks (JmcCallTreeLine.init line) = field0 :: field1 :: more ∧
    tab_free field0 = true ∧ tab_free field1 = true ∧
    line_signature t = py_lstrip field0 ∧
    py_int (py_remove ","%char field1) = Ok (line_samples t).
Proof.
  intros (_ & Hsig & Hn). destruct (chunks_field0 line) as (field0 & more & Hc).
  pose proof (py_split_sep_free tab line) as Hfree.
  change (py_split tab line) with (JmcCallTreeLine.chunks (JmcCallTreeLine.init line))
    in Hfree.
  unfold JmcCallTreeLine.signature, JmcCallTreeLine.samples in Hsig, Hn.
  rewrite Hc in Hsig, Hn, Hfree. simpl in Hsig, Hn.
  destruct more as [|field1 more]; [done|]. simpl in Hn.
  apply Forall_cons in Hfree as [H0 [H1 _]%Forall_cons].
  exists field0, field1, more. split_and!; [done..|congruence|done].
Qed.

(** Every decoded line is also what some line decodes to at any other
    depth: the same fields behind another indentation. *)
Lemma decodes_at_depth line t e :
  decodes line t →
  ∃ line', decodes line' (Decoded e (line_signature t) (line_samples t)).
Proof.
  intros (field0 & field1 & more & _ & H0 & H1 & Hsig & Hn)%decodes_fields.
  destruct (spaces_is_space (e * 3)) as [Hsp Hsp_tab].
  exists ((spaces (e * 3) +:+ py_lstrip field0) +:+ String tab field1 +:+ "").
  assert (tab_free (spaces (e * 3) +:+ py_lstrip field0) = true) as Hf
    by (by rewrite tab_free_app, Hsp_tab, py_lstrip_tab_free).
  destruct (chunks_two_fields _ field1 "" Hf H1 (or_introl eq_refl)) as [more' Hchunks].
  assert (JmcCallTreeLine.signature
            (JmcCallTreeLine.init
               ((spaces (e * 3) +:+ py_lstrip field0) +:+ String tab field1 +:+ ""))
          = Ok (py_lstrip field0)) as Hsignature.
  { unfold JmcCallTreeLine.signature. rewrite Hchunks. simpl.
    by rewrite py_lstrip_indent by (done || apply py_lstrip_start). }
  unfold decodes. cbv zeta. simpl line_depth. simpl line_signature. simpl line_samples.
  split_and!.
  - unfold JmcCallTreeLine.depth_below_root, JmcCallTreeLine.indentation.
    rewrite Hsignature, Hchunks. simpl.
    rewrite length_app_s, spaces_length, Nat.add_sub.
    f_equal. change ((e * 3) / 3 = e). by apply Nat.div_mul.
  - by rewrite Hsignature, Hsig.
  - unfold JmcCallTreeLine.samples. by rewrite Hchunks.
Qed.

(** A line deeper than the stack is processed like the same fields at the
    depth of the stack. *)
Lemma process_line_clamp self w line t line' t' :
  decodes line t → decodes line' t' →
  line_signature t' = line_signature t →
  line_samples t' = line_samples t →
  line_depth t' = Nat.min (line_depth t)
                    (length (CallTreeNodeStack.stack (JmcCallForestParser.stack self))) →
  CallTreeNodeStack.stack (JmcCallForestParser.stack self) ≠ [] ∨ line_depth t = 0 →
  JmcCallForestParser.process_line self line w
  = JmcCallForestParser.process_line self line' w.
Proof.
  intros Ht Ht' Hsig Hn Hd Hstart.
  rewrite (process_line_decoded self line t w Ht),
    (process_line_decoded self line' t' w Ht'). cbv zeta.
  rewrite Hsig, Hn.
  assert (CallTreeNodeStack.drop_to (JmcCallForestParser.stack self) (line_depth t')
          = CallTreeNodeStack.drop_to (JmcCallForestParser.stack self) (line_depth t))
    as ->.
  { unfold CallTreeNodeStack.drop_to. f_equal. rewrite Hd.
    destruct (Nat.min_spec (line_depth t)
                (length (CallTreeNodeStack.stack (JmcCallForestParser.stack self))))
      as [[_ ->]|[Hle ->]]; [done|].
    by rewrite !take_ge by lia. }
  destruct (decide (line_depth t = 0)) as [H0|H0].
  - rewrite decide_True by lia. done.
  - rewrite decide_False; [done|]. destruct Hstart as [Hst|?]; [|done].
    destruct (CallTreeNodeStack.stack (JmcCallForestParser.stack self)); [done|].
    simpl in Hd. lia.
Qed.

Lemma tree_inv_init filename w :
  nodes w = [] →
  ∃ self w',
    JmcCallForestParser.init filename w = (Ok self, w') ∧
    windows w' = windows w ∧
    CallTreeNodeStack.stack (JmcCallForestParser.stack self) = [] ∧
    JmcCallForestParser.filename self = filename ∧
    parser_inv [] w' self ∧ shape_inv [] w' self.
Proof.
  intros Hnodes.
  destruct (parser_inv_init filename w Hnodes)
    as (self & w' & Hinit & Hnodes' & Hwin & Hstack & Hinv).
  exists self, w'.
  assert ((self, w') = (JmcCallForestParser.mk filename CallTreeNodeStack.init
                          (length (forests w)),
                        World (nodes w) (forests w ++ [CallForestData.mk filename []])
                          (windows w))) as [= -> ->].
  { assert (JmcCallForestParser.init filename w
            = (Ok (JmcCallForestParser.mk filename CallTreeNodeStack.init
                     (length (forests w))),
               World (nodes w) (forests w ++ [CallForestData.mk filename []])
                 (windows w))) as Hexp by reflexivity.
    rewrite Hexp in Hinit. by injection Hinit as <- <-. }
  split_and!; [done..|]. split; simpl.
  - intros p pn Hp. by rewrite Hnodes, lookup_nil in Hp.
  - intros p pn c Hp. by rewrite Hnodes, lookup_nil in Hp.
  - intros j a Hj. by rewrite lookup_nil in Hj.
  - exists (CallForestData.mk filename []). split; [|done].
    by rewrite lookup_app_r, Nat.sub_diag by lia.
Qed.

Lemma tree_inv_lines lines :
  ∀ ts0 w self ts,
    parser_inv ts0 w self →
    shape_inv ts0 w self →
    Forall2 decodes lines ts →
    CallTreeNodeStack.stack (JmcCallForestParser.stack self) ≠ [] ∨ starts_unindented ts →
    ∃ self' w',
      JmcCallForestParser.process_lines self lines w = (Ok self', w') ∧
      parser_inv
        (ts0 ++ placed (length (CallTreeNodeStack.stack (JmcCallForestParser.stack self))) ts)
        w' self' ∧
      shape_inv
        (ts0 ++ placed (length (CallTreeNodeStack.stack (JmcCallForestParser.stack self))) ts)
        w' self' ∧
      JmcCallForestParser.call_forest self' = JmcCallForestParser.call_forest self ∧
      JmcCallForestParser.filename self' = JmcCallForestParser.filename self ∧
      windows w' = windows w.
Proof.
  induction lines as [|line lines IH]; intros ts0 w self ts Hinv Hshape Hdec Hstart.
  - apply Forall2_nil_inv_l in Hdec as ->. exists self, w. simpl.
    by rewrite app_nil_r.
  - apply Forall2_cons_inv_l in Hdec as (t & ts' & Ht & Hts & ->).
    set (limit := length (CallTreeNodeStack.stack (JmcCallForestParser.stack self))).
    set (e := Nat.min (line_depth t) limit).
    destruct (decodes_at_depth line t e Ht) as [line' Ht'].
    set (t' := Decoded e (line_signature t) (line_samples t)) in *.
    assert (JmcCallForestParser.process_line self line w
            = JmcCallForestParser.process_line self line' w) as Hsame.
    { apply (process_line_clamp self w line t line' t'); [done..|].
      destruct Hstart as [?|Hstart]; [by left|by right]. }
    destruct (tree_inv_step ts0 w self line' t' Hinv Hshape Ht')
      as (self1 & w1 & Hstep & Hinv1 & Hshape1 & Hlen1 & Hcf1 & Hwin1).
    { simpl. unfold e, limit. lia. }
    destruct (IH (ts0 ++ [t']) w1 self1 ts' Hinv1 Hshape1 Hts)
      as (self2 & w2 & Hrest & Hinv2 & Hshape2 & Hcf2 & Hname2 & Hwin2).
    { left. intros Hnil. rewrite Hnil in Hlen1. done. }
    destruct (process_line_grows _ _ _ _ _ Hstep) as [_ Hself1].
    destruct (Hself1 self1 eq_refl) as [_ Hname1].
    exists self2, w2. simpl. unfold_M. rewrite Hsame, Hstep.
    rewrite Hlen1, <- app_assoc in Hinv2, Hshape2.
    split_and!; [done..|congruence|congruence|congruence].
Qed.

(** On well-formed input every line is placed at its decoded depth. *)
Lemma placed_well_formed limit ts :
  depths_within limit (line_depth <$> ts) → placed limit ts = ts.
Proof.
  revert limit. induction ts as [|t ts IH]; intros limit; [done|].
  simpl. intros [Hle Hrest]. rewrite Nat.min_l by done.
  rewrite IH by done. by destruct t.
Qed.

Lemma placed_length limit ts : length (placed limit ts) = length ts.
Proof.
  revert limit. induction ts as [|t ts IH]; intros limit; simpl; [done|]. by rewrite IH.
Qed.

Lemma placed_lookup limit ts i t :
  ts !! i = Some t →
  ∃ e, e ≤ line_depth t ∧
       placed limit ts !! i = Some (Decoded e (line_signature t) (line_samples t)).
Proof.
  revert limit i. induction ts as [|t' ts IH]; intros limit i Hi; [done|].
  destruct i as [|i]; simpl in *.
  - injection Hi as ->. eexists. split; [|done]. lia.
  - by apply IH.
Qed.

(** Parsing input that starts unindented establishes both invariants for
    the lines as placed. *)
Lemma parse_tree_inv filename lines ts w0 :
  nodes w0 = [] →
  Forall2 decodes lines ts →
  starts_unindented ts →
  ∃ self w,
    (self ← JmcCallForestParser.init filename;
     JmcCallForestParser.parse self lines) w0
    = (Ok (JmcCallForestParser.call_forest self), w) ∧
    JmcCallForestParser.filename self = filename ∧
    windows w = windows w0 ∧
    parser_inv (placed 0 ts) w self ∧
    shape_inv (placed 0 ts) w self.
Proof.
  intros Hnodes Hdec Hstart.
  destruct (tree_inv_init filename w0 Hnodes)
    as (self & w1 & Hinit & Hwin1 & Hstack & Hname & Hinv & Hshape).
  destruct (tree_inv_lines lines [] w1 self ts Hinv Hshape Hdec (or_intror Hstart))
    as (self' & w & Hlines & Hinv' & Hshape' & Hcf & Hname' & Hwin).
  rewrite Hstack in Hinv', Hshape'. simpl in Hinv', Hshape'.
  exists self', w. split_and!; [|congruence|congruence|done|done].
  unfold JmcCallForestParser.parse. unfold_M. by rewrite Hinit, Hlines.
Qed.

(** X5: parsing succeeds on every input whose lines decode and whose first
    line is not indented, well-formed or not.  Line [i] becomes node [i]
    with the line's signature and samples, and its number of ancestors is
    the depth at which it is placed: the decoded depth, capped at one more
    than the placed depth of the line before. *)
Theorem parse_places_lines (filename : string) (lines : list string)
    (ts : list decoded) (w0 : world) :
  nodes w0 = [] →
  Forall2 decodes lines ts →
  starts_unindented ts →
  ∃ cf f w,
    (self ← JmcCallForestParser.init filename;
     JmcCallForestParser.parse self lines) w0 = (Ok cf, w) ∧
    forests w !! cf = Some f ∧
    CallForestData.name f = filename ∧
    length (nodes w) = length ts ∧
    ∀ i t, ts !! i = Some t →
      (∃ cs, nodes w !! i
             = Some (CallTreeNodeData.mk (line_signature t) (line_samples t) cs)) ∧
      length (ancestor_chain (length (nodes w)) w i) = depth_at (placed 0 ts) i.
Proof.
  intros Hnodes Hdec Hstart.
  destruct (parse_tree_inv filename lines ts w0 Hnodes Hdec Hstart)
    as (self & w & Hparse & Hname & _ & Hinv & Hshape).
  destruct (sh_name _ _ _ Hshape) as (f & Hf & Hfname).
  pose proof (inv_length _ _ _ Hinv) as Hlen. rewrite placed_length in Hlen.
  exists (JmcCallForestParser.call_forest self), f, w.
  split_and!; [done|done|congruence|done|].
  intros i t Ht. destruct (placed_lookup 0 ts i t Ht) as (e & _ & He). split.
  - by destruct (inv_node _ _ _ Hinv i _ He) as [cs Hcs]; exists cs.
  - pose proof (lookup_lt_Some _ _ _ Ht).
    apply (ancestor_chain_length _ w self Hinv); [lia|]. rewrite placed_length. lia.
Qed.

Lemma parse_places_lines_witness :
  ∃ cf f w,
    (self ← JmcCallForestParser.init "r";
     JmcCallForestParser.parse self
       ["a" +:+ String tab "3"; "      b" +:+ String tab "2"; "         c" +:+ String tab "1"])
      empty_world = (Ok cf, w) ∧
    forests w !! cf = Some f ∧
    CallForestData.name f = "r" ∧
    length (nodes w) = 3 ∧
    ∀ i t, [Decoded 0 "a" 3; Decoded 2 "b" 2; Decoded 3 "c" 1] !! i = Some t →
      (∃ cs, nodes w !! i
             = Some (CallTreeNodeData.mk (line_signature t) (line_samples t) cs)) ∧
      length (ancestor_chain (length (nodes w)) w i)
      = depth_at [Decoded 0 "a" 3; Decoded 1 "b" 2; Decoded 2 "c" 1] i.
Proof.
  apply (parse_places_lines "r" _ [Decoded 0 "a" 3; Decoded 2 "b" 2; Decoded 3 "c" 1]
           empty_world).
  - reflexivity.
  - repeat (constructor; [by vm_compute|]). constructor.
  - reflexivity.
Defined.

Lemma elem_of_depth0_lines k ts r :
  r ∈ depth0_lines k ts ↔ k ≤ r ∧ r < k + length ts ∧ depth_at ts (r - k) = 0.
Proof.
  revert k. induction ts as [|t ts IH]; intros k; simpl.
  - split; [by intros ?%elem_of_nil|lia].
  - rewrite elem_of_app, IH. unfold depth_at. split.
    + intros [Hr|(? & ? & Hd)].
      * destruct (decide (line_depth t = 0)); [|by apply elem_of_nil in Hr].
        apply list_elem_of_singleton in Hr as ->. rewrite Nat.sub_diag. simpl.
        split_and!; [lia..|done].
      * split_and!; [lia..|]. replace (r - k) with (S (r - S k)) by lia. done.
    + intros (? & ? & Hd). destruct (decide (r = k)) as [->|Hne].
      * left. rewrite Nat.sub_diag in Hd. simpl in Hd.
        rewrite decide_True by done. by left.
      * right. split_and!; [lia..|].
        replace (r - k) with (S (r - S k)) in Hd by lia. done.
Qed.

Lemma depth0_lines_sorted k ts : StronglySorted lt (depth0_lines k ts).
Proof.
  revert k. induction ts as [|t ts IH]; intros k; simpl; [constructor|].
  destruct (decide (line_depth t = 0)); simpl; [|apply IH].
  constructor; [apply IH|]. apply Forall_forall. intros r Hr.
  apply elem_of_depth0_lines in Hr. lia.
Qed.

(** ** The colour table *)

(** X7: in the table [Colours] is built with, no prefix extends another,
    so at most one rule matches a signature: a node whose signature begins
    with the prefix of some rule gets that rule's colour, wherever the rule
    stands in the table. *)
Theorem colours_rules_exclusive (node : CallTreeNodeData.t) (p c : string) :
  (p, c) ∈ Colours.prefix_to_colour Colours.init →
  begins_with p (CallTreeNodeData.signature node) →
  Colours.colour_for Colours.init node = c.
Proof.
  unfold Colours.colour_for. intros Hrule [rest ->]. simpl in Hrule.
  repeat (apply elem_of_cons in Hrule as [[= -> ->]|Hrule]; [by destruct rest|]).
  by apply elem_of_nil in Hrule.
Qed.

Lemma colours_rules_exclusive_witness :
  Colours.colour_for Colours.init (CallTreeNodeData.mk "org.jboss.Main.run" 7 []) = "red".
Proof.
  apply (colours_rules_exclusive _ "org.jboss").
  - simpl. do 4 right. left.
  - by exists ".Main.run".
Defined.

(** ** The program without samples *)

Lemma placed_depth0 limit ts :
  0 < limit ∨ starts_unindented ts →
  filter (λ t, line_depth t = 0) (placed limit ts) = filter (λ t, line_depth t = 0) ts.
Proof.
  revert limit. induction ts as [|t ts IH]; intros limit Hstart; [done|].
  destruct t as [d sig n]. cbn [placed line_depth line_signature line_samples].
  rewrite !filter_cons. cbn [line_depth].
  rewrite (IH (S (d `min` limit))) by (left; lia).
  destruct (decide (d = 0)) as [->|Hd].
  - rewrite Nat.min_0_l. by rewrite decide_True by done.
  - rewrite decide_False; [done|]. destruct Hstart as [?|?]; simpl in *; lia.
Qed.

Lemma placed_root_samples ts :
  starts_unindented ts → root_samples (placed 0 ts) = root_samples ts.
Proof. intros Hstart. unfold root_samples. by rewrite placed_depth0 by by right. Qed.

(** X8: a report whose unindented lines have no samples in total (an empty
    file among them) is parsed in full, and then [main] fails with
    [ZeroDivisionError] from the renderer's constructor before any window
    is opened. *)
Theorem main_without_samples (fuel : nat) (filename : string) (lines : list string)
    (ts : list decoded) (measure : Z) :
  filename ≠ "" →
  Forall2 decodes lines ts →
  starts_unindented ts →
  root_samples ts = 0%Z →
  ∃ w,
    main fuel filename lines measure empty_world = (Raise ZeroDivisionError, w) ∧
    length (nodes w) = length ts ∧
    windows w = [].
Proof.
  intros Hname Hdec Hstart Hsamples.
  destruct (parse_tree_inv filename lines ts empty_world eq_refl Hdec Hstart)
    as (self & w & Hparse & _ & Hwin & Hinv & _).
  exists w. split_and!.
  - unfold main. rewrite decide_False by done.
    change (M_bind ?f ?m) with (mbind (M := M) f m) in *.
    unfold JmcCallForestParser.parse in *. unfold_M.
    destruct (JmcCallForestParser.init filename empty_world) as [[self0| |] w1];
      [|done..].
    destruct (JmcCallForestParser.process_lines self0 lines w1) as [[self1| |] w2];
      [|done..].
    injection Hparse as Hcf ->. rewrite Hcf.
    rewrite init_zero_samples; [done|by vm_compute|].
    rewrite (parser_inv_samples _ _ _ Hinv), placed_root_samples by done.
    by rewrite Hsamples.
  - rewrite (inv_length _ _ _ Hinv). apply placed_length.
  - done.
Qed.

Lemma main_without_samples_witness :
  ∃ w,
    main 1 "report.txt" ["idle" +:+ String tab "0"] 100 empty_world
    = (Raise ZeroDivisionError, w) ∧
    length (nodes w) = 1 ∧
    windows w = [].
Proof.
  apply (main_without_samples 1 "report.txt" _ [Decoded 0 "idle" 0] 100).
  - done.
  - repeat (constructor; [by vm_compute|]). constructor.
  - reflexivity.
  - reflexivity.
Defined.

(** ** Zooming in *)

(** [depth] reads nothing but the nodes of the store. *)
Lemma node_depth_nodes fuel w w' a :
  nodes w' = nodes w → CallTreeNode.depth fuel w' a = CallTreeNode.depth fuel w a.
Proof.
  intros Hnodes. revert a. induction fuel as [|fuel IH]; intros a; [done|].
  simpl. unfold deref_node. rewrite Hnodes.
  destruct (nodes w !! a) as [n|]; [|done]. unfold_M.
  by rewrite (result_mapM_ext (CallTreeNode.depth fuel w') (CallTreeNode.depth fuel w)).
Qed.

(** The depth of a node exceeds the depth of each of its children. *)
Lemma node_depth_child fuel w a n d c :
  CallTreeNode.depth (S fuel) w a = Ok d →
  nodes w !! a = Some n →
  c ∈ CallTreeNodeData.children n →
  ∃ dc, CallTreeNode.depth fuel w c = Ok dc ∧ dc < d.
Proof.
  simpl. unfold deref_node. intros Hd Hn Hc. rewrite Hn in Hd. unfold_M.
  destruct (result_mapM (CallTreeNode.depth fuel w) (CallTreeNodeData.children n))
    as [ds| |] eqn:Hds; [|done..].
  injection Hd as <-. apply result_mapM_Ok in Hds.
  apply list_elem_of_lookup in Hc as [i Hi].
  destruct (Forall2_lookup_l _ _ _ _ _ Hds Hi) as (dc & Hdc & Hc).
  exists dc. split; [done|].
  pose proof (py_max_or_0_ub ds dc ltac:(by eapply list_elem_of_lookup_2)). lia.
Qed.

(** ** Laying out a forest *)

(** Laying out a forest that has samples, with sizes a double can hold, a
    font of non-zero width and a fuel that covers the store, succeeds: it
    opens one window and draws into it what the loop over the sorted roots
    creates. *)
Lemma lay_out_parts fuel cf measure width height colours w f S :
  heap_wf w →
  forests w !! cf = Some f →
  forest_wf w f →
  length (nodes w) ≤ fuel →
  CallForest.samples w cf = Ok S →
  S ≠ 0%Z →
  converts_to_float S →
  converts_to_float width →
  converts_to_float height →
  measure ≠ 0%Z →
  let w1 := World (nodes w) (forests w)
              (windows w ++ [Toplevel.mk (CallForestData.name f) width height []]) in
  ∃ self rs items,
    deref_nodes w (CallForestData.roots f) = Ok rs ∧
    TkFlameGraphRenderer.character_width self ≠ 0%Qc ∧
    items
    = concat (placed_parts
                (λ root x,
                   TkFlameGraphRenderer.render_call_tree fuel self w1 (fst root) x
                     (py_float height - TkFlameGraphRenderer.y_scale self)%Qc)
                (TkFlameGraphRenderer.advance self)
                (py_sorted signature_of rs) (Qc_of_Z 2)) ∧
    lay_out fuel cf measure width height colours w
    = (Ok (),
       World (nodes w) (forests w)
         (windows w ++ [Toplevel.mk (CallForestData.name f) width height
                          (TkFlameGraphRenderer.tag_raise_signature items)])) ∧
    TkFlameGraphRenderer.init fuel cf measure width height colours w = (Ok self, w1).
Proof.
  intros Hwf Hf Hroots Hfuel HS HS0 HSfloat Hwfloat Hhfloat Hmeasure w1.
  destruct (init_Ok fuel cf measure width height colours w f S Hwf Hf Hroots Hfuel HS HS0
              HSfloat Hwfloat Hhfloat)
    as (d & self & Hd & Hdpos & Hinit & Hcf & Hwidth & Hheight & Hcol & Hcw & Hxs
        & Hys & Htop).
  fold w1 in Hinit.
  destruct (forest_samples_roots w cf f S Hf HS) as (rs & Hrs & HSrs).
  assert (TkFlameGraphRenderer.character_width self ≠ 0%Qc) as Hcw0.
  { rewrite Hcw. intros [H|H]%Qcmult_integral; [done|]. by apply py_float_eq_0 in H. }
  destruct (render_items_parts fuel self w1 f) as (rs' & Hrs' & Hitems);
    [done|done|by rewrite Hcf|done|done|].
  change (deref_nodes w1) with (deref_nodes w) in Hrs'.
  rewrite Hrs in Hrs'. injection Hrs' as <-. rewrite Hheight in Hitems.
  eexists self, rs, _. split_and!; [done|done|reflexivity| |done].
  unfold lay_out. unfold_M. rewrite Hinit.
  by apply render_new_window.
Qed.

(** ** The measures of a parsed forest *)

Lemma depth_at_max ts i : depth_at ts i ≤ py_max_or_0 (line_depth <$> ts).
Proof.
  unfold depth_at. destruct (ts !! i) as [t|] eqn:Hi; simpl; [|lia].
  apply py_max_or_0_ub, list_elem_of_fmap. exists t. split; [done|].
  by eapply list_elem_of_lookup_2.
Qed.

Section parsed_depth.
Context (ts : list decoded) (w : world) (self : JmcCallForestParser.t).
Hypothesis Hinv : parser_inv ts w self.

(** No subtree reaches below the deepest line. *)
Lemma node_depth_le fuel :
  ∀ a d, CallTreeNode.depth fuel w a = Ok d →
    depth_at ts a + d ≤ 1 + py_max_or_0 (line_depth <$> ts).
Proof using Hinv.
  induction fuel as [|fuel IH]; intros a d Hd; [done|].
  pose proof Hd as Hd'. simpl in Hd'. unfold deref_node in Hd'. unfold_M.
  destruct (nodes w !! a) as [n|] eqn:Hn; [|done].
  destruct (result_mapM (CallTreeNode.depth fuel w) (CallTreeNodeData.children n))
    as [ds| |] eqn:Hds; [|done..].
  injection Hd' as <-. apply result_mapM_Ok in Hds.
  destruct (decide (ds = [])) as [->|Hne].
  - pose proof (depth_at_max ts a). simpl. lia.
  - apply py_max_or_0_attained, list_elem_of_lookup in Hne as [i Hi].
    destruct (Forall2_lookup_r _ _ _ _ _ Hds Hi) as (c & Hc & Hdc).
    apply IH in Hdc.
    destruct (inv_child _ _ _ Hinv a n c Hn ltac:(by eapply list_elem_of_lookup_2))
      as [_ Hdepth].
    lia.
Qed.

(** Every line lies in the subtree of a root that is deep enough for it. *)
Lemma root_depth_ge k :
  ∀ i m, i < length ts → depth_at ts i = k →
    (∀ fuel d, CallTreeNode.depth fuel w i = Ok d → m ≤ d) →
    ∃ r, r ∈ depth0_lines 0 ts ∧
         ∀ fuel d, CallTreeNode.depth fuel w r = Ok d → m + k ≤ d.
Proof using Hinv.
  induction k as [|k IH]; intros i m Hi Hk Hm.
  - exists i. split; [|intros fuel d Hd; specialize (Hm fuel d Hd); lia].
    apply elem_of_depth0_lines. rewrite Nat.sub_0_r. lia.
  - destruct (inv_parent _ _ _ Hinv i Hi ltac:(lia)) as (p & pn & Hp & Hc).
    destruct (inv_child _ _ _ Hinv p pn i Hp Hc) as [[? ?] Hdepth].
    destruct (IH p (S m)) as (r & Hr & Hdr); [lia|lia| |].
    + intros [|fuel] d Hd; [done|].
      destruct (node_depth_child fuel w p pn d i Hd Hp Hc) as (dc & Hdc & Hlt).
      specialize (Hm fuel dc Hdc). lia.
    + exists r. split; [done|]. intros fuel d Hd. specialize (Hdr fuel d Hd). lia.
Qed.

(** The depth of the forest: one more than the depth of the deepest line. *)
Lemma parsed_forest_depth fuel :
  length ts ≤ fuel →
  CallForest.depth fuel w (JmcCallForestParser.call_forest self)
  = Ok (if decide (ts = []) then 0 else 1 + py_max_or_0 (line_depth <$> ts)).
Proof using Hinv.
  intros Hfuel. destruct (parser_inv_wf ts w self Hinv) as (Hwf & f & Hf & Hroots).
  destruct (inv_roots _ _ _ Hinv) as (f' & Hf' & Hlines).
  rewrite Hf in Hf'. injection Hf' as <-.
  destruct (forest_depth_roots fuel w _ f Hwf Hf Hroots) as (ds & Hds & ->).
  { rewrite (inv_length _ _ _ Hinv). lia. }
  f_equal. rewrite Hlines in Hds.
  destruct (decide (ts = [])) as [Hnil|Hsome].
  { rewrite Hnil in Hds. apply Forall2_nil_inv_l in Hds. by subst ds. }
  apply Nat.le_antisymm.
  - destruct (decide (ds = [])) as [->|Hne]; [simpl; lia|].
    apply py_max_or_0_attained, list_elem_of_lookup in Hne as [i Hi].
    destruct (Forall2_lookup_r _ _ _ _ _ Hds Hi) as (r & _ & Hr).
    apply node_depth_le in Hr. lia.
  - assert (line_depth <$> ts ≠ []) as Hne by (by intros ?%fmap_nil_inv).
    apply py_max_or_0_attained, list_elem_of_fmap in Hne as (t' & Hmax & Ht').
    apply list_elem_of_lookup in Ht' as [i Hi].
    destruct (root_depth_ge (line_depth t') i 1) as (r & Hr & Hdr).
    + by eapply lookup_lt_Some.
    + unfold depth_at. by rewrite Hi.
    + intros fuel' d Hd. by apply node_depth_pos in Hd.
    + apply list_elem_of_lookup in Hr as [j Hj].
      destruct (Forall2_lookup_l _ _ _ _ _ Hds Hj) as (d & Hd & Hrd).
      specialize (Hdr fuel d Hrd).
      pose proof (py_max_or_0_ub ds d ltac:(by eapply list_elem_of_lookup_2)).
      rewrite Hmax. lia.
Qed.
End parsed_depth.

(** X12: the measures the layout scales by, read off the report.  After
    parsing input that starts unindented, the forest's [samples()] is the
    sum of the sample counts of the unindented lines, and its [depth()] is
    0 for an empty report and otherwise one more than the depth at which
    the deepest line is placed. *)
Theorem parsed_forest_measures (fuel : nat) (filename : string) (lines : list string)
    (ts : list decoded) (w0 : world) :
  nodes w0 = [] →
  Forall2 decodes lines ts →
  starts_unindented ts →
  length ts ≤ fuel →
  ∃ cf w,
    (self ← JmcCallForestParser.init filename;
     JmcCallForestParser.parse self lines) w0 = (Ok cf, w) ∧
    CallForest.samples w cf = Ok (root_samples ts) ∧
    CallForest.depth fuel w cf
    = Ok (match ts with
          | [] => 0
          | _ => 1 + py_max_or_0 (line_depth <$> placed 0 ts)
          end).
Proof.
  intros Hnodes Hdec Hstart Hfuel.
  destruct (parse_tree_inv filename lines ts w0 Hnodes Hdec Hstart)
    as (self & w & Hparse & _ & _ & Hinv & _).
  exists (JmcCallForestParser.call_forest self), w. split_and!; [done| |].
  - by rewrite (parser_inv_samples _ _ _ Hinv), placed_root_samples.
  - rewrite (parsed_forest_depth _ _ _ Hinv) by (by rewrite placed_length).
    by destruct ts.
Qed.

Lemma parsed_forest_measures_witness :
  ∃ cf w,
    (self ← JmcCallForestParser.init "report.txt";
     JmcCallForestParser.parse self example_lines) empty_world = (Ok cf, w) ∧
    CallForest.samples w cf = Ok (root_samples example_decoded) ∧
    CallForest.depth 3 w cf
    = Ok (1 + py_max_or_0 (line_depth <$> placed 0 example_decoded)).
Proof.
  apply (parsed_forest_measures 3 "report.txt" example_lines example_decoded empty_world).
  - reflexivity.
  - repeat (constructor; [by vm_compute|]). constructor.
  - reflexivity.
  - simpl. lia.
Defined.

(** ** The lines of a subtree *)

Lemma depth_at_drop ts k j : depth_at (drop k ts) j = depth_at ts (k + j).
Proof. unfold depth_at. by rewrite lookup_drop. Qed.

Lemma deeper_run_spec d ts :
  deeper_run d ts ≤ length ts ∧
  (∀ j, j < deeper_run d ts → d < depth_at ts j) ∧
  (deeper_run d ts < length ts → depth_at ts (deeper_run d ts) ≤ d).
Proof.
  induction ts as [|t ts (IH1 & IH2 & IH3)]; simpl.
  - split_and!; [done|intros j; lia|lia].
  - destruct (decide (d < line_depth t)) as [Hd|Hd].
    + split_and!; [lia| |].
      * intros [|j] Hj; [done|]. apply IH2. lia.
      * intros Hlt. apply IH3. lia.
    + split_and!; [lia|intros j; lia|]. intros _. unfold depth_at. simpl. lia.
Qed.

(** The subtree of line [a] ends within the report, holds only lines
    deeper than [a], and is followed by a line that is not deeper. *)
Lemma subtree_size_spec ts a :
  a < length ts →
  a + subtree_size ts a ≤ length ts ∧
  (∀ i, a < i → i < a + subtree_size ts a → depth_at ts a < depth_at ts i) ∧
  (a + subtree_size ts a < length ts →
   depth_at ts (a + subtree_size ts a) ≤ depth_at ts a).
Proof.
  intros Ha. unfold subtree_size.
  destruct (deeper_run_spec (depth_at ts a) (drop (S a) ts)) as (H1 & H2 & H3).
  rewrite length_drop in H1, H3.
  set (k := deeper_run (depth_at ts a) (drop (S a) ts)) in *.
  split_and!; [lia| |].
  - intros i Hai Hi. specialize (H2 (i - S a) ltac:(lia)).
    rewrite depth_at_drop in H2. by replace (S a + (i - S a)) with i in H2 by lia.
  - intros Hlt. specialize (H3 ltac:(lia)). rewrite depth_at_drop in H3.
    by replace (S a + k) with (a + S k) in H3 by lia.
Qed.

Lemma placed_depths_within limit ts : depths_within limit (line_depth <$> placed limit ts).
Proof.
  revert limit. induction ts as [|t ts IH]; intros limit; simpl; [done|].
  split; [lia|]. apply IH.
Qed.

Lemma depths_within_step limit ds i d d' :
  depths_within limit ds → ds !! i = Some d → ds !! S i = Some d' → d' ≤ S d.
Proof.
  revert limit i. induction ds as [|d0 ds IH]; intros limit i Hds Hi Hi'; [done|].
  destruct Hds as [_ Hds]. destruct i as [|i]; simpl in *.
  - injection Hi as ->. destruct ds as [|d1 ds]; [done|].
    simpl in *. injection Hi' as ->. by destruct Hds.
  - by apply (IH (S d0) i).
Qed.

(** No line is placed deeper than one level below the line before it. *)
Lemma placed_step ts i :
  S i < length ts →
  depth_at (placed 0 ts) (S i) ≤ S (depth_at (placed 0 ts) i).
Proof.
  intros Hi. pose proof (placed_length 0 ts) as Hlen.
  destruct (lookup_lt_is_Some_2 (placed 0 ts) i ltac:(lia)) as [t Ht].
  destruct (lookup_lt_is_Some_2 (placed 0 ts) (S i) ltac:(lia)) as [t' Ht'].
  unfold depth_at. rewrite Ht, Ht'. simpl.
  apply (depths_within_step 0 (line_depth <$> placed 0 ts) i).
  - apply placed_depths_within.
  - by rewrite list_lookup_fmap, Ht.
  - by rewrite list_lookup_fmap, Ht'.
Qed.

(** ** Ascending lists of line numbers *)

Lemma StronglySorted_lt_NoDup (l : list nat) : StronglySorted lt l → NoDup l.
Proof.
  induction 1 as [|x l _ IH Hx]; constructor; [|done].
  intros Hin. rewrite Forall_forall in Hx. specialize (Hx x Hin). lia.
Qed.

Lemma StronglySorted_lt_eq (l1 l2 : list nat) :
  StronglySorted lt l1 → StronglySorted lt l2 → (∀ x, x ∈ l1 ↔ x ∈ l2) → l1 = l2.
Proof.
  intros H1 H2 Hiff. apply (StronglySorted_unique_strong lt); [|done..|].
  - intros x1 x2 _ _ ? ?. lia.
  - by apply NoDup_Permutation; [apply StronglySorted_lt_NoDup..|].
Qed.

Lemma StronglySorted_lt_seq j n : StronglySorted lt (seq j n).
Proof.
  revert j. induction n as [|n IH]; intros j; simpl; constructor; [done|].
  apply Forall_forall. intros x Hx%elem_of_seq. lia.
Qed.

Lemma StronglySorted_lt_filter (P : nat → Prop) `{∀ x, Decision (P x)} l :
  StronglySorted lt l → StronglySorted lt (filter P l).
Proof.
  induction 1 as [|x l _ IH Hx]; [constructor|].
  rewrite filter_cons. destruct (decide (P x)); [|done].
  constructor; [done|]. apply Forall_forall. intros y [_ Hy]%list_elem_of_filter.
  rewrite Forall_forall in Hx. by apply Hx.
Qed.

Lemma depth0_lines_filter k ts :
  depth0_lines k ts = filter (λ c, depth_at ts (c - k) = 0) (seq k (length ts)).
Proof.
  apply StronglySorted_lt_eq.
  - apply depth0_lines_sorted.
  - apply StronglySorted_lt_filter, StronglySorted_lt_seq.
  - intros r. rewrite elem_of_depth0_lines, list_elem_of_filter, elem_of_seq. tauto.
Qed.

(** ** The nodes a layout draws *)

Lemma drawn_nodes_app l1 l2 : drawn_nodes (l1 ++ l2) = drawn_nodes l1 ++ drawn_nodes l2.
Proof. apply omap_app. Qed.

Lemma text_drawn_nodes self a n x y :
  drawn_nodes (snd (TkFlameGraphRenderer.text self a n x y)) = [].
Proof.
  unfold TkFlameGraphRenderer.text. destruct (_ && _); [|done].
  unfold_Canvas. by destruct (py_float_div _ _).
Qed.

Lemma drawn_nodes_tag_raise items :
  drawn_nodes (TkFlameGraphRenderer.tag_raise_signature items) = drawn_nodes items.
Proof.
  unfold TkFlameGraphRenderer.tag_raise_signature. rewrite drawn_nodes_app.
  induction items as [|[b fill node|pos chars node] items IH].
  - done.
  - rewrite filter_cons_True by done.
    rewrite filter_cons_False by done. simpl. by f_equal.
  - rewrite filter_cons_False by done. by rewrite filter_cons_True by done.
Qed.

Lemma concat_fmap_Permutation {A B} (f : A → list B) l1 l2 :
  l1 ≡ₚ l2 → concat (f <$> l1) ≡ₚ concat (f <$> l2).
Proof.
  induction 1 as [|x l1 l2 _ IH|x y l|l1 l2 l3 _ IH1 _ IH2]; simpl.
  - done.
  - by rewrite IH.
  - rewrite !app_assoc. f_equiv. apply Permutation_app_comm.
  - by etrans.
Qed.

Lemma deref_nodes_fst w l rs : deref_nodes w l = Ok rs → fst <$> rs = l.
Proof.
  intros Hrs%deref_nodes_Ok. induction Hrs as [|a r l rs [Ha _] _ IH]; [done|].
  rewrite fmap_cons. by f_equal.
Qed.

(** What a loop draws, given what each of its iterations draws. *)
Lemma drawn_placed_parts (body : nat * CallTreeNodeData.t → Qc → Canvas unit)
    (width : nat * CallTreeNodeData.t → Qc) (lines : nat → list nat) l x :
  (∀ c x, c ∈ l → drawn_nodes (snd (body c x)) ≡ₚ lines (fst c)) →
  drawn_nodes (concat (placed_parts body width l x)) ≡ₚ concat (lines <$> (fst <$> l)).
Proof.
  revert x. induction l as [|c l IH]; intros x Hbody; [done|].
  simpl. rewrite drawn_nodes_app. f_equiv.
  - apply Hbody. by left.
  - apply IH. intros c' x' Hc'. apply Hbody. by right.
Qed.

Section indentation_tree.
Context (ts : list decoded) (w : world) (self : JmcCallForestParser.t).
Hypothesis Hinv : parser_inv ts w self.
Hypothesis Hshape : shape_inv ts w self.
Hypothesis Hstep : ∀ i, S i < length ts → depth_at ts (S i) ≤ S (depth_at ts i).

(** The children of a node, by the indentation of the report. *)
Lemma child_iff p pn c :
  nodes w !! p = Some pn →
  c ∈ CallTreeNodeData.children pn ↔
  p < c ∧ c < length ts ∧ depth_at ts c = S (depth_at ts p) ∧
  ∀ i, p < i → i < c → depth_at ts p < depth_at ts i.
Proof using Hinv Hshape.
  intros Hp. split.
  - intros Hc. destruct (inv_child _ _ _ Hinv p pn c Hp Hc) as [[? ?] ?].
    split_and!; [lia|lia|done|]. by apply (sh_between _ _ _ Hshape p pn c).
  - intros (Hpc & Hc & Hd & Hbetween).
    destruct (inv_parent _ _ _ Hinv c) as (p' & pn' & Hp' & Hc'); [lia|lia|].
    destruct (inv_child _ _ _ Hinv p' pn' c Hp' Hc') as [[? ?] Hd'].
    destruct (Nat.lt_trichotomy p p') as [Hlt|[->|Hgt]].
    + specialize (Hbetween p' Hlt ltac:(lia)). lia.
    + rewrite Hp in Hp'. by injection Hp' as <-.
    + pose proof (sh_between _ _ _ Hshape p' pn' c Hp' Hc' p Hgt Hpc). lia.
Qed.

(** The children of a node are the lines of its subtree that are one
    level deeper, in input order. *)
Lemma children_filter a n :
  nodes w !! a = Some n →
  CallTreeNodeData.children n
  = filter (λ c, depth_at ts c = S (depth_at ts a)) (seq (S a) (subtree_size ts a - 1)).
Proof using Hinv Hshape.
  intros Hn. pose proof (lookup_lt_Some _ _ _ Hn) as Ha.
  rewrite (inv_length _ _ _ Hinv) in Ha.
  destruct (subtree_size_spec ts a Ha) as (Hend & Hin & Hnext).
  apply StronglySorted_lt_eq.
  - by apply (sh_sorted _ _ _ Hshape a n).
  - apply StronglySorted_lt_filter, StronglySorted_lt_seq.
  - intros c. rewrite (child_iff a n c Hn), list_elem_of_filter, elem_of_seq. split.
    + intros (Hac & Hc & Hd & Hbetween). split; [done|]. split; [lia|].
      destruct (decide (c < a + subtree_size ts a)) as [?|Hge]; [lia|].
      specialize (Hnext ltac:(lia)).
      destruct (decide (a + subtree_size ts a = c)) as [Heq|Hne].
      * rewrite Heq in Hnext. lia.
      * unfold subtree_size in *.
        specialize (Hbetween (a + S (deeper_run (depth_at ts a) (drop (S a) ts)))
                      ltac:(lia) ltac:(lia)). lia.
    + intros (Hd & Hlo & Hhi). split_and!; [lia|lia|done|].
      intros i Hai Hic. apply Hin; lia.
Qed.

(** The subtrees of the lines at one level tile the range they lie in. *)
Lemma level_cover L m :
  ∀ lo hi,
    hi - lo ≤ m → lo ≤ hi → hi ≤ length ts →
    (∀ i, lo ≤ i → i < hi → L ≤ depth_at ts i) →
    (lo < hi → depth_at ts lo = L) →
    (∀ c, lo ≤ c → c < hi → depth_at ts c = L → c + subtree_size ts c ≤ hi) →
    concat ((λ c, seq c (subtree_size ts c))
              <$> filter (λ c, depth_at ts c = L) (seq lo (hi - lo)))
    = seq lo (hi - lo).
Proof using Type.
  clear Hinv Hshape Hstep.
  induction m as [|m IH]; intros lo hi Hm Hle Hhi Hdeep Hfirst Hfit.
  { by replace (hi - lo) with 0 by lia. }
  destruct (decide (lo = hi)) as [->|Hne].
  { by rewrite Nat.sub_diag. }
  destruct (subtree_size_spec ts lo ltac:(lia)) as (Hend & Hin & Hnext).
  specialize (Hfirst ltac:(lia)). specialize (Hfit lo ltac:(lia) ltac:(lia) Hfirst) as Hlo.
  assert (∃ k, subtree_size ts lo = S k) as [k Hk] by (by eexists).
  replace (hi - lo) with (subtree_size ts lo + (hi - (lo + subtree_size ts lo))) by lia.
  rewrite seq_app, filter_app, fmap_app, concat_app.
  rewrite (IH (lo + subtree_size ts lo) hi); [|lia|lia|done| | |].
  - f_equal. rewrite Hk at 1. cbn [seq]. rewrite filter_cons_True by done.
    assert (filter (λ c, depth_at ts c = L) (seq (S lo) k) = []) as ->.
    { apply elem_of_nil_inv. intros c [Hc Hrange]%list_elem_of_filter.
      apply elem_of_seq in Hrange. specialize (Hin c ltac:(lia) ltac:(lia)). lia. }
    simpl. by rewrite app_nil_r.
  - intros i ? ?. apply Hdeep; lia.
  - intros Hlt. specialize (Hnext ltac:(lia)).
    specialize (Hdeep (lo + subtree_size ts lo) ltac:(lia) Hlt). lia.
  - intros c ? ? ?. apply Hfit; [lia|done..].
Qed.

(** The subtrees of the children of a line tile the rest of its subtree. *)
Lemma children_cover a n :
  nodes w !! a = Some n →
  concat ((λ c, seq c (subtree_size ts c)) <$> CallTreeNodeData.children n)
  = seq (S a) (subtree_size ts a - 1).
Proof using Hinv Hshape Hstep.
  intros Hn. pose proof (lookup_lt_Some _ _ _ Hn) as Ha.
  rewrite (inv_length _ _ _ Hinv) in Ha.
  destruct (subtree_size_spec ts a Ha) as (Hend & Hin & Hnext).
  rewrite (children_filter a n Hn).
  assert (∃ k, subtree_size ts a = S k) as [k Hk] by (by eexists).
  replace (subtree_size ts a - 1) with (a + subtree_size ts a - S a) by lia.
  apply (level_cover _ (length ts)); [lia|lia|lia| | |].
  - intros i ? ?. specialize (Hin i ltac:(lia) ltac:(lia)). lia.
  - intros Hlt. specialize (Hin (S a) ltac:(lia) ltac:(lia)).
    specialize (Hstep a ltac:(lia)). lia.
  - intros c Hlo Hhi Hd.
    destruct (subtree_size_spec ts c ltac:(lia)) as (Hcend & Hcin & _).
    destruct (decide (c + subtree_size ts c ≤ a + subtree_size ts a)) as [?|Hover];
      [done|].
    specialize (Hcin (a + subtree_size ts a) ltac:(lia) ltac:(lia)).
    specialize (Hnext ltac:(lia)). lia.
Qed.

(** The subtrees of the roots tile the report. *)
Lemma roots_cover :
  starts_unindented ts →
  concat ((λ c, seq c (subtree_size ts c)) <$> depth0_lines 0 ts) = seq 0 (length ts).
Proof using Type.
  clear Hinv Hshape Hstep. intros Hstart. rewrite depth0_lines_filter.
  replace (seq 0 (length ts)) with (seq 0 (length ts - 0)) by (by rewrite Nat.sub_0_r).
  rewrite (list_filter_iff _ (λ c, depth_at ts c = 0)); last first.
  { intros c. by rewrite Nat.sub_0_r. }
  apply (level_cover _ (length ts)); [lia|lia|lia| | |].
  - intros i ? ?. lia.
  - intros Hlt. destruct ts as [|t ts']; [simpl in Hlt; lia|]. done.
  - intros c ? ? ?. by destruct (subtree_size_spec ts c ltac:(lia)) as (? & _).
Qed.

Section drawn.
Context (renderer : TkFlameGraphRenderer.t).
Hypothesis Hcw : (TkFlameGraphRenderer.character_width renderer ≠ 0)%Qc.

(** [render_call_tree] draws one rectangle for each line of the subtree. *)
Lemma render_call_tree_nodes fuel :
  ∀ a x y, a < length ts → length ts - a ≤ fuel →
    drawn_nodes (snd (TkFlameGraphRenderer.render_call_tree fuel renderer w a x y))
    ≡ₚ seq a (subtree_size ts a).
Proof using Hinv Hshape Hstep Hcw.
  destruct (parser_inv_wf ts w self Hinv) as [Hwf _].
  pose proof (inv_length _ _ _ Hinv) as Hlen.
  induction fuel as [|fuel IH]; intros a x y Ha Hfuel; [lia|].
  destruct (lookup_lt_is_Some_2 (nodes w) a ltac:(lia)) as [n Hn].
  destruct (render_call_tree_parts renderer w Hwf Hcw fuel a n x y Hn ltac:(lia))
    as (cs & Hcs & ->).
  cbn [snd]. change (?i :: ?l1 ++ ?l2) with ([i] ++ l1 ++ l2).
  rewrite !drawn_nodes_app, text_drawn_nodes, app_nil_l.
  assert (∃ k, subtree_size ts a = S k) as [k Hk] by (by eexists).
  rewrite Hk. cbn [seq]. change (drawn_nodes [node_rectangle renderer (a, n) x y]) with [a].
  cbn [app]. f_equiv.
  rewrite (drawn_placed_parts _ _ (λ c, seq c (subtree_size ts c))).
  - rewrite (concat_fmap_Permutation _ (fst <$> py_sorted signature_of cs) (fst <$> cs))
      by (by rewrite py_sorted_Permutation).
    rewrite (deref_nodes_fst w _ cs Hcs), (children_cover a n Hn), Hk.
    by replace (S k - 1) with k by lia.
  - intros c x' Hc. rewrite py_sorted_Permutation in Hc.
    destruct (deref_nodes_elem w _ cs c Hcs Hc) as [Hc' _].
    destruct (Hwf a n (fst c) Hn Hc'). apply IH; lia.
Qed.
End drawn.
End indentation_tree.

(** X6: the forest is the tree the indentation spells.  After parsing
    input that starts unindented, [c] is a child of [p] exactly when line
    [c] comes after line [p], is placed one level deeper, and every line
    between them is placed deeper than [p]; the roots are exactly the lines
    placed at depth 0; and children and roots are listed in input order,
    without repetition. *)
Theorem parse_builds_indentation_tree (filename : string) (lines : list string)
    (ts : list decoded) (w0 : world) :
  nodes w0 = [] →
  Forall2 decodes lines ts →
  starts_unindented ts →
  ∃ cf f w,
    (self ← JmcCallForestParser.init filename;
     JmcCallForestParser.parse self lines) w0 = (Ok cf, w) ∧
    forests w !! cf = Some f ∧
    let depth := depth_at (placed 0 ts) in
    (∀ p pn c, nodes w !! p = Some pn →
       (c ∈ CallTreeNodeData.children pn ↔
        p < c ∧ c < length ts ∧ depth c = S (depth p) ∧
        ∀ i, p < i → i < c → depth p < depth i)) ∧
    (∀ p pn, nodes w !! p = Some pn →
       StronglySorted lt (CallTreeNodeData.children pn)) ∧
    (∀ r, r ∈ CallForestData.roots f ↔ r < length ts ∧ depth r = 0) ∧
    StronglySorted lt (CallForestData.roots f).
Proof.
  intros Hnodes Hdec Hstart.
  destruct (parse_tree_inv filename lines ts w0 Hnodes Hdec Hstart)
    as (self & w & Hparse & _ & _ & Hinv & Hshape).
  destruct (inv_roots _ _ _ Hinv) as (f & Hf & Hroots).
  exists (JmcCallForestParser.call_forest self), f, w.
  split_and!; [done|done|]. cbv zeta.
  pose proof (placed_length 0 ts) as Hpl.
  split_and!.
  - intros p pn c Hp. rewrite (child_iff _ w self Hinv Hshape p pn c Hp).
    by rewrite Hpl.
  - intros p pn Hp. by apply (sh_sorted _ _ _ Hshape p pn).
  - intros r. rewrite Hroots, elem_of_depth0_lines, Nat.sub_0_r. lia.
  - rewrite Hroots. apply depth0_lines_sorted.
Qed.

Lemma parse_builds_indentation_tree_witness :
  ∃ cf f w,
    (self ← JmcCallForestParser.init "report.txt";
     JmcCallForestParser.parse self example_lines) empty_world = (Ok cf, w) ∧
    forests w !! cf = Some f ∧
    StronglySorted lt (CallForestData.roots f).
Proof.
  destruct (parse_builds_indentation_tree "report.txt" example_lines example_decoded
              empty_world) as (cf & f & w & Hparse & Hf & _ & _ & _ & Hsorted).
  - reflexivity.
  - repeat (constructor; [by vm_compute|]). constructor.
  - reflexivity.
  - by exists cf, f, w.
Defined.

(** Both invariants speak of the nodes and of the parser's forest only. *)
Lemma tree_inv_store ts w w' self :
  nodes w' = nodes w →
  (∀ i f, forests w !! i = Some f → forests w' !! i = Some f) →
  parser_inv ts w self → shape_inv ts w self →
  parser_inv ts w' self ∧ shape_inv ts w' self.
Proof.
  intros Hn Hf [H1 H2 H3 H4 (f & Hcf & H5) H6] [S1 S2 S3 (f' & Hcf' & S4)].
  split; constructor; rewrite ?Hn; try done.
  - exists f. split; [by apply Hf|done].
  - exists f'. split; [by apply Hf|done].
Qed.

Lemma placed_starts_unindented ts : starts_unindented (placed 0 ts).
Proof. destruct ts as [|t ts]; [done|]. simpl. apply Nat.min_0_r. Qed.

(** [main] parses the report and lays the forest out on a 1200 by 800
    canvas. *)
Lemma main_parts fuel filename lines ts measure :
  filename ≠ "" →
  Forall2 decodes lines ts →
  starts_unindented ts →
  ∃ self w f,
    parser_inv (placed 0 ts) w self ∧
    shape_inv (placed 0 ts) w self ∧
    windows w = [] ∧
    forests w !! JmcCallForestParser.call_forest self = Some f ∧
    CallForestData.name f = filename ∧
    main fuel filename lines measure empty_world
    = lay_out fuel (JmcCallForestParser.call_forest self) measure 1200 800 Colours.init w.
Proof.
  intros Hname Hdec Hstart.
  destruct (parse_tree_inv filename lines ts empty_world eq_refl Hdec Hstart)
    as (self & w & Hparse & Hfile & Hwin & Hinv & Hshape).
  destruct (sh_name _ _ _ Hshape) as (f & Hf & Hfname).
  exists self, w, f. split_and!; [done|done|done|done|congruence|].
  unfold main. rewrite decide_False by done.
  change (M_bind ?f ?m) with (mbind (M := M) f m) in *.
  unfold JmcCallForestParser.parse in *. unfold_M.
  destruct (JmcCallForestParser.init filename empty_world) as [[self0| |] w1];
    [|done..].
  destruct (JmcCallForestParser.process_lines self0 lines w1) as [[self1| |] w2];
    [|done..].
  injection Hparse as Hcf ->. by rewrite Hcf.
Qed.

(** X13: every line of the report is drawn, once.  On a report that
    decodes and starts unindented, whose counts and their sum over the
    unindented lines are word sized, that sum not zero, and with a font
    of a word-sized measure that is not zero, [main] succeeds: it opens
    one 1200 by 800 window titled with the file name, and the rectangles
    on its canvas are one for each line of the report. *)
Theorem main_draws_every_line (fuel : nat) (filename : string) (lines : list string)
    (ts : list decoded) (measure : Z) :
  filename ≠ "" →
  Forall2 decodes lines ts →
  starts_unindented ts →
  Forall (λ t, word_sized (line_samples t)) ts →
  word_sized (root_samples ts) →
  root_samples ts ≠ 0%Z →
  word_sized measure →
  measure ≠ 0%Z →
  length ts ≤ fuel →
  ∃ w canvas,
    main fuel filename lines measure empty_world = (Ok (), w) ∧
    windows w = [Toplevel.mk filename 1200 800 canvas] ∧
    length (nodes w) = length ts ∧
    drawn_nodes canvas ≡ₚ seq 0 (length ts).
Proof.
  intros Hname Hdec Hstart _ Hsum Hsamples _ Hmeasure Hfuel.
  destruct (main_parts fuel filename lines ts measure Hname Hdec Hstart)
    as (self & w & f & Hinv & Hshape & Hwin & Hf & Hfname & ->).
  destruct (parser_inv_wf _ w self Hinv) as (Hwf & f' & Hf' & Hroots).
  rewrite Hf in Hf'. injection Hf' as <-.
  pose proof (inv_length _ _ _ Hinv) as Hlen. rewrite placed_length in Hlen.
  destruct (lay_out_parts fuel (JmcCallForestParser.call_forest self) measure 1200 800
              Colours.init w f (root_samples ts) Hwf Hf Hroots ltac:(lia))
    as (renderer & rs & items & Hrs & Hcw & Hitems & Hlay & _);
    [|done|by apply word_sized_converts|by vm_compute|by vm_compute|done|].
  { by rewrite (parser_inv_samples _ _ _ Hinv), placed_root_samples. }
  eexists _, _. split_and!; [exact Hlay| |done|].
  { cbn [windows]. by rewrite Hwin, Hfname. }
  set (w1 := World (nodes w) (forests w)
               (windows w ++ [Toplevel.mk (CallForestData.name f) 1200 800 []])) in *.
  destruct (tree_inv_store _ w w1 self eq_refl ltac:(done) Hinv Hshape)
    as [Hinv1 Hshape1].
  rewrite drawn_nodes_tag_raise, Hitems.
  rewrite (drawn_placed_parts _ _ (λ c, seq c (subtree_size (placed 0 ts) c))).
  - rewrite (concat_fmap_Permutation _ (fst <$> py_sorted signature_of rs) (fst <$> rs))
      by (by rewrite py_sorted_Permutation).
    rewrite (deref_nodes_fst w _ rs Hrs).
    destruct (inv_roots _ _ _ Hinv) as (f' & Hf' & Hlines).
    rewrite Hf in Hf'. injection Hf' as <-. rewrite Hlines.
    rewrite roots_cover by apply placed_starts_unindented.
    by rewrite placed_length.
  - intros r x Hr. rewrite py_sorted_Permutation in Hr.
    destruct (deref_nodes_elem w _ rs r Hrs Hr) as [Hr' _].
    apply Hroots in Hr'.
    apply (render_call_tree_nodes _ w1 self Hinv1 Hshape1); [|done| |].
    + intros i. rewrite placed_length. apply placed_step.
    + rewrite placed_length. lia.
    + rewrite placed_length. lia.
Qed.

Lemma main_draws_every_line_witness :
  ∃ w canvas,
    main 3 "report.txt" example_lines 100 empty_world = (Ok (), w) ∧
    windows w = [Toplevel.mk "report.txt" 1200 800 canvas] ∧
    length (nodes w) = 3 ∧
    drawn_nodes canvas ≡ₚ [0; 1; 2].
Proof.
  apply (main_draws_every_line 3 "report.txt" example_lines example_decoded 100).
  - done.
  - repeat (constructor; [by vm_compute|]). constructor.
  - reflexivity.
  - repeat (constructor; [by vm_compute|]). constructor.
  - by vm_compute.
  - done.
  - by vm_compute.
  - done.
  - simpl. lia.
Defined.

(** X14: zooming shows a subtree of the report.  In the program as [main]
    leaves it on a report as in X13, zooming from a renderer of a positive
    word-sized width and height into the node of a line that has samples
    opens a second window, titled with the line's signature and as large
    as the renderer's canvas, and the rectangles on its canvas are one for
    the line and one for each line of the run of deeper lines after it. *)
Theorem zoom_in_draws_subtree (fuel : nat) (filename : string) (lines : list string)
    (ts : list decoded) (measure : Z) (renderer : TkFlameGraphRenderer.t)
    (a : addr) (t : decoded) :
  filename ≠ "" →
  Forall2 decodes lines ts →
  starts_unindented ts →
  Forall (λ t, word_sized (line_samples t)) ts →
  word_sized (root_samples ts) →
  root_samples ts ≠ 0%Z →
  word_sized measure →
  measure ≠ 0%Z →
  (0 < TkFlameGraphRenderer.width renderer)%Z →
  word_sized (TkFlameGraphRenderer.width renderer) →
  (0 < TkFlameGraphRenderer.height renderer)%Z →
  word_sized (TkFlameGraphRenderer.height renderer) →
  length ts ≤ fuel →
  ts !! a = Some t →
  line_samples t ≠ 0%Z →
  ∃ w w' canvas,
    main fuel filename lines measure empty_world = (Ok (), w) ∧
    TkFlameGraphRenderer.zoom_in fuel renderer measure a w = (Ok (), w') ∧
    windows w'
    = windows w ++ [Toplevel.mk (line_signature t)
                      (TkFlameGraphRenderer.width renderer)
                      (TkFlameGraphRenderer.height renderer) canvas] ∧
    drawn_nodes canvas ≡ₚ seq a (subtree_size (placed 0 ts) a).
Proof.
  intros Hname Hdec Hstart Hcounts Hsum Hsamples _ Hmeasure _ Hwidth _ Hheight Hfuel Ht
    Hcount.
  destruct (main_parts fuel filename lines ts measure Hname Hdec Hstart)
    as (self & w & f & Hinv & Hshape & Hwin & Hf & Hfname & ->).
  destruct (parser_inv_wf _ w self Hinv) as (Hwf & f' & Hf' & Hroots).
  rewrite Hf in Hf'. injection Hf' as <-.
  pose proof (inv_length _ _ _ Hinv) as Hlen. rewrite placed_length in Hlen.
  destruct (lay_out_parts fuel (JmcCallForestParser.call_forest self) measure 1200 800
              Colours.init w f (root_samples ts) Hwf Hf Hroots ltac:(lia))
    as (_ & _ & items0 & _ & _ & _ & Hmain & _);
    [|done|by apply word_sized_converts|by vm_compute|by vm_compute|done|].
  { by rewrite (parser_inv_samples _ _ _ Hinv), placed_root_samples. }
  assert (converts_to_float (line_samples t)) as Hfloat.
  { apply word_sized_converts. rewrite Forall_forall in Hcounts. apply Hcounts.
    by eapply list_elem_of_lookup_2. }
  set (wm := World (nodes w) (forests w)
               (windows w ++ [Toplevel.mk (CallForestData.name f) 1200 800
                                (TkFlameGraphRenderer.tag_raise_signature items0)])) in *.
  destruct (placed_lookup 0 ts a t Ht) as (e & _ & He).
  destruct (inv_node _ _ _ Hinv a _ He) as [cs Hn]. cbn [line_signature line_samples] in Hn.
  set (n := CallTreeNodeData.mk (line_signature t) (line_samples t) cs) in *.
  set (fz := CallForestData.mk (CallTreeNodeData.signature n) [a]).
  set (wz := World (nodes wm) (forests wm ++ [fz]) (windows wm)).
  assert (TkFlameGraphRenderer.zoom_in fuel renderer measure a wm
          = lay_out fuel (length (forests wm)) measure
              (TkFlameGraphRenderer.width renderer) (TkFlameGraphRenderer.height renderer)
              (TkFlameGraphRenderer.colours renderer) wz) as Hzoom.
  { by rewrite (zoom_in_new_forest fuel renderer measure a n wm Hn). }
  assert (forests wz !! length (forests wm) = Some fz) as Hfz.
  { subst wz. cbn [forests]. by rewrite lookup_app_r, Nat.sub_diag by lia. }
  assert (forest_wf wz fz) as Hrootsz.
  { intros r Hr%list_elem_of_singleton. subst r. by eapply lookup_lt_Some. }
  destruct (lay_out_parts fuel (length (forests wm)) measure
              (TkFlameGraphRenderer.width renderer) (TkFlameGraphRenderer.height renderer)
              (TkFlameGraphRenderer.colours renderer) wz fz (line_samples t)
              Hwf Hfz Hrootsz ltac:(simpl; lia) (zoom_forest_samples wm a n Hn)
              Hcount Hfloat (word_sized_converts _ Hwidth) (word_sized_converts _ Hheight)
              Hmeasure)
    as (rz & rs & items & Hrs & Hcw & Hitems & Hlay & _).
  assert (rs = [(a, n)]) as ->.
  { apply deref_nodes_Ok in Hrs. cbn [CallForestData.roots fz] in Hrs.
    apply Forall2_cons_inv_l in Hrs as ([a' n'] & rs' & [Ha Hn'] & Hnil & ->).
    apply Forall2_nil_inv_l in Hnil as ->. simpl in Ha, Hn'. subst a'.
    change (nodes wz) with (nodes w) in Hn'. congruence. }
  eexists wm, _, _. split_and!; [exact Hmain|by rewrite Hzoom|reflexivity|].
  rewrite drawn_nodes_tag_raise, Hitems.
  cbn [py_sorted foldr py_insert placed_parts concat fst snd]. rewrite app_nil_r.
  set (wz1 := World (nodes wz) (forests wz) _).
  assert (∀ i g, forests w !! i = Some g → forests wz1 !! i = Some g) as Hkept.
  { intros i g Hi. subst wz1 wz wm. cbn [forests]. by apply lookup_app_l_Some. }
  destruct (tree_inv_store (placed 0 ts) w wz1 self eq_refl Hkept Hinv Hshape)
    as [Hinv1 Hshape1].
  apply (render_call_tree_nodes _ wz1 self Hinv1 Hshape1); [|done| |].
  - intros i. rewrite placed_length. apply placed_step.
  - rewrite placed_length. by eapply lookup_lt_Some.
  - rewrite placed_length. lia.
Qed.

Lemma zoom_in_draws_subtree_witness :
  ∃ w w' canvas,
    main 3 "report.txt" example_lines 100 empty_world = (Ok (), w) ∧
    TkFlameGraphRenderer.zoom_in 3 example_renderer 100 0 w = (Ok (), w') ∧
    windows w' = windows w ++ [Toplevel.mk "oracle.db.Connect" 1200 800 canvas] ∧
    drawn_nodes canvas ≡ₚ [0; 1; 2].
Proof.
  apply (zoom_in_draws_subtree 3 "report.txt" example_lines example_decoded 100
           example_renderer 0 (Decoded 0 "oracle.db.Connect" 1000)).
  - done.
  - repeat (constructor; [by vm_compute|]). constructor.
  - reflexivity.
  - repeat (constructor; [by vm_compute|]). constructor.
  - by vm_compute.
  - done.
  - by vm_compute.
  - done.
  - done.
  - by vm_compute.
  - done.
  - by vm_compute.
  - simpl. lia.
  - reflexivity.
  - done.
Defined.

(** ** The outcomes of parsing *)

(** The lines all decode, or there is a first line that does not. *)
Lemma decodable_prefix lines :
  (∃ ts, Forall2 decodes lines ts) ∨
  (∃ before bad after ts e,
     lines = before ++ bad :: after ∧ Forall2 decodes before ts ∧
     (e = IndexError ∨ e = ValueError) ∧
     ∀ self w, JmcCallForestParser.process_line self bad w = (Raise e, w)).
Proof.
  induction lines as [|line lines IH]; [left; by exists []|].
  destruct (decode_or_raise line) as [[t Ht]|(e & He & Hraise)].
  - destruct IH as [[ts Hts]|(before & bad & after & ts & e & -> & Hts & He & Hraise)].
    + left. exists (t :: ts). by constructor.
    + right. exists (line :: before), bad, after, (t :: ts), e.
      split_and!; [done|by constructor|done|done].
  - right. exists [], line, lines, [], e. split_and!; [done|constructor|done|done].
Qed.

Lemma starts_unindented_cases ts : starts_unindented ts ∨ ¬ starts_unindented ts.
Proof. destruct ts as [|t ts]; [by left|]. simpl. destruct (decide (line_depth t = 0)); tauto. Qed.

(** An indented first line fails at [top()], on the empty stack. *)
Lemma first_line_indented self line t rest w :
  CallTreeNodeStack.stack (JmcCallForestParser.stack self) = [] →
  decodes line t → line_depth t ≠ 0 →
  fst (JmcCallForestParser.process_lines self (line :: rest) w) = Raise IndexError.
Proof.
  intros Hstack Ht Hd. simpl. unfold_M.
  rewrite (process_line_decoded self line t w Ht). cbv zeta.
  rewrite decide_False by done.
  unfold CallTreeNodeStack.top, CallTreeNodeStack.drop_to. cbn [CallTreeNodeStack.stack].
  by rewrite Hstack, take_nil.
Qed.

Lemma parse_result filename lines w0 self w1 :
  JmcCallForestParser.init filename w0 = (Ok self, w1) →
  fst ((self ← JmcCallForestParser.init filename;
        JmcCallForestParser.parse self lines) w0)
  = match fst (JmcCallForestParser.process_lines self lines w1) with
    | Ok self' => Ok (JmcCallForestParser.call_forest self')
    | Raise e => Raise e
    | Stuck => Stuck
    end.
Proof.
  intros Hinit. unfold JmcCallForestParser.parse. unfold_M. rewrite Hinit.
  by destruct (JmcCallForestParser.process_lines self lines w1) as [[?| |] ?].
Qed.

(** X15: the outcomes of parsing.  [parse] returns a forest exactly when
    every line decodes and the first line, if any, is not indented;
    otherwise it raises [IndexError] (a line without a tab, or an indented
    first line) or [ValueError] (a count that is not a number), and
    nothing else. *)
Theorem parse_outcomes (filename : string) (lines : list string) (w0 : world) :
  nodes w0 = [] →
  let r := fst ((self ← JmcCallForestParser.init filename;
                 JmcCallForestParser.parse self lines) w0) in
  (is_Ok r ↔ ∃ ts, Forall2 decodes lines ts ∧ starts_unindented ts) ∧
  (is_Ok r ∨ r = Raise IndexError ∨ r = Raise ValueError).
Proof.
  intros Hnodes r.
  assert ((∃ ts, Forall2 decodes lines ts ∧ starts_unindented ts) →  is_Ok r) as Hgood.
  { intros (ts & Hdec & Hstart).
    destruct (parse_tree_inv filename lines ts w0 Hnodes Hdec Hstart)
      as (self & w & Hparse & _). subst r. rewrite Hparse. by eexists. }
  assert ((∃ ts, Forall2 decodes lines ts ∧ starts_unindented ts) ∨
          r = Raise IndexError ∨ r = Raise ValueError) as [Hts|Hraise].
  { destruct (tree_inv_init filename w0 Hnodes)
      as (self & w1 & Hinit & _ & Hstack & _ & Hinv & Hshape).
    subst r. rewrite (parse_result filename lines w0 self w1 Hinit).
    assert (∀ line t rest ts, lines = line :: rest → decodes line t →
              ¬ starts_unindented (t :: ts) →
              fst (JmcCallForestParser.process_lines self lines w1) = Raise IndexError)
      as Hfirst.
    { intros line t rest ts -> Ht Hd. by apply (first_line_indented self line t). }
    destruct (decodable_prefix lines)
      as [[ts Hts]|(before & bad & after & ts & e & Hlines & Hts & He & Hbad)].
    - destruct (starts_unindented_cases ts) as [Hstart|Hstart].
      { left. by exists ts. }
      right. left. destruct Hts as [|line t rest ts' Ht _]; [done|].
      by rewrite (Hfirst line t rest ts' eq_refl Ht Hstart).
    - right. destruct (starts_unindented_cases ts) as [Hstart|Hstart].
      + destruct (tree_inv_lines before [] w1 self ts Hinv Hshape Hts (or_intror Hstart))
          as (self' & w' & Hbefore & _).
        rewrite Hlines, process_lines_app, Hbefore. simpl. unfold_M.
        rewrite Hbad. simpl. by destruct He as [-> | ->]; [left|right].
      + left. destruct Hts as [|line t rest ts' Ht _]; [done|].
        by rewrite (Hfirst line t (rest ++ bad :: after) ts' Hlines Ht Hstart). }
  - split; [|by left; apply Hgood]. split; [done|apply Hgood].
  - split; [|by right]. split; [|apply Hgood].
    intros [a Ha]. destruct Hraise as [Hr|Hr]; congruence.
Qed.

Lemma parse_outcomes_witness :
  let r := fst ((self ← JmcCallForestParser.init "report.txt";
                 JmcCallForestParser.parse self example_lines) empty_world) in
  (is_Ok r ↔ ∃ ts, Forall2 decodes example_lines ts ∧ starts_unindented ts) ∧
  (is_Ok r ∨ r = Raise IndexError ∨ r = Raise ValueError).
Proof. apply (parse_outcomes "report.txt" example_lines empty_world). reflexivity. Defined.

(** ** Zooming into the only root *)

Lemma for_each_placed_ext {A} (body body' : A → Qc → Canvas unit) width width' l x :
  (∀ n x, n ∈ l → body n x = body' n x) →
  (∀ n, n ∈ l → width n = width' n) →
  for_each_placed body width l x = for_each_placed body' width' l x.
Proof.
  revert x. induction l as [|n l IH]; intros x Hbody Hwidth; [done|].
  simpl. rewrite (Hbody n x) by (by left). rewrite (Hwidth n) by (by left).
  unfold_Canvas. destruct (body' n x) as [[[]| |] out]; [|done..].
  rewrite IH; [done| |].
  - intros n' x' Hn'. apply Hbody. by right.
  - intros n' Hn'. apply Hwidth. by right.
Qed.

(** What [render_call_tree] draws depends on the nodes of the store and on
    the scales, the colours and the text measures of the renderer, not on
    its forest or its window. *)
Lemma render_call_tree_ext fuel self self' w w' :
  nodes w' = nodes w →
  TkFlameGraphRenderer.x_scale self' = TkFlameGraphRenderer.x_scale self →
  TkFlameGraphRenderer.y_scale self' = TkFlameGraphRenderer.y_scale self →
  TkFlameGraphRenderer.colours self' = TkFlameGraphRenderer.colours self →
  TkFlameGraphRenderer.character_width self' = TkFlameGraphRenderer.character_width self →
  TkFlameGraphRenderer.min_width_for_text self'
  = TkFlameGraphRenderer.min_width_for_text self →
  TkFlameGraphRenderer.min_height_for_text self'
  = TkFlameGraphRenderer.min_height_for_text self →
  ∀ a x y,
    TkFlameGraphRenderer.render_call_tree fuel self' w' a x y
    = TkFlameGraphRenderer.render_call_tree fuel self w a x y.
Proof.
  intros Hnodes Hxs Hys Hcol Hcw Hmw Hmh.
  assert (∀ a, deref_node w' a = deref_node w a) as Hderef.
  { intros a. unfold deref_node. by rewrite Hnodes. }
  assert (∀ l, deref_nodes w' l = deref_nodes w l) as Hderefs.
  { intros l. unfold deref_nodes. apply result_mapM_ext. intros a _. by rewrite Hderef. }
  assert (∀ a n x y,
    TkFlameGraphRenderer.render_call_tree_node self' a n x y
    = TkFlameGraphRenderer.render_call_tree_node self a n x y) as Hnode.
  { intros a n x y.
    unfold TkFlameGraphRenderer.render_call_tree_node,
      TkFlameGraphRenderer.bounding_box, TkFlameGraphRenderer.text.
    by rewrite Hxs, Hys, Hcol, Hcw, Hmw, Hmh. }
  induction fuel as [|fuel IH]; intros a x y; [done|].
  cbn [TkFlameGraphRenderer.render_call_tree].
  rewrite Hderef, Hys. unfold_Canvas.
  destruct (deref_node w a) as [n| |]; [|done..].
  rewrite Hnode, Hderefs.
  destruct (TkFlameGraphRenderer.render_call_tree_node self a n x y) as [[[]| |] out];
    [|done..].
  destruct (deref_nodes w (CallTreeNodeData.children n)) as [cs| |]; [|done..].
  rewrite (for_each_placed_ext _
             (λ child child_x,
                TkFlameGraphRenderer.render_call_tree fuel self w (fst child) child_x
                  (y - TkFlameGraphRenderer.y_scale self)%Qc)
             _ (TkFlameGraphRenderer.advance self)); [done| |].
  - intros c cx _. apply IH.
  - intros c _. unfold TkFlameGraphRenderer.advance. by rewrite Hxs.
Qed.

Lemma placed_parts_ext {A} (body body' : A → Qc → Canvas unit) width width' l x :
  (∀ n x, n ∈ l → body n x = body' n x) →
  (∀ n, n ∈ l → width n = width' n) →
  placed_parts body width l x = placed_parts body' width' l x.
Proof.
  revert x. induction l as [|n l IH]; intros x Hbody Hwidth; [done|].
  simpl. rewrite (Hbody n x) by (by left). rewrite (Hwidth n) by (by left).
  f_equal. apply IH.
  - intros n' x' Hn'. apply Hbody. by right.
  - intros n' Hn'. apply Hwidth. by right.
Qed.

(** The measures a renderer is constructed with. *)
Lemma init_measures fuel cf measure width height colours w self w' :
  TkFlameGraphRenderer.init fuel cf measure width height colours w = (Ok self, w') →
  ∃ S d,
    CallForest.samples w cf = Ok S ∧
    CallForest.depth fuel w cf = Ok d ∧
    TkFlameGraphRenderer.colours self = colours ∧
    TkFlameGraphRenderer.character_width self = (Q2Qc (1 # 10) * py_float measure)%Qc ∧
    TkFlameGraphRenderer.min_width_for_text self
    = (Qc_of_Z 3 * (Q2Qc (1 # 10) * py_float measure))%Qc ∧
    TkFlameGraphRenderer.min_height_for_text self = 10%Z ∧
    TkFlameGraphRenderer.x_scale self = (py_float width / py_float S)%Qc ∧
    TkFlameGraphRenderer.y_scale self = (py_float height / py_float (Z.of_nat d))%Qc.
Proof.
  unfold TkFlameGraphRenderer.init, py_float_div_int, py_float_of. unfold_M.
  destruct (decide (converts_to_float width)); [|done].
  destruct (CallForest.samples w cf) as [S| |]; [|done..].
  destruct (decide (converts_to_float S)); [|done].
  unfold py_float_div at 1.
  destruct (decide (py_float S = 0%Qc)); [done|].
  destruct (decide (converts_to_float height)); [|done].
  destruct (CallForest.depth fuel w cf) as [d| |]; [|done..].
  unfold py_float_div.
  destruct (decide (py_float (Z.of_nat d) = 0%Qc)); [done|].
  destruct (deref_forest w cf) as [f| |]; [|done..].
  unfold TkFlameGraphRenderer.new_window. intros [= <- <-].
  by exists S, d.
Qed.

Lemma forest_sole_root fuel w cf f a n :
  forests w !! cf = Some f → CallForestData.roots f = [a] → nodes w !! a = Some n →
  CallForest.samples w cf = Ok (CallTreeNodeData.samples n) ∧
  CallForest.depth fuel w cf
  = (d ← CallTreeNode.depth fuel w a; Ok (Nat.max d 0)).
Proof.
  intros Hf%deref_forest_Ok Hroots Hn. unfold CallForest.samples, CallForest.depth.
  unfold_M. rewrite Hf, Hroots. cbn [result_mapM]. unfold_M.
  apply deref_node_Ok in Hn. rewrite Hn. split.
  - f_equal. unfold py_sum. simpl. lia.
  - by destruct (CallTreeNode.depth fuel w a).
Qed.

(** X17: zooming into the only root redraws the picture.  For a forest
    with a single root that has samples, in a store of word-sized counts,
    with a word-sized canvas and font measure, zooming into that root
    draws, in its new window, the very canvas that laying out the forest
    draws: the two windows differ in their titles only. *)
Theorem zoom_in_sole_root (fuel : nat) (self : TkFlameGraphRenderer.t) (measure : Z)
    (cf a : addr) (f : CallForestData.t) (n : CallTreeNodeData.t) (w : world) :
  heap_wf w →
  forests w !! cf = Some f →
  CallForestData.roots f = [a] →
  nodes w !! a = Some n →
  CallTreeNodeData.samples n ≠ 0%Z →
  counts_word_sized w →
  word_sized (TkFlameGraphRenderer.width self) →
  word_sized (TkFlameGraphRenderer.height self) →
  word_sized measure →
  measure ≠ 0%Z →
  length (nodes w) ≤ fuel →
  ∃ w1 w2 canvas,
    lay_out fuel cf measure (TkFlameGraphRenderer.width self)
      (TkFlameGraphRenderer.height self) (TkFlameGraphRenderer.colours self) w
    = (Ok (), w1) ∧
    windows w1
    = windows w ++ [Toplevel.mk (CallForestData.name f)
                      (TkFlameGraphRenderer.width self)
                      (TkFlameGraphRenderer.height self) canvas] ∧
    TkFlameGraphRenderer.zoom_in fuel self measure a w = (Ok (), w2) ∧
    windows w2
    = windows w ++ [Toplevel.mk (CallTreeNodeData.signature n)
                      (TkFlameGraphRenderer.width self)
                      (TkFlameGraphRenderer.height self) canvas].
Proof.
  intros Hwf Hf Hroots Hn Hsamples Hcounts HW%word_sized_converts HH%word_sized_converts
    _ Hmeasure Hfuel.
  assert (converts_to_float (CallTreeNodeData.samples n)) as Hfloat.
  { apply word_sized_converts. by eapply Hcounts. }
  set (W := TkFlameGraphRenderer.width self) in *.
  set (H := TkFlameGraphRenderer.height self) in *.
  set (col := TkFlameGraphRenderer.colours self).
  assert (forest_wf w f) as Hfwf.
  { intros r. rewrite Hroots. intros ->%list_elem_of_singleton.
    by eapply lookup_lt_Some. }
  destruct (forest_sole_root fuel w cf f a n Hf Hroots Hn) as [HS Hdepth].
  set (fz := CallForestData.mk (CallTreeNodeData.signature n) [a]).
  set (wz := World (nodes w) (forests w ++ [fz]) (windows w)).
  assert (forests wz !! length (forests w) = Some fz) as Hfz.
  { subst wz. cbn [forests]. by rewrite lookup_app_r, Nat.sub_diag by lia. }
  assert (forest_wf wz fz) as Hfzwf.
  { intros r ->%list_elem_of_singleton. by eapply lookup_lt_Some. }
  destruct (forest_sole_root fuel wz (length (forests w)) fz a n Hfz eq_refl Hn)
    as [HSz Hdepthz].
  rewrite (node_depth_nodes fuel w wz a eq_refl) in Hdepthz.
  pose proof (lay_out_parts fuel cf measure W H col w f _ Hwf Hf Hfwf Hfuel HS
                Hsamples Hfloat HW HH Hmeasure) as Hlay1.
  pose proof (lay_out_parts fuel (length (forests w)) measure W H col wz fz _ Hwf Hfz
                Hfzwf Hfuel HSz Hsamples Hfloat HW HH Hmeasure) as Hlay2.
  cbv zeta in Hlay1, Hlay2.
  destruct Hlay1 as (self1 & rs1 & items1 & Hrs1 & _ & Hitems1 & Hlay1 & Hinit1).
  destruct Hlay2 as (self2 & rs2 & items2 & Hrs2 & _ & Hitems2 & Hlay2 & Hinit2).
  change (deref_nodes wz) with (deref_nodes w) in Hrs2.
  cbn [CallForestData.roots fz] in Hrs2. rewrite Hroots in Hrs1.
  assert (rs2 = rs1) as -> by congruence.
  destruct (init_measures _ _ _ _ _ _ _ _ _ Hinit1)
    as (S1 & d1 & HS1 & Hd1 & Hcol1 & Hcw1 & Hmw1 & Hmh1 & Hxs1 & Hys1).
  destruct (init_measures _ _ _ _ _ _ _ _ _ Hinit2)
    as (S2 & d2 & HS2 & Hd2 & Hcol2 & Hcw2 & Hmw2 & Hmh2 & Hxs2 & Hys2).
  assert (S2 = S1) as -> by congruence.
  assert (d2 = d1) as -> by congruence.
  assert (items2 = items1) as ->.
  { rewrite Hitems1, Hitems2. f_equal. apply placed_parts_ext.
    - intros r x _. rewrite Hys2, <- Hys1.
      apply render_call_tree_ext; [done|congruence..].
    - intros r _. unfold TkFlameGraphRenderer.advance. congruence. }
  eexists _, _, _.
  split_and!;
    [exact Hlay1|reflexivity
    |rewrite (zoom_in_new_forest fuel self measure a n w Hn); exact Hlay2
    |reflexivity].
Qed.

Lemma zoom_in_sole_root_witness :
  ∃ w1 w2 canvas,
    lay_out 3 0 100 1200 800 Colours.init example_world = (Ok (), w1) ∧
    windows w1 = [Toplevel.mk "report.txt" 1200 800 canvas] ∧
    TkFlameGraphRenderer.zoom_in 3 example_renderer 100 0 example_world = (Ok (), w2) ∧
    windows w2 = [Toplevel.mk "oracle.db.Connect" 1200 800 canvas].
Proof.
  apply (zoom_in_sole_root 3 example_renderer 100 0 0 (CallForestData.mk "report.txt" [0])
           (CallTreeNodeData.mk "oracle.db.Connect" 1000 [1; 2]) example_world).
  - exact example_world_wf.
  - reflexivity.
  - reflexivity.
  - reflexivity.
  - done.
  - intros i m Hi. by repeat (destruct i as [|i]; [injection Hi as <-; vm_compute|]).
  - by vm_compute.
  - by vm_compute.
  - by vm_compute.
  - done.
  - simpl. lia.
Defined.
